(** * The advanced search engine of the RAG sample, embedded in Rocq

    Source: [src/lib/advanced-search-engine.ts] (class [AdvancedSearchEngine])
    and the record type [PersonInfo] of [src/types].

    Conventions of the embedding.
    - A JavaScript string is a [string]: the UTF-8 bytes of its text.  Substring
      search on well-formed UTF-8 coincides with substring search on the
      characters, so [includes] is the byte-level one.
    - A JavaScript [number] that holds a score is a binary64 [float]; integer
      counters (lengths, frequencies, years) are [nat], and are turned into a
      [float] where the code does arithmetic with fractions.
    - An exception is the [Throw] case of [outcome]. *)

From Stdlib Require Import ZArith List String Ascii Floats DecimalString DecimalNat Lia.
From Stdlib Require Import Sorted Permutation Bool Arith Psatz.
From Stdlib Require Uint63.
From stdpp Require Import gmap strings.

Set Warnings "-inexact-float".
Local Open Scope string_scope.
Local Open Scope list_scope.

(** ** JavaScript strings *)

Module JsString.

(** The string whose bytes are [l]. *)
Definition bytes (l : list nat) : string :=
  fold_right (fun n s => String (ascii_of_nat n) s) "" l.

(** [String.prototype.startsWith]. *)
Fixpoint startsWith (s sub : string) {struct sub} : bool :=
  match sub with
  | EmptyString => true
  | String a sub' =>
      match s with
      | EmptyString => false
      | String b s' => Ascii.eqb a b && startsWith s' sub'
      end
  end.

(** [String.prototype.includes]: [includes s sub] is [s.includes(sub)]. *)
Fixpoint includes (s sub : string) : bool :=
  startsWith s sub ||
  match s with
  | EmptyString => false
  | String _ s' => includes s' sub
  end.

(** [String.prototype.toLowerCase], on the letters A-Z; every other byte,
    so all Japanese text, is left as it is. *)
Definition lowerAscii (c : ascii) : ascii :=
  let n := nat_of_ascii c in
  if (65 <=? n)%nat && (n <=? 90)%nat then ascii_of_nat (n + 32) else c.

Fixpoint toLowerCase (s : string) : string :=
  match s with
  | EmptyString => EmptyString
  | String c s' => String (lowerAscii c) (toLowerCase s')
  end.

(** The characters matched by [\s] in a regular expression, which are also
    the ones [trim] removes: TAB, LF, VT, FF, CR, SPACE, U+00A0, U+1680,
    U+2000..U+200A, U+2028, U+2029, U+202F, U+205F, U+3000 and U+FEFF. *)
Definition whitespace : list string :=
  [ bytes [9]; bytes [10]; bytes [11]; bytes [12]; bytes [13]; " ";
    bytes [0xC2; 0xA0]; bytes [0xE1; 0x9A; 0x80];
    bytes [0xE2; 0x80; 0x80]; bytes [0xE2; 0x80; 0x81];
    bytes [0xE2; 0x80; 0x82]; bytes [0xE2; 0x80; 0x83];
    bytes [0xE2; 0x80; 0x84]; bytes [0xE2; 0x80; 0x85];
    bytes [0xE2; 0x80; 0x86]; bytes [0xE2; 0x80; 0x87];
    bytes [0xE2; 0x80; 0x88]; bytes [0xE2; 0x80; 0x89];
    bytes [0xE2; 0x80; 0x8A]; bytes [0xE2; 0x80; 0xA8];
    bytes [0xE2; 0x80; 0xA9]; bytes [0xE2; 0x80; 0xAF];
    bytes [0xE2; 0x81; 0x9F]; bytes [0xE3; 0x80; 0x80];
    bytes [0xEF; 0xBB; 0xBF] ].

(** The class [[\s,、。]] of the tokenizer. *)
Definition separators : list string :=
  whitespace ++ [ ","; "、"; "。" ].

(** The length of the first member of [seps] that [s] starts with. *)
Definition matchAny (seps : list string) (s : string) : option nat :=
  option_map String.length (List.find (fun sep => startsWith s sep) seps).

Definition flush (cur : string) : list string :=
  if String.eqb cur "" then [] else [cur].

(** [s.split(/[\s,、。]+/).filter(word => word.length > 0)]: the maximal
    runs of bytes that belong to no separator.  [skip] counts the bytes of
    a separator still to be passed over, [cur] is the word being read. *)
Fixpoint splitWordsFrom (s : string) (skip : nat) (cur : string) : list string :=
  match s with
  | EmptyString => flush cur
  | String c s' =>
      match skip with
      | S k => splitWordsFrom s' k cur
      | O =>
          match matchAny separators s with
          | Some (S k) => flush cur ++ splitWordsFrom s' k ""
          | _ => splitWordsFrom s' 0 (cur +:+ String c "")
          end
      end
  end.

Definition splitWords (s : string) : list string := splitWordsFrom s 0 "".

Fixpoint trimStartFrom (s : string) (skip : nat) : string :=
  match s with
  | EmptyString => EmptyString
  | String _ s' =>
      match skip with
      | S k => trimStartFrom s' k
      | O =>
          match matchAny whitespace s with
          | Some (S k) => trimStartFrom s' k
          | _ => s
          end
      end
  end.

Definition trimStart (s : string) : string := trimStartFrom s 0.

Fixpoint trimEnd (s : string) : string :=
  match s with
  | EmptyString => EmptyString
  | String c s' =>
      if String.eqb (trimStart s) "" then "" else String c (trimEnd s')
  end.

(** [String.prototype.trim]. *)
Definition trim (s : string) : string := trimEnd (trimStart s).

(** [Array.prototype.join]. *)
Definition join (sep : string) (l : list string) : string := String.concat sep l.

(** A non-negative integer in a template literal. *)
Definition ofNat (n : nat) : string := NilEmpty.string_of_uint (Nat.to_uint n).

(** The line feed of a template literal. *)
Definition LF : string := bytes [10].

End JsString.

Import JsString.


(** ** JavaScript numbers *)

Module JsNumber.

(** The [number] of an integer counter.  The conversion is exact below
    2^53, far above the length of any array or string. *)
Definition ofNat (n : nat) : float :=
  PrimFloat.of_uint63 (Uint63Axioms.of_Z (Z.of_nat n)).

(** [a > b] and [a >= b]; both are false when an operand is NaN. *)
Definition gt (a b : float) : bool := PrimFloat.ltb b a.
Definition ge (a b : float) : bool := PrimFloat.leb b a.

Definition isNegZero (a : float) : bool :=
  PrimFloat.is_zero a && PrimFloat.get_sign a.

(** [Math.max(a, b)]: NaN if an operand is, and +0 above -0. *)
Definition Math_max (a b : float) : float :=
  if PrimFloat.is_nan a || PrimFloat.is_nan b then PrimFloat.nan
  else if PrimFloat.ltb a b then b
  else if PrimFloat.ltb b a then a
  else if isNegZero a then b else a.

Definition Math_min (a b : float) : float :=
  if PrimFloat.is_nan a || PrimFloat.is_nan b then PrimFloat.nan
  else if PrimFloat.ltb a b then a
  else if PrimFloat.ltb b a then b
  else if isNegZero a then a else b.

(** [Math.max(...l)] and [Math.min(...l)]. *)
Definition Math_max_list (l : list float) : float :=
  fold_left Math_max l PrimFloat.neg_infinity.
Definition Math_min_list (l : list float) : float :=
  fold_left Math_min l PrimFloat.infinity.

Definition ofZ (z : Z) : float :=
  match z with
  | Z0 => PrimFloat.zero
  | Zpos _ => PrimFloat.of_uint63 (Uint63Axioms.of_Z z)
  | Zneg p => PrimFloat.opp (PrimFloat.of_uint63 (Uint63Axioms.of_Z (Zpos p)))
  end.

(** [Math.round]: the nearest integer, a tie going up.  A finite double
    is [m * 2^e]; with [e < 0] the result is the floor of
    [(2 m + 2^-e) / 2^(1-e)], below 2^53 in absolute value. *)
Definition Math_round (x : float) : float :=
  match Prim2SF x with
  | S754_finite s m e =>
      if (0 <=? e)%Z then x
      else
        let k := (- e)%Z in
        let sm := if s then Zneg m else Zpos m in
        let n := ((2 * sm + 2 ^ k) / 2 ^ (k + 1))%Z in
        if (n =? 0)%Z then (if s then PrimFloat.neg_zero else PrimFloat.zero)
        else ofZ n
  | _ => x
  end.

End JsNumber.

(** ** The data model *)

(** [PersonInfo] of [src/types]. *)
Record PersonInfo := {
  name : string;
  department : string;
  skills : list string;
  qualifications : list string;
  selfPR : string;
  experience : string;
  yearsOfExperience : nat
}.

(** ['basic' | 'skills' | 'experience' | 'qualifications']. *)
Inductive ChunkType := basic | skills_chunk | experience_chunk | qualifications_chunk.

Record Metadata := {
  md_department : string;
  md_skills : list string;
  md_qualifications : list string;
  md_yearsOfExperience : nat
}.

Record Chunk := {
  id : string;
  content : string;
  personId : string;
  personName : string;
  chunkType : ChunkType;
  metadata : Metadata
}.

(** ['exact' | 'similar' | 'category' | 'aggregation']. *)
Inductive MatchType := exact | similar | category | aggregation_match.

Record AdvancedSearchResult := {
  person : PersonInfo;
  relevance : float;
  matchedChunks : list Chunk;
  explanation : string;
  matchType : MatchType
}.

Inductive QueryType := exact_search | fuzzy_search | analytical | general_question.

(** The statistics objects built by the three [analyze...] methods, with
    the fields [counts], [skills] and [total], then [counts], [departments]
    and [total], then [average], [max], [min] and [total].  An object used as
    a dictionary is the list of its entries in insertion order. *)
Record DepartmentStats := {
  deptCounts : list (string * nat);
  deptSkills : list (string * list string);
  deptTotal : nat
}.

Record SkillStats := {
  skillCounts : list (string * nat);
  skillDepartments : list (string * list string);
  skillTotal : nat
}.

Record ExperienceStats := {
  averageYears : float;
  maxYears : float;
  minYears : float;
  experienceTotal : nat
}.

Inductive Stats :=
| OfDepartments (s : DepartmentStats)
| OfSkills (s : SkillStats)
| OfExperience (s : ExperienceStats).

(** [AggregationResult.value : number | string[] | object]. *)
Inductive AggValue :=
| VNumber (n : nat)
| VList (l : list string)
| VObject (s : Stats).

(** ['count' | 'list' | 'statistics']. *)
Inductive AggType := count | list_type | statistics.

(** [AggregationResult.details]. *)
Inductive Details :=
| DepartmentCount (dept : string) (n total : nat)
| SkillCount (skill : string) (n total : nat)
| StatsDetails (s : Stats)
| DepartmentList (l : list string)
| SkillList (l : list string).

Record AggregationResult := {
  type : AggType;
  value : AggValue;
  description : string;
  details : option Details
}.

(** What [search] resolves to. *)
Record SearchOutput := {
  results : list AdvancedSearchResult;
  aggregation : option AggregationResult;
  queryType : QueryType;
  shouldUseGemini : bool
}.

(** A call either returns or throws. *)
Inductive outcome (A : Type) :=
| Return (a : A)
| Throw (error : string).
Arguments Return {A} a.
Arguments Throw {A} error.

(** The two private fields of the engine. *)
Record Engine := {
  chunks : list Chunk;
  persons : list PersonInfo
}.

(** ** The chunker *)

Definition personIdOf (personIndex : nat) : string :=
  "person_" +:+ JsString.ofNat personIndex.

Definition metadataOf (p : PersonInfo) : Metadata :=
  {| md_department := department p;
     md_skills := skills p;
     md_qualifications := qualifications p;
     md_yearsOfExperience := yearsOfExperience p |}.

(** The body of the [forEach] of [createChunks]: the chunks pushed for one
    person. *)
Definition personChunks (personIndex : nat) (p : PersonInfo) : list Chunk :=
  let personId := personIdOf personIndex in
  [ {| id := personId +:+ "_basic";
       content := name p +:+ "は" +:+ department p +:+ "に所属しています。" +:+ selfPR p;
       personId := personId;
       personName := name p;
       chunkType := basic;
       metadata := metadataOf p |} ]
  ++ (if (0 <? length (skills p))%nat then
        [ {| id := personId +:+ "_skills";
             content := name p +:+ "のスキル: " +:+ join ", " (skills p);
             personId := personId;
             personName := name p;
             chunkType := skills_chunk;
             metadata := metadataOf p |} ]
      else [])
  ++ (if negb (String.eqb (experience p) "") then
        [ {| id := personId +:+ "_experience";
             content := name p +:+ "の開発経験: " +:+ experience p +:+ "（"
                        +:+ JsString.ofNat (yearsOfExperience p) +:+ "年）";
             personId := personId;
             personName := name p;
             chunkType := experience_chunk;
             metadata := metadataOf p |} ]
      else [])
  ++ (if (0 <? length (qualifications p))%nat then
        [ {| id := personId +:+ "_qualifications";
             content := name p +:+ "の資格: " +:+ join ", " (qualifications p);
             personId := personId;
             personName := name p;
             chunkType := qualifications_chunk;
             metadata := metadataOf p |} ]
      else []).

Fixpoint createChunksFrom (personIndex : nat) (ps : list PersonInfo) : list Chunk :=
  match ps with
  | [] => []
  | p :: ps' => personChunks personIndex p ++ createChunksFrom (S personIndex) ps'
  end.

Definition createChunks (ps : list PersonInfo) : list Chunk := createChunksFrom 0 ps.

(** [initialize] replaces both fields, whatever the engine held before. *)
Definition initialize (e : Engine) (ps : list PersonInfo) : Engine :=
  {| persons := ps; chunks := createChunks ps |}.


(** ** The query classifier *)

Definition exactKeywords : list string :=
  [ "python"; "java"; "javascript"; "react"; "vue"; "angular"; "node"; "aws"; "azure"; "gcp";
    "docker"; "kubernetes"; "sql"; "mongodb"; "redis"; "html"; "css"; "php"; "ruby"; "go";
    "開発部"; "インフラ部"; "デザイン部"; "営業部"; "企画部"; "人事部"; "総務部";
    "資格"; "経験"; "年数"; "スキル"; "技術"; "プログラミング"; "コーディング" ].

Definition analyticalKeywords : list string :=
  [ "何人"; "人数"; "優秀"; "経験"; "年数"; "多い"; "少ない"; "平均"; "統計"; "分析";
    "トップ"; "ベスト"; "最優秀"; "最高"; "最低"; "比較"; "ランキング"; "順位";
    "どのくらい"; "どれくらい"; "何割"; "何パーセント"; "割合"; "比率" ].

Definition generalKeywords : list string :=
  [ "部署"; "何がある"; "どんな"; "特徴"; "傾向"; "比較"; "リスト"; "一覧";
    "紹介"; "教えて"; "説明"; "詳細"; "概要"; "まとめ"; "サマリー";
    "会社"; "組織"; "チーム"; "メンバー"; "社員"; "従業員" ].

Definition conversationalKeywords : list string :=
  [ "おすすめ"; "お勧め"; "推奨"; "適任"; "向いている"; "得意"; "専門";
    "詳しい"; "詳しく"; "詳しい人"; "専門家"; "エキスパート"; "ベテラン";
    "若手"; "新人"; "中堅"; "シニア"; "リーダー"; "マネージャー";
    "できる"; "可能"; "対応"; "対応可能"; "対応している"; "担当" ].

(** [keywords.some(keyword => q.includes(keyword))]. *)
Definition includesSome (q : string) (keywords : list string) : bool :=
  existsb (fun keyword => includes q keyword) keywords.

Definition analyzeQueryType (query : string) : QueryType :=
  let queryLower := toLowerCase query in
  if includesSome queryLower exactKeywords then exact_search
  else if includesSome queryLower conversationalKeywords then general_question
  else if includesSome queryLower analyticalKeywords then analytical
  else if includesSome queryLower generalKeywords then general_question
  else fuzzy_search.

(** ** Aggregation queries *)

Definition countWhere {A} (f : A -> bool) (l : list A) : nat :=
  length (List.filter f l).

Definition departmentCount (e : Engine) (token dept : string) : AggregationResult :=
  let n := countWhere (fun p => includes (department p) token) (persons e) in
  {| type := count;
     value := VNumber n;
     description := dept +:+ "に所属している人は" +:+ JsString.ofNat n +:+ "人です。";
     details := Some (DepartmentCount dept n (length (persons e))) |}.

Definition skillCount (e : Engine) (skill : string) : AggregationResult :=
  let n := countWhere
             (fun p => existsb (fun s => includes (toLowerCase s) skill) (skills p))
             (persons e) in
  {| type := count;
     value := VNumber n;
     description := skill +:+ "スキルを持つ人は" +:+ JsString.ofNat n +:+ "人です。";
     details := Some (SkillCount skill n (length (persons e))) |}.

Definition skillKeywords : list string :=
  [ "python"; "javascript"; "java"; "react"; "aws"; "docker" ].

Definition detectAggregationQuery (e : Engine) (query : string) : option AggregationResult :=
  let queryLower := toLowerCase query in
  let headcount :=
    if includes queryLower "何人" || includes queryLower "人数" then
      if includes queryLower "開発部" then Some (departmentCount e "開発" "開発部")
      else if includes queryLower "インフラ" then Some (departmentCount e "インフラ" "インフラ部")
      else if includes queryLower "デザイン" then Some (departmentCount e "デザイン" "デザイン部")
      else None
    else None in
  match headcount with
  | Some r => Some r
  | None =>
      if includes queryLower "スキル" && includes queryLower "何人" then
        option_map (skillCount e)
          (List.find (fun skill => includes queryLower skill) skillKeywords)
      else None
  end.

(** ** The retrieval scorer *)

Definition checkPartialMatch (query : string) (p : PersonInfo) : float :=
  let either (field : string) :=
    includes (toLowerCase field) query || includes query (toLowerCase field) in
  let step (maxScore : float) (field : string) :=
    if either field then JsNumber.Math_max maxScore 0.8 else maxScore in
  let maxScore := step 0%float (department p) in
  let maxScore := fold_left step (skills p) maxScore in
  fold_left step (qualifications p) maxScore.

Definition checkExactMatch (query : string) (p : PersonInfo) : float :=
  if includes query (toLowerCase (department p)) then 1%float
  else if existsb (fun skill => includes query (toLowerCase skill)) (skills p) then 1%float
  else if existsb (fun q => includes query (toLowerCase q)) (qualifications p) then 1%float
  else if includes query (toLowerCase (name p)) then 1%float
  else
    let partialMatch := checkPartialMatch query p in
    if JsNumber.gt partialMatch 0.7 then partialMatch else 0%float.

(** The frequency table of a list of words, an object used as a dictionary:
    only own keys are modelled, not what a key such as [constructor] would
    find on the prototype. *)
Definition wordFreq (words : list string) : gmap string nat :=
  fold_left
    (fun freq word =>
       let normalizedWord := trim (toLowerCase word) in
       if (0 <? String.length normalizedWord)%nat
       then <[ normalizedWord := default 0%nat (freq !! normalizedWord) + 1 ]> freq
       else freq)
    words ∅.

Definition freqOf (freq : gmap string nat) (word : string) : nat :=
  default 0%nat (freq !! word).

Definition sumOver (words : list string) (f : string -> nat) : nat :=
  fold_right (fun word acc => f word + acc) 0 words.

(** The three accumulators of the loop over [allWords].  They hold integers,
    whose sums are exact in a [number] (below 2^53) and so independent of the
    order in which the set is visited. *)
Definition allWords (queryFreq textFreq : gmap string nat) : list string :=
  elements (dom queryFreq ∪ dom textFreq).
Definition dotProduct (queryFreq textFreq : gmap string nat) : nat :=
  sumOver (allWords queryFreq textFreq) (fun w => freqOf queryFreq w * freqOf textFreq w).
Definition magnitude (freq : gmap string nat) (words : list string) : nat :=
  sumOver words (fun w => freqOf freq w * freqOf freq w).

Definition calculateCosineSimilarity (query text : string) : float :=
  let queryWords := splitWords query in
  let textWords := splitWords text in
  if (length queryWords =? 0)%nat || (length textWords =? 0)%nat then 0%float
  else
    let queryFreq := wordFreq queryWords in
    let textFreq := wordFreq textWords in
    let queryMagnitude := magnitude queryFreq (allWords queryFreq textFreq) in
    let textMagnitude := magnitude textFreq (allWords queryFreq textFreq) in
    if (queryMagnitude =? 0)%nat || (textMagnitude =? 0)%nat then 0%float
    else
      PrimFloat.div
        (JsNumber.ofNat (dotProduct queryFreq textFreq))
        (PrimFloat.mul (PrimFloat.sqrt (JsNumber.ofNat queryMagnitude))
                       (PrimFloat.sqrt (JsNumber.ofNat textMagnitude))).

Definition determineMatchType (query : string) (p : PersonInfo) (rel : float) : MatchType :=
  if JsNumber.ge rel 1 then exact
  else if includes query (toLowerCase (name p)) then exact
  else if includes query (toLowerCase (department p)) then exact
  else if existsb (fun skill => includes query (toLowerCase skill)) (skills p) then exact
  else if existsb (fun qual => includes query (toLowerCase qual)) (qualifications p) then exact
  else if JsNumber.gt rel 0.6 then similar
  else category.

Definition generateExplanation (query : string) (p : PersonInfo)
    (matched : list Chunk) (rel : float) : string :=
  if JsNumber.gt rel 0.8 then "非常に高い関連性"
  else if JsNumber.gt rel 0.6 then "高い関連性"
  else if JsNumber.gt rel 0.4 then "中程度の関連性"
  else "低い関連性".

(** The keyword list of [isConversationalQuery], which is not the one of the
    classifier. *)
Definition conversationalQueryKeywords : list string :=
  [ "おすすめ"; "推奨"; "適任"; "向いている"; "得意"; "専門";
    "詳しい"; "詳しく"; "専門家"; "エキスパート"; "ベテラン";
    "若手"; "新人"; "中堅"; "シニア"; "リーダー"; "マネージャー";
    "できる"; "可能"; "対応"; "対応可能"; "対応している"; "担当";
    "メンター"; "指導"; "成長"; "優秀"; "経験豊富" ].

Definition isConversationalQuery (query : string) : bool :=
  includesSome query conversationalQueryKeywords.

Definition calculateConversationalScore (query : string) (p : PersonInfo) : float :=
  let score := 0%float in
  let score :=
    if includes query "ベテラン" || includes query "シニア" || includes query "経験豊富" then
      if (5 <=? yearsOfExperience p)%nat then (score + 0.3)%float
      else if (3 <=? yearsOfExperience p)%nat then (score + 0.2)%float
      else score
    else score in
  let score :=
    if includes query "若手" || includes query "新人" then
      if (yearsOfExperience p <=? 2)%nat then (score + 0.3)%float
      else if (yearsOfExperience p <=? 3)%nat then (score + 0.2)%float
      else score
    else score in
  let score :=
    if includes query "複数" || includes query "多様" then
      if (3 <=? length (skills p))%nat then (score + 0.2)%float else score
    else score in
  let score :=
    if includes query "資格" || includes query "認定" then
      if (0 <? length (qualifications p))%nat then (score + 0.2)%float else score
    else score in
  let score :=
    if includes query "開発" && includes (department p) "開発"
    then (score + 0.3)%float else score in
  let score :=
    if includes query "インフラ" && includes (department p) "インフラ"
    then (score + 0.3)%float else score in
  let score :=
    if includes query "デザイン" && includes (department p) "デザイン"
    then (score + 0.3)%float else score in
  score.

(** [this.chunks.filter(chunk => chunk.personId === `person_${personIndex}`)]. *)
Definition chunksOfPerson (e : Engine) (personIndex : nat) : list Chunk :=
  List.filter (fun c => String.eqb (personId c) (personIdOf personIndex)) (chunks e).

(** The [else] branch of the scorer: the chunks whose similarity to the query
    exceeds 0.05, and the greatest of these similarities. *)
Definition scoreChunks (queryLower : string) (cs : list Chunk) : float * list Chunk :=
  fold_left
    (fun '(maxRelevance, matched) c =>
       let rel := calculateCosineSimilarity queryLower (toLowerCase (content c)) in
       if JsNumber.gt rel 0.05
       then (JsNumber.Math_max maxRelevance rel, matched ++ [c])
       else (maxRelevance, matched))
    cs (0%float, []).

(** The relevance and the matched chunks of one person, as they stand when
    the [maxRelevance > 0] test is reached. *)
Definition scorePerson (e : Engine) (queryLower : string)
    (personIndex : nat) (p : PersonInfo) : float * list Chunk :=
  let exactMatch := checkExactMatch queryLower p in
  let '(maxRelevance, matched) :=
    if JsNumber.gt exactMatch 0
    then (exactMatch, chunksOfPerson e personIndex)
    else scoreChunks queryLower (chunksOfPerson e personIndex) in
  let maxRelevance :=
    if isConversationalQuery queryLower
    then JsNumber.Math_max maxRelevance (calculateConversationalScore queryLower p)
    else maxRelevance in
  (maxRelevance, matched).

(** The body of the [forEach] of [performSearch]: what one person pushes. *)
Definition searchPerson (e : Engine) (queryLower : string)
    (personIndex : nat) (p : PersonInfo) : list AdvancedSearchResult :=
  let '(maxRelevance, matched) := scorePerson e queryLower personIndex p in
  if JsNumber.gt maxRelevance 0 then
    [ {| person := p;
         relevance := maxRelevance;
         matchedChunks := matched;
         explanation := generateExplanation queryLower p matched maxRelevance;
         matchType := determineMatchType queryLower p maxRelevance |} ]
  else [].

Fixpoint searchPersonsFrom (e : Engine) (queryLower : string)
    (personIndex : nat) (ps : list PersonInfo) : list AdvancedSearchResult :=
  match ps with
  | [] => []
  | p :: ps' =>
      searchPerson e queryLower personIndex p
      ++ searchPersonsFrom e queryLower (S personIndex) ps'
  end.

(** [Array.prototype.sort] is stable.  [after x y] says that the comparator
    is positive on [(x, y)], so that [x] has to come after [y]. *)
Fixpoint insertSorted {A} (after : A -> A -> bool) (x : A) (l : list A) : list A :=
  match l with
  | [] => [x]
  | y :: l' => if after x y then y :: insertSorted after x l' else x :: l
  end.

Definition stableSort {A} (after : A -> A -> bool) (l : list A) : list A :=
  fold_right (insertSorted after) [] l.

(** The comparator [(a, b) => b.relevance - a.relevance]: [a] goes after [b]
    when the difference is positive. *)
Definition byRelevance (a b : AdvancedSearchResult) : bool :=
  JsNumber.gt (PrimFloat.sub (relevance b) (relevance a)) 0.

Definition performSearch (e : Engine) (query : string) : list AdvancedSearchResult :=
  let queryLower := toLowerCase query in
  let found := searchPersonsFrom e queryLower 0 (persons e) in
  firstn 5 (stableSort byRelevance found).


(** ** Statistics *)

(** An object used as a dictionary, as the list of its entries: a key that
    is already present keeps its place, a new one goes last. *)
Fixpoint entryGet {V} (entries : list (string * V)) (key : string) : option V :=
  match entries with
  | [] => None
  | (k, v) :: rest => if String.eqb k key then Some v else entryGet rest key
  end.

Fixpoint entrySet {V} (entries : list (string * V)) (key : string) (v : V)
    : list (string * V) :=
  match entries with
  | [] => [(key, v)]
  | (k, w) :: rest =>
      if String.eqb k key then (k, v) :: rest else (k, w) :: entrySet rest key v
  end.

(** [[...new Set(l)]]: the first occurrence of each string is kept. *)
Definition unique (l : list string) : list string :=
  fold_left (fun seen x => if existsb (String.eqb x) seen then seen else seen ++ [x]) l [].

Definition analyzeDepartments (e : Engine) : DepartmentStats :=
  let '(counts, skillsOf) :=
    fold_left
      (fun '(counts, skillsOf) p =>
         let dept := department p in
         let '(counts, skillsOf) :=
           match entryGet counts dept with
           | None | Some O => (entrySet counts dept 0%nat, entrySet skillsOf dept [])
           | Some _ => (counts, skillsOf)
           end in
         (entrySet counts dept (default 0%nat (entryGet counts dept) + 1),
          entrySet skillsOf dept (default [] (entryGet skillsOf dept) ++ skills p)))
      (persons e) ([], []) in
  {| deptCounts := counts; deptSkills := skillsOf; deptTotal := length (persons e) |}.

Definition analyzeSkills (e : Engine) : SkillStats :=
  let '(counts, departments) :=
    fold_left
      (fun acc p =>
         fold_left
           (fun '(counts, departments) skill =>
              let '(counts, departments) :=
                match entryGet counts skill with
                | None | Some O => (entrySet counts skill 0%nat, entrySet departments skill [])
                | Some _ => (counts, departments)
                end in
              let depts := default [] (entryGet departments skill) in
              (entrySet counts skill (default 0%nat (entryGet counts skill) + 1),
               if existsb (String.eqb (department p)) depts then departments
               else entrySet departments skill (depts ++ [department p])))
           (skills p) acc)
      (persons e) ([], []) in
  {| skillCounts := counts; skillDepartments := departments;
     skillTotal := length (persons e) |}.

Definition analyzeExperience (e : Engine) : ExperienceStats :=
  let experienceYears := map yearsOfExperience (persons e) in
  let average :=
    PrimFloat.div (JsNumber.ofNat (fold_left Nat.add experienceYears 0%nat))
                  (JsNumber.ofNat (length experienceYears)) in
  {| averageYears := PrimFloat.div (JsNumber.Math_round (PrimFloat.mul average 10)) 10;
     maxYears := JsNumber.Math_max_list (map JsNumber.ofNat experienceYears);
     minYears := JsNumber.Math_min_list (map JsNumber.ofNat experienceYears);
     experienceTotal := length (persons e) |}.

(** The comparator [(a, b) => b[1] - a[1]] on the entries of a count table. *)
Definition byCount (a b : string * nat) : bool := (snd a <? snd b)%nat.

Definition findTopPerformers (e : Engine) : list AdvancedSearchResult :=
  let scoredPersons :=
    map (fun p =>
           let skillScore := (JsNumber.ofNat (length (skills p)) * 0.3)%float in
           let qualificationScore := (JsNumber.ofNat (length (qualifications p)) * 0.2)%float in
           let experienceScore := (JsNumber.ofNat (yearsOfExperience p) * 0.1)%float in
           let totalScore := (skillScore + qualificationScore + experienceScore)%float in
           {| person := p;
              relevance := totalScore;
              matchedChunks := [];
              explanation := "スキル: " +:+ JsString.ofNat (length (skills p)) +:+ "個, 資格: "
                             +:+ JsString.ofNat (length (qualifications p)) +:+ "個, 経験: "
                             +:+ JsString.ofNat (yearsOfExperience p) +:+ "年";
              matchType := similar |})
        (persons e) in
  firstn 3 (stableSort byRelevance scoredPersons).

Definition getUniqueDepartments (e : Engine) : list string :=
  unique (map department (persons e)).

Definition getUniqueSkills (e : Engine) : list string :=
  unique (flat_map skills (persons e)).

Definition typeError : string := "TypeError".

(** The two formatters below read element 0 of a sorted list of entries for
    a query with 優秀, and throw a [TypeError] when there is none. *)
Definition formatDepartmentAnalysis (stats : DepartmentStats) (query : string)
    : outcome string :=
  let description :=
    fold_left
      (fun description '(dept, n) =>
         let uniqueSkills := unique (default [] (entryGet (deptSkills stats) dept)) in
         (description +:+ dept +:+ ": " +:+ JsString.ofNat n +:+ "人" +:+ LF
          +:+ "  主なスキル: " +:+ join ", " (firstn 3 uniqueSkills) +:+ LF +:+ LF))
      (deptCounts stats) ("部署別の分析結果：" +:+ LF +:+ LF) in
  if includes query "優秀" then
    match stableSort byCount (deptCounts stats) with
    | (dept, n) :: _ =>
        Return (description +:+ "最も人数が多い部署は" +:+ dept +:+ "（"
                +:+ JsString.ofNat n +:+ "人）です。")
    | [] => Throw typeError
    end
  else Return description.

Definition formatSkillAnalysis (stats : SkillStats) (query : string) : outcome string :=
  let sortedSkills := stableSort byCount (skillCounts stats) in
  let description :=
    fold_left
      (fun description '(skill, n) =>
         let depts := default [] (entryGet (skillDepartments stats) skill) in
         (description +:+ skill +:+ ": " +:+ JsString.ofNat n +:+ "人が保有" +:+ LF
          +:+ "  部署: " +:+ join ", " depts +:+ LF +:+ LF))
      (firstn 5 sortedSkills) ("スキル別の分析結果：" +:+ LF +:+ LF) in
  if includes query "優秀" then
    match sortedSkills with
    | (skill, n) :: _ =>
        Return (description +:+ "最も多くの人が保有しているスキルは" +:+ skill +:+ "（"
                +:+ JsString.ofNat n +:+ "人）です。")
    | [] => Throw typeError
    end
  else Return description.

Section Rendering.

(** How a [number] that need not be an integer is written in a template
    literal ([Number::toString]); the engine only passes the result on. *)
Variable numberToString : float -> string.

Definition formatExperienceAnalysis (e : Engine) (stats : ExperienceStats)
    (query : string) : string :=
  let description : string :=
    "経験年数の分析結果：" +:+ LF +:+ LF
    +:+ "平均経験年数: " +:+ numberToString (averageYears stats) +:+ "年" +:+ LF
    +:+ "最高経験年数: " +:+ numberToString (maxYears stats) +:+ "年" +:+ LF
    +:+ "最低経験年数: " +:+ numberToString (minYears stats) +:+ "年" +:+ LF
    +:+ "総人数: " +:+ JsString.ofNat (experienceTotal stats) +:+ "人" +:+ LF +:+ LF in
  if includes query "優秀" then
    let experiencedPersons :=
      List.filter
        (fun p => JsNumber.ge (JsNumber.ofNat (yearsOfExperience p)) (averageYears stats))
        (persons e) in
    description +:+ "平均以上の経験を持つ人は"
    +:+ JsString.ofNat (length experiencedPersons) +:+ "人です。"
  else description.

(** ** The handlers of the orchestrator *)

Definition handleExactSearch (e : Engine) (query : string) : SearchOutput :=
  let results := performSearch e query in
  {| results := results;
     aggregation := None;
     queryType := exact_search;
     shouldUseGemini := (length results =? 0)%nat |}.

Definition handleFuzzySearch (e : Engine) (query : string) : SearchOutput :=
  let results := performSearch e query in
  {| results := results;
     aggregation := None;
     queryType := fuzzy_search;
     shouldUseGemini := (length results =? 0)%nat |}.

Definition statisticsResult (stats : Stats) (formatted : outcome string)
    : outcome SearchOutput :=
  match formatted with
  | Throw err => Throw err
  | Return text =>
      Return {| results := [];
                aggregation := Some {| type := statistics;
                                       value := VObject stats;
                                       description := text;
                                       details := Some (StatsDetails stats) |};
                queryType := analytical;
                shouldUseGemini := false |}
  end.

Definition handleAnalyticalQuery (e : Engine) (query : string) : outcome SearchOutput :=
  let queryLower := toLowerCase query in
  if includes queryLower "部署" && (includes queryLower "何人" || includes queryLower "優秀") then
    let departmentStats := analyzeDepartments e in
    statisticsResult (OfDepartments departmentStats)
      (formatDepartmentAnalysis departmentStats queryLower)
  else if includes queryLower "スキル" || includes queryLower "技術" then
    let skillStats := analyzeSkills e in
    statisticsResult (OfSkills skillStats) (formatSkillAnalysis skillStats queryLower)
  else if includes queryLower "経験" || includes queryLower "年数" then
    let experienceStats := analyzeExperience e in
    statisticsResult (OfExperience experienceStats)
      (Return (formatExperienceAnalysis e experienceStats queryLower))
  else if includes queryLower "優秀" then
    Return {| results := findTopPerformers e;
              aggregation := None;
              queryType := analytical;
              shouldUseGemini := false |}
  else
    Return {| results := [];
              aggregation := None;
              queryType := analytical;
              shouldUseGemini := true |}.

Definition listResult (l : list string) (text : string) (d : Details) : SearchOutput :=
  {| results := [];
     aggregation := Some {| type := list_type;
                            value := VList l;
                            description := text;
                            details := Some d |};
     queryType := general_question;
     shouldUseGemini := false |}.

Definition searchForGemini (e : Engine) (query : string) : SearchOutput :=
  {| results := performSearch e query;
     aggregation := None;
     queryType := general_question;
     shouldUseGemini := true |}.

Definition handleGeneralQuestion (e : Engine) (query : string) : SearchOutput :=
  let queryLower := toLowerCase query in
  if includes queryLower "部署" && includes queryLower "何がある" then
    let departments := getUniqueDepartments e in
    listResult departments
      ("当社には以下の部署があります：" +:+ LF +:+ join LF departments)
      (DepartmentList departments)
  else if includes queryLower "スキル" || includes queryLower "技術" then
    let allSkills := getUniqueSkills e in
    listResult allSkills
      ("社員が持っているスキルは以下の通りです：" +:+ LF +:+ join LF allSkills)
      (SkillList allSkills)
  else if includes queryLower "おすすめ" || includes queryLower "推奨"
          || includes queryLower "適任" then searchForGemini e query
  else if includes queryLower "専門" || includes queryLower "エキスパート"
          || includes queryLower "詳しい" then searchForGemini e query
  else if includes queryLower "メンター" || includes queryLower "指導"
          || includes queryLower "新人" then searchForGemini e query
  else if includes queryLower "若手" || includes queryLower "ベテラン"
          || includes queryLower "シニア" then searchForGemini e query
  else
    {| results := [];
       aggregation := None;
       queryType := general_question;
       shouldUseGemini := true |}.

(** ** The orchestrator *)

Definition search (e : Engine) (query : string) : outcome SearchOutput :=
  let queryType := analyzeQueryType query in
  match detectAggregationQuery e query with
  | Some aggregationResult =>
      Return {| results := [];
                aggregation := Some aggregationResult;
                queryType := queryType;
                shouldUseGemini := false |}
  | None =>
      match queryType with
      | exact_search => Return (handleExactSearch e query)
      | fuzzy_search => Return (handleFuzzySearch e query)
      | analytical => handleAnalyticalQuery e query
      | general_question => Return (handleGeneralQuestion e query)
      end
  end.

End Rendering.

(** ** Rendering of results *)

Definition noResults : string := "検索条件に一致する結果が見つかりませんでした。".

Definition formatResult (index : nat) (result : AdvancedSearchResult) : string :=
  let p := person result in
  JsString.ofNat (index + 1) +:+ ". " +:+ name p +:+ LF
  +:+ "   部署: " +:+ department p +:+ LF
  +:+ "   スキル: " +:+ join ", " (skills p) +:+ LF
  +:+ "   資格: " +:+ join ", " (qualifications p) +:+ LF
  +:+ "   経験: " +:+ experience p +:+ LF
  +:+ "   関連性: " +:+ explanation result.

Fixpoint formatResultsFrom (index : nat) (rs : list AdvancedSearchResult) : list string :=
  match rs with
  | [] => []
  | r :: rs' => formatResult index r :: formatResultsFrom (S index) rs'
  end.

Definition formatResults (rs : list AdvancedSearchResult)
    (agg : option AggregationResult) : string :=
  match agg with
  | Some a => description a
  | None =>
      if (length rs =? 0)%nat then noResults
      else join (LF +:+ LF) (formatResultsFrom 0 rs)
  end.


(** ** Vocabulary of the properties *)

Definition chunkTypeEqb (a b : ChunkType) : bool :=
  match a, b with
  | basic, basic | skills_chunk, skills_chunk
  | experience_chunk, experience_chunk
  | qualifications_chunk, qualifications_chunk => true
  | _, _ => false
  end.

(** How many chunks of [cs] have the type [t]. *)
Definition countType (t : ChunkType) (cs : list Chunk) : nat :=
  countWhere (fun c => chunkTypeEqb (chunkType c) t) cs.

(** A chunk carries the name and the four metadata fields of the person. *)
Definition carries (c : Chunk) (p : PersonInfo) : Prop :=
  personName c = name p
  /\ md_department (metadata c) = department p
  /\ md_skills (metadata c) = skills p
  /\ md_qualifications (metadata c) = qualifications p
  /\ md_yearsOfExperience (metadata c) = yearsOfExperience p.


(** The engine as its constructor leaves it. *)
Definition newEngine : Engine := {| chunks := []; persons := [] |}.

(** A record that has a name and a department and nothing else. *)
Definition member (n dept : string) : PersonInfo :=
  {| name := n; department := dept; skills := []; qualifications := [];
     selfPR := ""; experience := ""; yearsOfExperience := 0 |}.

(** The store of the head-count example, in English and in Japanese. *)
Definition devStore : Engine :=
  initialize newEngine [member "A" "Dev"; member "B" "Dev"; member "C" "Design"].
Definition kaihatsuStore : Engine :=
  initialize newEngine [member "A" "開発部"; member "B" "開発部"; member "C" "デザイン部"].

(** What [search] returns when [detectAggregationQuery] has an answer. *)
Definition aggregationOutput (query : string) (r : AggregationResult) : SearchOutput :=
  {| results := [];
     aggregation := Some r;
     queryType := analyzeQueryType query;
     shouldUseGemini := false |}.


(** [a] may stand before [b] in a ranking: the relevance of [b] is at most
    that of [a]. *)
Definition descending (a b : AdvancedSearchResult) : Prop :=
  PrimFloat.leb (relevance b) (relevance a) = true.

(** A double that is not NaN, and one that is moreover not negative. *)
Definition SFnonneg (x : spec_float) : Prop :=
  match x with
  | S754_nan => False
  | S754_zero _ => True
  | S754_infinity s | S754_finite s _ _ => s = false
  end.
Definition isNumber (x : float) : Prop := Prim2SF x <> S754_nan.
Definition nonneg (x : float) : Prop := SFnonneg (Prim2SF x).


(** The similarities of a query to the chunks [cs], and the greatest of
    those above 0.05 (0 when there is none). *)
Definition cosineScores (ql : string) (cs : list Chunk) : list float :=
  map (fun c => calculateCosineSimilarity ql (toLowerCase (content c))) cs.
Definition bestCosine (ql : string) (cs : list Chunk) : float :=
  fold_left JsNumber.Math_max
    (List.filter (fun rel => JsNumber.gt rel 0.05) (cosineScores ql cs)) 0%float.

(** A developer of React Native who writes React three times. *)
Definition tanaka : PersonInfo :=
  {| name := "田中"; department := "開発部"; skills := ["React Native"];
     qualifications := []; selfPR := "React React React";
     experience := ""; yearsOfExperience := 4 |}.

(** What the scorer returns for [tanaka] on the query react. *)
Definition tanakaResult : AdvancedSearchResult :=
  {| person := tanaka;
     relevance := 0.8;
     matchedChunks := personChunks 0 tanaka;
     explanation := "高い関連性";
     matchType := similar |}.

(** The conversational sum, which counts for conversational queries only. *)
Definition conversationalStep (ql : string) (p : PersonInfo) : float :=
  if isConversationalQuery ql then calculateConversationalScore ql p else 0%float.

(** The maximum over the four scoring steps, each taken by itself. *)
Definition maximumOfSteps (ql : string) (i : nat) (p : PersonInfo) : float :=
  JsNumber.Math_max
    (JsNumber.Math_max (checkExactMatch ql p) (bestCosine ql (personChunks i p)))
    (conversationalStep ql p).


(** A record that has a name, one skill and nothing else, and a store of six
    of them. *)
Definition pythonist (n : string) : PersonInfo :=
  {| name := n; department := "開発部"; skills := ["Python"]; qualifications := [];
     selfPR := ""; experience := ""; yearsOfExperience := 1 |}.

(** A record on which the conversational sum can pass 1. *)
Definition suzuki : PersonInfo :=
  {| name := "鈴木"; department := "開発部"; skills := ["Python"; "Go"; "SQL"];
     qualifications := ["基本情報技術者"]; selfPR := ""; experience := "";
     yearsOfExperience := 3 |}.


(** A query that is empty or made of white space only. *)
Inductive whitespaceOnly : string -> Prop :=
| blank_empty : whitespaceOnly ""
| blank_space (w s : string) :
    In w whitespace -> whitespaceOnly s -> whitespaceOnly (w +:+ s).

(** A byte of the encoding of some white space character. *)
Definition blankByte (c : ascii) : bool :=
  existsb (fun w => existsb (Ascii.eqb c) (list_ascii_of_string w)) whitespace.

Fixpoint allBytes (f : ascii -> bool) (s : string) : bool :=
  match s with
  | EmptyString => true
  | String c s' => f c && allBytes f s'
  end.





(** The three fields of an output that the escalation rule is about. *)
Definition summary (o : outcome SearchOutput)
    : option (list string * bool * bool) :=
  match o with
  | Return out =>
      Some (map (fun r => name (person r)) (results out),
            match aggregation out with Some _ => true | None => false end,
            shouldUseGemini out)
  | Throw _ => None
  end.


(** The total score of [findTopPerformers]. *)
Definition totalScore (p : PersonInfo) : float :=
  (JsNumber.ofNat (length (skills p)) * 0.3
   + JsNumber.ofNat (length (qualifications p)) * 0.2
   + JsNumber.ofNat (yearsOfExperience p) * 0.1)%float.

(** The match type that goes with a relevance. *)
Definition matchTypeOf (rel : float) : MatchType :=
  if JsNumber.ge rel 1 then exact
  else if JsNumber.gt rel 0.6 then similar
  else category.

(** The chunks of [cs] that are similar enough to the query. *)
Definition similarChunks (ql : string) (cs : list Chunk) : list Chunk :=
  List.filter
    (fun c => JsNumber.gt (calculateCosineSimilarity ql (toLowerCase (content c))) 0.05) cs.

(** The end of the id of a chunk of each type. *)
Definition chunkSuffix (t : ChunkType) : string :=
  match t with
  | basic => "_basic"
  | skills_chunk => "_skills"
  | experience_chunk => "_experience"
  | qualifications_chunk => "_qualifications"
  end.

(** A decimal digit. *)
Definition isDigit (c : ascii) : bool :=
  let n := nat_of_ascii c in (48 <=? n)%nat && (n <=? 57)%nat.

(** The names that every object inherits from [Object.prototype].  The
    dictionaries of the statistics are plain objects: a department or skill
    with one of these names finds the inherited property instead of an entry
    (and [push] then throws), which the lists of entries do not model. *)
Definition inheritedKeys : list string :=
  [ "constructor"; "__proto__"; "hasOwnProperty"; "isPrototypeOf";
    "propertyIsEnumerable"; "toLocaleString"; "toString"; "valueOf";
    "__defineGetter__"; "__defineSetter__"; "__lookupGetter__"; "__lookupSetter__" ].

Definition plainKey (key : string) : bool :=
  negb (existsb (String.eqb key) inheritedKeys).

(** The departments of the store are plain keys. *)
Definition plainDepartments (e : Engine) : Prop :=
  Forall (fun p => plainKey (department p) = true) (persons e).

(** The persons of a department among [ps], and their number. *)
Definition staff (ps : list PersonInfo) (dept : string) : list PersonInfo :=
  List.filter (fun p => String.eqb (department p) dept) ps.
Definition headcount (ps : list PersonInfo) (dept : string) : nat :=
  length (staff ps dept).

(** The body of the [forEach] of [analyzeDepartments]. *)
Definition countDepartment
    : list (string * nat) * list (string * list string) -> PersonInfo ->
      list (string * nat) * list (string * list string) :=
  fun '(counts, skillsOf) p =>
    let dept := department p in
    let '(counts, skillsOf) :=
      match entryGet counts dept with
      | None | Some O => (entrySet counts dept 0%nat, entrySet skillsOf dept [])
      | Some _ => (counts, skillsOf)
      end in
    (entrySet counts dept (default 0%nat (entryGet counts dept) + 1),
     entrySet skillsOf dept (default [] (entryGet skillsOf dept) ++ skills p)).

(** The two tables hold, for the persons [ps] seen so far, the head count and
    the skills of every department that has a person, and nothing else. *)
Definition tallied (ps : list PersonInfo)
    (acc : list (string * nat) * list (string * list string)) : Prop :=
  (forall d, entryGet (fst acc) d
             = if (headcount ps d =? 0)%nat then None else Some (headcount ps d))
  /\ (forall d, entryGet (snd acc) d
                = if (headcount ps d =? 0)%nat then None
                  else Some (flat_map skills (staff ps d)))
  /\ List.NoDup (map fst (fst acc))
  /\ list_sum (map snd (fst acc)) = length ps.

(** ** The CSV reader

    [readCSVFile] and its helpers.  The file is parsed by PapaParse with
    [header: true]: a row is an object from the names of the columns to the
    text of the cells. *)

(** [s.split(',')]: the pieces between the commas, of which there is always
    at least one. *)
Fixpoint splitComma (s : string) : list string :=
  match s with
  | EmptyString => [""]
  | String c s' =>
      if Ascii.eqb c ","
      then "" :: splitComma s'
      else String c (hd "" (splitComma s')) :: tl (splitComma s')
  end.

Definition parseSkills (skillsString : string) : list string :=
  if String.eqb skillsString "" || String.eqb (trim skillsString) "" then []
  else List.filter (fun skill => (0 <? String.length skill)%nat)
         (map trim (splitComma skillsString)).

Definition parseQualifications (qualificationsString : string) : list string :=
  if String.eqb qualificationsString "" || String.eqb (trim qualificationsString) "" then []
  else List.filter (fun qual => (0 <? String.length qual)%nat)
         (map trim (splitComma qualificationsString)).

(** The digits at the front of a string. *)
Fixpoint takeDigits (s : string) : string :=
  match s with
  | EmptyString => EmptyString
  | String c s' => if isDigit c then String c (takeDigits s') else EmptyString
  end.

(** [s.match(/\d+/)]: the first run of digits of [s], taken as far as it
    goes, if [s] has a digit. *)
Fixpoint matchDigits (s : string) : option string :=
  match s with
  | EmptyString => None
  | String c s' => if isDigit c then Some (takeDigits s) else matchDigits s'
  end.

(** [parseInt(digits, 10)] on a string of digits.  The result is a [number]:
    the [nat] is exact below 2^53. *)
Definition digitValue (c : ascii) : nat := nat_of_ascii c - 48.

Fixpoint parseIntFrom (digits : string) (acc : nat) : nat :=
  match digits with
  | EmptyString => acc
  | String c digits' => parseIntFrom digits' (10 * acc + digitValue c)
  end.

Definition parseInt (digits : string) : nat := parseIntFrom digits 0.

Definition parseYearsOfExperience (yearsString : string) : nat :=
  if String.eqb yearsString "" || String.eqb (trim yearsString) "" then 0%nat
  else
    match matchDigits yearsString with
    | Some digits => parseInt digits
    | None => 0%nat
    end.

(** A row of the parsed file. *)
Definition Row : Type := gmap string string.

(** [!cell] and [cell || fallback], for a cell that may be missing. *)
Definition missing (cell : option string) : bool :=
  match cell with
  | Some text => String.eqb text ""
  | None => true
  end.

Definition orElse (cell : option string) (fallback : string) : string :=
  match cell with
  | Some text => if String.eqb text "" then fallback else text
  | None => fallback
  end.

(** The body of the [forEach] of [parsePersonData]: the person pushed for one
    row, if any. *)
Definition parseRow (row : Row) : list PersonInfo :=
  if missing (row !! "氏名") || missing (row !! "部署") then []
  else
    [ {| name := trim (default "" (row !! "氏名"));
         department := trim (default "" (row !! "部署"));
         skills := parseSkills (orElse (row !! "スキル") "");
         qualifications := parseQualifications (orElse (row !! "資格") "");
         selfPR := orElse (row !! "自己PR") "";
         experience := orElse (row !! "開発経験") "";
         yearsOfExperience := parseYearsOfExperience (orElse (row !! "経験年数") "0") |} ].

Definition parsePersonData (csvData : list Row) : list PersonInfo :=
  flat_map parseRow csvData.

Record CSVReadResult := {
  success : bool;
  data : option (list PersonInfo);
  error : option string;
  rowCount : option nat
}.

(** The [complete] callback of [readCSVFile], on the messages of the errors
    and the rows that the parser reports. *)
Definition complete (errors : list string) (rows : list Row) : CSVReadResult :=
  match errors with
  | message :: _ =>
      {| success := false; data := None;
         error := Some ("CSV解析エラー: " +:+ message); rowCount := None |}
  | [] =>
      if (length rows =? 0)%nat then
        {| success := false; data := None;
           error := Some "CSVファイルにデータがありません"; rowCount := None |}
      else
        let persons := parsePersonData rows in
        {| success := true; data := Some persons;
           error := None; rowCount := Some (length persons) |}
  end.

(** A string without a comma. *)
Definition noComma (s : string) : bool :=
  allBytes (fun c => negb (Ascii.eqb c ",")) s.

(** An item as [parseSkills] leaves it: not empty, without white space at
    either end and without a comma. *)
Definition cleanItem (s : string) : Prop :=
  s <> "" /\ trim s = s /\ noComma s = true.

(** A string without a digit, and one that does not start with a digit. *)
Definition noDigit (s : string) : bool := allBytes (fun c => negb (isDigit c)) s.
Definition noDigitFirst (s : string) : bool :=
  match s with
  | EmptyString => true
  | String c _ => negb (isDigit c)
  end.

(** ** The callers of the engine

    [src/lib/gemini-api.ts]: the two entry points of the page,
    [searchPersonsWithGemini] and [chatWithPersons], which share one engine,
    and what they send to Gemini. *)

Definition placeholderKey : string := "your_gemini_api_key_here".

(** [process.env.NEXT_PUBLIC_GEMINI_API_KEY] is a string or undefined. *)
Definition isGeminiAvailable (apiKey : option string) : bool :=
  match apiKey with
  | Some key => negb (String.eqb key "") && negb (String.eqb key placeholderKey)
  | None => false
  end.

Record GeminiStatus := {
  isAvailable : bool;
  hasApiKey : bool;
  isConfigured : bool;
  message : string
}.

Definition getGeminiStatus (apiKey : option string) : GeminiStatus :=
  if missing apiKey then
    {| isAvailable := false; hasApiKey := false; isConfigured := false;
       message := "APIキーが設定されていません" |}
  else if String.eqb (default "" apiKey) placeholderKey then
    {| isAvailable := false; hasApiKey := true; isConfigured := false;
       message := "APIキーがデフォルト値のままです" |}
  else
    {| isAvailable := true; hasApiKey := true; isConfigured := true;
       message := "APIキーが正常に設定されています" |}.

(** [getGeminiAPI]: the client, which is made of the key, or an [Error]. *)
Definition getGeminiAPI (apiKey : option string) : outcome string :=
  if missing apiKey || String.eqb (default "" apiKey) placeholderKey then
    Throw "Gemini APIキーが設定されていません。.env.localファイルでNEXT_PUBLIC_GEMINI_API_KEYを設定してください。"
  else Return (default "" apiKey).

Definition responseError : string := "応答生成中にエラーが発生しました。".
Definition noPersons : string :=
  "人物情報が登録されていません。まずファイルをアップロードしてください。".
Definition noQuery : string := "検索クエリが入力されていません。".
Definition searchError : string := "検索中にエラーが発生しました。".

(** The name of a query type, as the engine returns it. *)
Definition queryTypeName (t : QueryType) : string :=
  match t with
  | exact_search => "exact_search"
  | fuzzy_search => "fuzzy_search"
  | analytical => "analytical"
  | general_question => "general_question"
  end.

Definition generatePromptByType (query personSummary queryType : string) : string :=
  if String.eqb queryType "general_question" then
      "あなたは会社の人事データを分析する専門家です。以下の人物情報を参考に、ユーザーの質問に自然で親しみやすく答えてください。" +:+ LF +:+ LF
      +:+ "人物情報:" +:+ LF +:+ personSummary +:+ LF +:+ LF +:+ "ユーザーの質問: " +:+ query
      +:+ LF +:+ LF +:+ "回答のポイント:" +:+ LF +:+ "- データに基づいた具体的な情報を提供" +:+ LF
      +:+ "- 必要に応じて分析や洞察を加える" +:+ LF +:+ "- 自然で親しみやすい口調で回答" +:+ LF
      +:+ "- 100文字以内で簡潔に回答" +:+ LF +:+ "- ユーザーの意図を理解して適切な情報を提供" +:+ LF
      +:+ "- 必要に応じて推奨や提案も含める" +:+ LF +:+ LF +:+ "回答:"
  else if String.eqb queryType "analytical" then
      "あなたは人事データの分析専門家です。以下の人物情報を基に、ユーザーの分析的な質問に回答してください。" +:+ LF +:+ LF +:+ "人物情報:"
      +:+ LF +:+ personSummary +:+ LF +:+ LF +:+ "ユーザーの質問: " +:+ query +:+ LF +:+ LF
      +:+ "分析のポイント:" +:+ LF +:+ "- データに基づいた客観的な分析" +:+ LF +:+ "- 数値や統計を活用" +:+ LF
      +:+ "- 傾向や特徴を指摘" +:+ LF +:+ "- 実用的な洞察を提供" +:+ LF +:+ "- 比較やランキングがある場合は明確に示す"
      +:+ LF +:+ "- 分析結果の意味や影響も説明" +:+ LF +:+ LF +:+ "回答:"
  else if String.eqb queryType "fuzzy_search" then
      "あなたは人物検索の専門家です。以下の人物情報から、ユーザーの曖昧な検索要求に最も適した人物を推薦してください。" +:+ LF +:+ LF
      +:+ "人物情報:" +:+ LF +:+ personSummary +:+ LF +:+ LF +:+ "ユーザーの検索: " +:+ query
      +:+ LF +:+ LF +:+ "推薦のポイント:" +:+ LF +:+ "- 検索意図を推測して最適な人物を選択" +:+ LF
      +:+ "- 選択理由を明確に説明" +:+ LF +:+ "- 複数の候補がある場合は比較して推薦" +:+ LF +:+ "- 親しみやすい口調で回答"
      +:+ LF +:+ "- ユーザーのニーズに合わせた提案" +:+ LF +:+ "- 必要に応じて代替案も提示" +:+ LF +:+ LF
      +:+ "回答:"
  else if String.eqb queryType "exact_search" then
      "あなたは人物検索の専門家です。以下の人物情報から、ユーザーの具体的な検索要求に最も適した人物を見つけてください。" +:+ LF +:+ LF
      +:+ "人物情報:" +:+ LF +:+ personSummary +:+ LF +:+ LF +:+ "ユーザーの検索: " +:+ query
      +:+ LF +:+ LF +:+ "検索のポイント:" +:+ LF +:+ "- 具体的なキーワードに基づく検索" +:+ LF
      +:+ "- 完全一致を優先" +:+ LF +:+ "- 部分一致も考慮" +:+ LF +:+ "- 関連性の高い順に表示" +:+ LF
      +:+ "- 検索結果がない場合は類似する候補を提案" +:+ LF +:+ "- 検索条件を明確に説明" +:+ LF +:+ LF +:+ "回答:"
  else
      "以下の人物情報を参考に、ユーザーの質問に自然で分かりやすく答えてください。" +:+ LF +:+ LF +:+ "人物情報:" +:+ LF
      +:+ personSummary +:+ LF +:+ LF +:+ "ユーザーの質問: " +:+ query +:+ LF +:+ LF
      +:+ "回答のポイント:" +:+ LF +:+ "- データに基づいた具体的な情報を提供" +:+ LF +:+ "- 自然で親しみやすい口調で回答"
      +:+ LF +:+ "- ユーザーの意図を理解して適切な情報を提供" +:+ LF +:+ "- 必要に応じて分析や洞察を加える" +:+ LF +:+ LF
      +:+ "回答:".

(** The entries of [deptStats] and [skillStats] in [createPersonSummary],
    with their fields [name], [count], [avgExperience] and [skills], then
    [name], [count] and [departments]. *)
Record DeptStat := {
  ds_name : string;
  ds_count : nat;
  ds_avgExperience : float;
  ds_skills : list string
}.

Record SkillStat := {
  ss_name : string;
  ss_count : nat;
  ss_departments : list string
}.

(** [years.reduce((sum, y) => sum + y, 0) / years.length], and
    [Math.round(x * 10) / 10]. *)
Definition averageOf (years : list nat) : float :=
  PrimFloat.div (JsNumber.ofNat (fold_left Nat.add years 0%nat))
                (JsNumber.ofNat (length years)).
Definition roundToTenth (x : float) : float :=
  PrimFloat.div (JsNumber.Math_round (PrimFloat.mul x 10)) 10.

(** The comparator [(a, b) => b.count - a.count]. *)
Definition bySkillCount (a b : SkillStat) : bool := (ss_count a <? ss_count b)%nat.

Section Gemini.

(** The key of the environment, the answer of the model to a prompt, which
    may fail, and how a [number] is written: by a template literal, and by
    [toFixed(2)]. *)
Variable apiKey : option string.
Variable generateContent : string -> string -> outcome string.
Variable numberToString : float -> string.
Variable toFixed2 : float -> string.

(** Whatever is thrown inside [generateResponse] is caught there. *)
Definition generateResponse (prompt : string) : string :=
  if negb (isGeminiAvailable apiKey) then responseError
  else
    match getGeminiAPI apiKey with
    | Throw _ => responseError
    | Return genAI =>
        match generateContent genAI prompt with
        | Return text => trim text
        | Throw _ => responseError
        end
    end.

Definition deptLine (dept : DeptStat) : string :=
  ds_name dept +:+ ": " +:+ JsString.ofNat (ds_count dept) +:+ "人 (平均経験"
  +:+ numberToString (ds_avgExperience dept) +:+ "年)" +:+ LF +:+ "  主なスキル: "
  +:+ join ", " (ds_skills dept).

Definition skillLine (skill : SkillStat) : string :=
  ss_name skill +:+ ": " +:+ JsString.ofNat (ss_count skill) +:+ "人が保有 (部署: "
  +:+ join ", " (ss_departments skill) +:+ ")".

Definition personBlock (p : PersonInfo) : string :=
  name p +:+ " (" +:+ department p +:+ ")" +:+ LF +:+ "  スキル: "
  +:+ join ", " (skills p) +:+ LF +:+ "  資格: " +:+ join ", " (qualifications p) +:+ LF
  +:+ "  経験: " +:+ experience p +:+ " (" +:+ JsString.ofNat (yearsOfExperience p)
  +:+ "年)" +:+ LF +:+ "  自己PR: " +:+ selfPR p.

Definition createPersonSummary (persons : list PersonInfo) : string :=
  let departments := unique (map department persons) in
  let allSkills := flat_map skills persons in
  let uniqueSkills := unique allSkills in
  let allQualifications := flat_map qualifications persons in
  let uniqueQualifications := unique allQualifications in
  let avgExperience := averageOf (map yearsOfExperience persons) in
  let maxExperience :=
    JsNumber.Math_max_list (map JsNumber.ofNat (map yearsOfExperience persons)) in
  let minExperience :=
    JsNumber.Math_min_list (map JsNumber.ofNat (map yearsOfExperience persons)) in
  let deptStats :=
    map (fun dept =>
           let deptPersons :=
             List.filter (fun p => String.eqb (department p) dept) persons in
           let avgExp := averageOf (map yearsOfExperience deptPersons) in
           let deptSkills := unique (flat_map skills deptPersons) in
           {| ds_name := dept;
              ds_count := length deptPersons;
              ds_avgExperience := roundToTenth avgExp;
              ds_skills := firstn 5 deptSkills |})
        departments in
  let skillStats :=
    firstn 10
      (stableSort bySkillCount
         (map (fun skill =>
                 let skillPersons :=
                   List.filter (fun p => existsb (String.eqb skill) (skills p)) persons in
                 {| ss_name := skill;
                    ss_count := length skillPersons;
                    ss_departments := unique (map department skillPersons) |})
              uniqueSkills)) in
  trim
    (LF +:+ "【組織概要】" +:+ LF +:+ "総人数: " +:+ JsString.ofNat (length persons) +:+ "人"
    +:+ LF +:+ "部署数: " +:+ JsString.ofNat (length departments) +:+ "部署" +:+ LF
    +:+ "平均経験年数: " +:+ numberToString (roundToTenth avgExperience) +:+ "年" +:+ LF
    +:+ "最高経験年数: " +:+ numberToString maxExperience +:+ "年" +:+ LF +:+ "最低経験年数: "
    +:+ numberToString minExperience +:+ "年" +:+ LF +:+ LF +:+ "【部署別情報】" +:+ LF
    +:+ join LF (map deptLine deptStats) +:+ LF +:+ LF +:+ "【主要スキル】" +:+ LF
    +:+ join LF (map skillLine skillStats) +:+ LF +:+ LF +:+ "【保有資格】" +:+ LF
    +:+ join ", " uniqueQualifications +:+ LF +:+ LF +:+ "【詳細人物情報】" +:+ LF
    +:+ join (LF +:+ LF) (map personBlock persons) +:+ LF +:+ "  ").

(** Nothing throws inside [generateIntelligentResponse]. *)
Definition generateIntelligentResponse (query : string) (persons : list PersonInfo)
    (queryType : string) : string :=
  let personSummary := createPersonSummary persons in
  let prompt := generatePromptByType query personSummary queryType in
  generateResponse prompt.

Definition initializeSearchEngine (engine : Engine) (persons : list PersonInfo) : Engine :=
  initialize engine persons.

(** [searchPersonsWithGemini], with the engine of the module before and
    after the call. *)
Definition searchPersonsWithGemini (engine : Engine) (query : string)
    (persons : list PersonInfo) : string * Engine :=
  if (length persons =? 0)%nat then (noPersons, engine)
  else if String.eqb query "" || String.eqb (trim query) "" then (noQuery, engine)
  else
    let engine := initializeSearchEngine engine persons in
    match search numberToString engine query with
    | Throw _ => (searchError, engine)
    | Return searchResult =>
        if shouldUseGemini searchResult then
          (generateIntelligentResponse query persons
             (queryTypeName (queryType searchResult)), engine)
        else
          (formatResults (results searchResult) (aggregation searchResult), engine)
    end.





End Gemini.

(** The lines of a person in the summary that is sent to Gemini, up to the
    years of experience. *)
Definition personRecord (p : PersonInfo) : string :=
  name p +:+ " (" +:+ department p +:+ ")" +:+ LF
  +:+ "  スキル: " +:+ join ", " (skills p) +:+ LF
  +:+ "  資格: " +:+ join ", " (qualifications p) +:+ LF
  +:+ "  経験: " +:+ experience p +:+ " (" +:+ JsString.ofNat (yearsOfExperience p) +:+ "年)".

(** The first line of a result in the listing of [formatResults]. *)
Definition resultHeading (index : nat) (r : AdvancedSearchResult) : string :=
  JsString.ofNat (index + 1) +:+ ". " +:+ name (person r).


(** The results whose relevance is [v]. *)
Definition withRelevance (v : float) (rs : list AdvancedSearchResult)
    : list AdvancedSearchResult :=
  List.filter (fun r => PrimFloat.eqb (relevance r) v) rs.

(** What [detectAggregationQuery] answers for a skill keyword. *)
Definition skillAnswer (e : Engine) (q skill : string) : outcome SearchOutput :=
  let n := countWhere
             (fun p => existsb (fun s => includes (toLowerCase s) skill) (skills p))
             (persons e) in
  Return (aggregationOutput q
            {| type := count;
               value := VNumber n;
               description := skill +:+ "スキルを持つ人は" +:+ JsString.ofNat n +:+ "人です。";
               details := Some (SkillCount skill n (length (persons e))) |}).

(** The skills of the store are plain keys. *)
Definition plainSkills (e : Engine) : Prop :=
  Forall (fun p => Forall (fun s => plainKey s = true) (skills p)) (persons e).

(** How often a skill is listed in the store. *)
Definition occurrences (ps : list PersonInfo) (skill : string) : nat :=
  countWhere (String.eqb skill) (flat_map skills ps).

(** The body of the inner [forEach] of [analyzeSkills], for a skill of a
    person of the department [dept]. *)
Definition countSkill (dept : string)
    : list (string * nat) * list (string * list string) -> string ->
      list (string * nat) * list (string * list string) :=
  fun '(counts, departments) skill =>
    let '(counts, departments) :=
      match entryGet counts skill with
      | None | Some O => (entrySet counts skill 0%nat, entrySet departments skill [])
      | Some _ => (counts, departments)
      end in
    let depts := default [] (entryGet departments skill) in
    (entrySet counts skill (default 0%nat (entryGet counts skill) + 1),
     if existsb (String.eqb dept) depts then departments
     else entrySet departments skill (depts ++ [dept])).

(** The skills listed so far, each with the department of the person. *)
Definition listed (ps : list PersonInfo) : list (string * string) :=
  flat_map (fun p => map (fun skill => (department p, skill)) (skills p)) ps.

(** The two tables of [analyzeSkills] for the listed skills [l]. *)
Definition skillsTallied (l : list (string * string))
    (acc : list (string * nat) * list (string * list string)) : Prop :=
  (forall s, entryGet (fst acc) s
             = let n := countWhere (fun ds => String.eqb (snd ds) s) l in
               if (n =? 0)%nat then None else Some n)
  /\ (forall s, entryGet (snd acc) s
                = if (countWhere (fun ds => String.eqb (snd ds) s) l =? 0)%nat then None
                  else Some (unique (map fst
                               (List.filter (fun ds => String.eqb (snd ds) s) l))))
  /\ list_sum (map snd (fst acc)) = length l.

(** A store of two developers, one of whom lists Go twice. *)
Definition gophers : Engine :=
  initialize newEngine
    [ {| name := "A"; department := "開発部"; skills := ["Go"; "Go"]; qualifications := [];
         selfPR := ""; experience := ""; yearsOfExperience := 1 |};
      {| name := "B"; department := "開発部"; skills := ["Go"]; qualifications := [];
         selfPR := ""; experience := ""; yearsOfExperience := 2 |} ].


(** * Properties *)

(** ** Strings *)

Section StringFacts.

Lemma startsWith_toLowerCase (s p : string) :
  startsWith s p = true ->
  startsWith (toLowerCase s) (toLowerCase p) = true.
Proof.
  revert s; induction p as [|a p IH]; intros [|b s]; simpl; try easy.
  intros [Hab Hp]%andb_true_iff. apply Ascii.eqb_eq in Hab as ->.
  rewrite Ascii.eqb_refl. simpl. auto.
Qed.

(** Lower-casing both sides keeps an occurrence. *)
Lemma includes_toLowerCase (s sub : string) :
  includes s sub = true ->
  includes (toLowerCase s) (toLowerCase sub) = true.
Proof.
  induction s as [|c s IH]; simpl.
  - rewrite orb_false_r. intros H. rewrite orb_false_r.
    now apply (startsWith_toLowerCase "" sub).
  - intros [H|H]%orb_true_iff; apply orb_true_iff.
    + left. now apply (startsWith_toLowerCase (String c s) sub).
    + right. auto.
Qed.


Lemma includesSome_intro (q k : string) (keywords : list string) :
  In k keywords -> includes q k = true -> includesSome q keywords = true.
Proof.
  intros Hin Hk. apply existsb_exists. now exists k.
Qed.

End StringFacts.

(** ** The classifier *)

Lemma exactKeywords_lower :
  forallb (fun k => String.eqb (toLowerCase k) k) exactKeywords = true.
Proof. reflexivity. Qed.

(** C3.  A query that contains an exact-search keyword is [exact_search],
    whatever conversational keyword it also contains and wherever the two
    stand in the string; in general the class is the first tier, in the order
    exact, conversational, analytical, general, that has a keyword in the
    lower-cased query, and [fuzzy_search] when none has. *)
Theorem analyzeQueryType_priority (q : string) :
  (forall ke kc,
      In ke exactKeywords -> In kc conversationalKeywords ->
      includes q ke = true -> includes q kc = true ->
      analyzeQueryType q = exact_search)
  /\ analyzeQueryType q =
     (if includesSome (toLowerCase q) exactKeywords then exact_search
      else if includesSome (toLowerCase q) conversationalKeywords then general_question
      else if includesSome (toLowerCase q) analyticalKeywords then analytical
      else if includesSome (toLowerCase q) generalKeywords then general_question
      else fuzzy_search).
Proof.
  split; [|reflexivity].
  intros ke kc Hke _ Hq _. unfold analyzeQueryType.
  assert (Hlow : toLowerCase ke = ke).
  { pose proof exactKeywords_lower as H.
    rewrite forallb_forall in H. now apply String.eqb_eq, H. }
  apply includes_toLowerCase in Hq. rewrite Hlow in Hq.
  now rewrite (includesSome_intro _ ke exactKeywords Hke Hq).
Qed.

Lemma analyzeQueryType_priority_witness :
  analyzeQueryType "おすすめのpythonエンジニア" = exact_search
  /\ analyzeQueryType "Pythonエンジニアのおすすめ" = exact_search.
Proof.
  split.
  - apply (proj1 (analyzeQueryType_priority "おすすめのpythonエンジニア") "python" "おすすめ");
      [now left | now left | reflexivity | reflexivity].
  - reflexivity.
Defined.

(** ** Rendering of results *)

(** C6.  With an aggregation, [formatResults] is its description, whatever
    the results; with none and no result, it is the fixed [noResults]. *)
Theorem formatResults_aggregation :
  (forall rs a, formatResults rs (Some a) = description a)
  /\ formatResults [] None = noResults
  /\ noResults = "検索条件に一致する結果が見つかりませんでした。".
Proof. repeat split. Qed.


(** ** The chunker *)

Lemma ofNat_inj (n m : nat) : JsString.ofNat n = JsString.ofNat m -> n = m.
Proof.
  unfold JsString.ofNat. intros H.
  apply (f_equal NilEmpty.uint_of_string) in H.
  rewrite !NilEmpty.usu in H. injection H as H.
  apply (f_equal Nat.of_uint) in H.
  now rewrite !DecimalNat.Unsigned.of_to in H.
Qed.

Lemma personIdOf_inj (i j : nat) : personIdOf i = personIdOf j -> i = j.
Proof.
  unfold personIdOf. intros H. apply ofNat_inj.
  simpl in H. now injection H.
Qed.

Lemma personIdOf_eqb (i j : nat) :
  String.eqb (personIdOf i) (personIdOf j) = Nat.eqb i j.
Proof.
  destruct (Nat.eqb_spec i j) as [->|Hne].
  - apply String.eqb_refl.
  - apply String.eqb_neq. intros H. now apply Hne, personIdOf_inj.
Qed.

Lemma personChunks_spec (i : nat) (p : PersonInfo) :
  Forall (fun c => personId c = personIdOf i /\ carries c p) (personChunks i p).
Proof.
  unfold personChunks, carries.
  destruct (0 <? length (skills p))%nat, (negb (String.eqb (experience p) "")),
    (0 <? length (qualifications p))%nat; simpl; repeat constructor.
Qed.

Lemma createChunksFrom_spec (ps : list PersonInfo) (k : nat) (c : Chunk) :
  In c (createChunksFrom k ps) ->
  exists i p, nth_error ps i = Some p /\ personId c = personIdOf (k + i) /\ carries c p.
Proof.
  revert k; induction ps as [|p ps IH]; intros k; cbn [createChunksFrom]; [easy|].
  intros [H|H]%in_app_or.
  - exists 0%nat, p. rewrite Nat.add_0_r. split; [reflexivity|].
    pose proof (personChunks_spec k p) as HF.
    rewrite List.Forall_forall in HF. now apply HF.
  - destruct (IH _ H) as (i & q & Hi & Hid & Hc).
    exists (S i), q. rewrite Nat.add_succ_r.
    split; [exact Hi | split; [exact Hid | exact Hc]].
Qed.

Lemma filter_all {A} (f : A -> bool) (l : list A) :
  Forall (fun x => f x = true) l -> List.filter f l = l.
Proof.
  induction 1 as [|x l Hx _ IH]; simpl; [easy|]. now rewrite Hx, IH.
Qed.

Lemma filter_none {A} (f : A -> bool) (l : list A) :
  Forall (fun x => f x = false) l -> List.filter f l = [].
Proof.
  induction 1 as [|x l Hx _ IH]; simpl; [easy|]. now rewrite Hx.
Qed.

Lemma chunksOf_createChunksFrom (ps : list PersonInfo) (k i : nat) (p : PersonInfo) :
  nth_error ps i = Some p ->
  List.filter (fun c => String.eqb (personId c) (personIdOf (k + i))) (createChunksFrom k ps)
  = personChunks (k + i) p.
Proof.
  revert k i; induction ps as [|q ps IH]; intros k [|i];
    cbn [createChunksFrom nth_error]; try easy.
  - intros [= ->]. rewrite Nat.add_0_r, List.filter_app.
    rewrite filter_all, filter_none; [apply app_nil_r| |].
    + apply List.Forall_forall. intros c Hc.
      destruct (createChunksFrom_spec _ _ _ Hc) as (j & _ & _ & -> & _).
      rewrite personIdOf_eqb. apply Nat.eqb_neq. lia.
    + eapply List.Forall_impl; [|apply personChunks_spec].
      intros c [-> _]. apply String.eqb_refl.
  - intros Hi. rewrite List.filter_app, filter_none.
    + rewrite <- Nat.add_succ_comm. now apply IH.
    + eapply List.Forall_impl; [|apply personChunks_spec].
      intros c [-> _]. rewrite personIdOf_eqb. apply Nat.eqb_neq. lia.
Qed.

(** The chunks that the scorer reads for the person at index [i] are the
    ones the chunker made from that person. *)
Lemma chunksOfPerson_initialize (e : Engine) (ps : list PersonInfo) (i : nat) (p : PersonInfo) :
  nth_error ps i = Some p ->
  chunksOfPerson (initialize e ps) i = personChunks i p.
Proof.
  intros Hi. apply (chunksOf_createChunksFrom ps 0 i p Hi).
Qed.

(** C10.  After [initialize], every chunk carries the name and the metadata
    of the person it was made from, and the chunks of a person are one basic
    chunk, then one skills, one experience and one qualifications chunk, each
    present exactly when the field is not empty: between one and four. *)
Theorem initialize_chunks (e : Engine) (ps : list PersonInfo) :
  persons (initialize e ps) = ps
  /\ (forall c, In c (chunks (initialize e ps)) ->
        exists i p, nth_error ps i = Some p
                    /\ personId c = personIdOf i /\ carries c p)
  /\ (forall i p, nth_error ps i = Some p ->
        let cs := chunksOfPerson (initialize e ps) i in
        Forall (fun c => carries c p) cs
        /\ countType basic cs = 1%nat
        /\ countType skills_chunk cs
           = match skills p with [] => 0%nat | _ :: _ => 1%nat end
        /\ countType experience_chunk cs
           = match experience p with EmptyString => 0%nat | String _ _ => 1%nat end
        /\ countType qualifications_chunk cs
           = match qualifications p with [] => 0%nat | _ :: _ => 1%nat end
        /\ length cs = (countType basic cs + countType skills_chunk cs
                        + countType experience_chunk cs
                        + countType qualifications_chunk cs)%nat
        /\ (1 <= length cs <= 4)%nat).
Proof.
  split; [reflexivity|]. split.
  - intros c Hc. apply (createChunksFrom_spec ps 0 c Hc).
  - intros i p Hi cs. subst cs. rewrite (chunksOfPerson_initialize e ps i p Hi).
    split.
    { eapply List.Forall_impl; [|apply personChunks_spec]. now intros c [_ H]. }
    unfold personChunks, countType, countWhere.
    destruct (skills p), (experience p), (qualifications p);
      simpl; repeat split; lia.
Qed.

(** ** Aggregation queries *)

Lemma search_aggregation nts (e : Engine) (q : string) (r : AggregationResult) :
  detectAggregationQuery e q = Some r ->
  search nts e q = Return (aggregationOutput q r).
Proof. unfold search. now intros ->. Qed.

(** The English question of the example is not an aggregation query: the
    patterns are the Japanese ones, so it goes to the scorer, where the two
    records of "Dev" match exactly. *)
Lemma detectAggregationQuery_english :
  detectAggregationQuery devStore "How many people are in Dev?" = None
  /\ analyzeQueryType "How many people are in Dev?" = fuzzy_search
  /\ map (fun r => (name (person r), relevance r))
         (performSearch devStore "How many people are in Dev?")
     = [("A", 1%float); ("B", 1%float)].
Proof. vm_compute. repeat split. Qed.

(** C7, amended.  A query that asks 何人 or 人数 and names 開発部 (or, failing
    that, インフラ, or, failing both, デザイン) is answered by [search] with the
    count of the persons whose department contains 開発 (resp. インフラ,
    デザイン), no result and no escalation; the description is the department,
    に所属している人は, the count in decimal and 人です。 *)
Theorem search_headcount nts (e : Engine) (q : string) :
  includes (toLowerCase q) "何人" || includes (toLowerCase q) "人数" = true ->
  let answer token dept :=
    let n := countWhere (fun p => includes (department p) token) (persons e) in
    Return (aggregationOutput q
              {| type := count;
                 value := VNumber n;
                 description := dept +:+ "に所属している人は" +:+ JsString.ofNat n +:+ "人です。";
                 details := Some (DepartmentCount dept n (length (persons e))) |}) in
  (includes (toLowerCase q) "開発部" = true ->
   search nts e q = answer "開発" "開発部")
  /\ (includes (toLowerCase q) "開発部" = false ->
      includes (toLowerCase q) "インフラ" = true ->
      search nts e q = answer "インフラ" "インフラ部")
  /\ (includes (toLowerCase q) "開発部" = false ->
      includes (toLowerCase q) "インフラ" = false ->
      includes (toLowerCase q) "デザイン" = true ->
      search nts e q = answer "デザイン" "デザイン部").
Proof.
  intros Hq answer. subst answer. cbv beta.
  repeat split; intros; apply search_aggregation;
    unfold detectAggregationQuery; rewrite Hq;
    repeat match goal with H : includes _ _ = _ |- _ => rewrite H; clear H end;
    reflexivity.
Qed.

(** Two records of 開発部 and one of デザイン部: 開発部は何人いますか？ is
    answered with the count 2 and a description that has 開発部 and 2. *)
Lemma search_headcount_witness :
  search (fun _ => "") kaihatsuStore "開発部は何人いますか？"
  = Return (aggregationOutput "開発部は何人いますか？"
              {| type := count;
                 value := VNumber 2;
                 description := "開発部に所属している人は2人です。";
                 details := Some (DepartmentCount "開発部" 2 3) |})
  /\ includes "開発部に所属している人は2人です。" "開発部" = true
  /\ includes "開発部に所属している人は2人です。" "2" = true.
Proof.
  split; [|split; reflexivity].
  exact (proj1 (search_headcount (fun _ => "") kaihatsuStore "開発部は何人いますか？"
                  eq_refl) eq_refl).
Defined.


(** ** Doubles *)

Ltac split_signs := repeat match goal with s : bool |- _ => destruct s end.

Section SpecFloatFacts.

Local Open Scope Z_scope.

Lemma SFcompare_antisym (x y : spec_float) :
  SFcompare y x = option_map CompOpp (SFcompare x y).
Proof.
  destruct x as [sx|sx| |sx mx ex], y as [sy|sy| |sy my ey]; split_signs; simpl;
    try reflexivity;
    rewrite (Z.compare_antisym ex ey); destruct (ex ?= ey); simpl; try reflexivity;
    rewrite !Pos.compare_cont_spec; simpl;
    rewrite (Pos.compare_antisym mx my); destruct (mx ?= my)%positive; reflexivity.
Qed.

Lemma SFcompare_some (x y : spec_float) :
  x <> S754_nan -> y <> S754_nan -> exists c, SFcompare x y = Some c.
Proof.
  destruct x as [sx|sx| |sx mx ex], y as [sy|sy| |sy my ey]; simpl; try easy; eauto.
Qed.

Lemma SFcompare_number (x y : spec_float) (c : comparison) :
  SFcompare x y = Some c -> x <> S754_nan /\ y <> S754_nan.
Proof.
  destruct x as [sx|sx| |sx mx ex], y as [sy|sy| |sy my ey]; simpl; easy.
Qed.

Lemma SFleb_trans (x y z : spec_float) :
  SFleb x y = true -> SFleb y z = true -> SFleb x z = true.
Proof.
  unfold SFleb.
  destruct x as [sx|sx| |sx mx ex], y as [sy|sy| |sy my ey], z as [sz|sz| |sz mz ez];
    split_signs; simpl; try easy;
    destruct (Z.compare_spec ex ey), (Z.compare_spec ey ez), (Z.compare_spec ex ez);
    simpl; try easy; try lia; subst;
    rewrite ?Pos.compare_cont_spec; simpl;
    destruct (Pos.compare_spec mx my), (Pos.compare_spec my mz), (Pos.compare_spec mx mz);
    simpl; try easy; try lia.
Qed.

(** Rounding a non-negative mantissa gives a non-negative double. *)
Lemma shr_1_nonneg (mrs : shr_record) : 0 <= shr_m mrs -> 0 <= shr_m (shr_1 mrs).
Proof.
  destruct mrs as [m r s]. simpl.
  destruct m as [|[p|p|]|[p|p|]]; simpl; lia.
Qed.

Lemma iter_shr_1_nonneg (p : positive) : forall mrs,
  0 <= shr_m mrs -> 0 <= shr_m (SpecFloat.iter_pos shr_1 p mrs).
Proof.
  induction p as [p IH|p IH|]; intros mrs H; simpl.
  - apply IH, IH. now apply shr_1_nonneg.
  - now apply IH, IH.
  - now apply shr_1_nonneg.
Qed.

Lemma shr_fexp_nonneg (prec emax m e : Z) (l : location) :
  0 <= m -> 0 <= shr_m (fst (shr_fexp prec emax m e l)).
Proof.
  intros H. unfold shr_fexp, shr.
  assert (H0 : 0 <= shr_m (shr_record_of_loc m l)).
  { destruct l as [|[]]; exact H. }
  destruct (fexp prec emax (Zdigits2 m + e) - e); simpl; auto.
  now apply iter_shr_1_nonneg.
Qed.

Lemma round_nearest_even_nonneg (m : Z) (l : location) :
  0 <= m -> 0 <= round_nearest_even m l.
Proof.
  intros H. destruct l as [|[]]; simpl; try lia. destruct (Z.even m); lia.
Qed.

Lemma binary_round_aux_nonneg (prec emax m e : Z) (l : location) :
  0 <= m -> SFnonneg (binary_round_aux prec emax false m e l).
Proof.
  intros H. unfold binary_round_aux.
  pose proof (shr_fexp_nonneg prec emax m e l H) as H1.
  destruct (shr_fexp prec emax m e l) as [mrs' e']. simpl in H1.
  pose proof (shr_fexp_nonneg prec emax _ e' loc_Exact
                (round_nearest_even_nonneg _ (loc_of_shr_record mrs') H1)) as H2.
  destruct (shr_fexp prec emax _ e' loc_Exact) as [mrs'' e'']. simpl in H2.
  destruct (shr_m mrs'') as [|p|p]; simpl; [easy| |lia].
  now destruct (e'' <=? emax - prec).
Qed.

Lemma binary_normalize_nonneg (prec emax m e : Z) :
  0 <= m -> SFnonneg (binary_normalize prec emax m e false).
Proof.
  intros H. destruct m as [|p|p]; simpl; [easy| |lia].
  unfold binary_round. destruct (shl_align _ _ _) as [mz ez].
  now apply binary_round_aux_nonneg.
Qed.

Lemma SFmul_nonneg (prec emax : Z) (x : spec_float) (m : positive) (e : Z) :
  SFnonneg x -> SFnonneg (SFmul prec emax x (S754_finite false m e)).
Proof.
  destruct x as [s|s| |s mx ex]; simpl; try easy.
  - intros ->. reflexivity.
  - intros ->. simpl. now apply binary_round_aux_nonneg.
Qed.

Lemma SFadd_nonneg (prec emax : Z) (x y : spec_float) :
  SFnonneg x -> SFnonneg y -> SFnonneg (SFadd prec emax x y).
Proof.
  destruct x as [sx|sx| |sx mx ex], y as [sy|sy| |sy my ey];
    intros Hx Hy; simpl in Hx, Hy; try contradiction; subst;
    try (split_signs; now simpl).
  unfold SFadd, cond_Zopp. apply binary_normalize_nonneg. lia.
Qed.

(** The sign of a rounded number.  A mantissa of [d] binary digits lies
    between [2 ^ (d - 1)] and [2 ^ d]. *)
Lemma digits2_pos_bounds (m : positive) :
  2 ^ (Zpos (digits2_pos m) - 1) <= Zpos m < 2 ^ Zpos (digits2_pos m).
Proof.
  induction m as [m IH|m IH|]; simpl digits2_pos.
  - rewrite Pos2Z.inj_succ. replace (Z.succ (Zpos (digits2_pos m)) - 1) with (Zpos (digits2_pos m)) by lia.
    rewrite Z.pow_succ_r by lia.
    assert (H : 2 ^ Zpos (digits2_pos m) = 2 * 2 ^ (Zpos (digits2_pos m) - 1)).
    { rewrite <- Z.pow_succ_r by lia. f_equal. lia. }
    lia.
  - rewrite Pos2Z.inj_succ. replace (Z.succ (Zpos (digits2_pos m)) - 1) with (Zpos (digits2_pos m)) by lia.
    rewrite Z.pow_succ_r by lia.
    assert (H : 2 ^ Zpos (digits2_pos m) = 2 * 2 ^ (Zpos (digits2_pos m) - 1)).
    { rewrite <- Z.pow_succ_r by lia. f_equal. lia. }
    lia.
  - simpl. lia.
Qed.

(** Shifting right by one halves the mantissa. *)
Lemma shr_1_div (mrs : shr_record) :
  0 <= shr_m mrs -> shr_m (shr_1 mrs) = shr_m mrs / 2.
Proof.
  destruct mrs as [m r s]. simpl. intros H.
  destruct m as [|[p|p|]|p]; simpl; try reflexivity; try lia.
  - rewrite Pos2Z.inj_xI. apply Z.div_unique with 1; lia.
  - rewrite Pos2Z.inj_xO. apply Z.div_unique with 0; lia.
Qed.

Lemma pow2_xO (p : positive) : 2 ^ Zpos p~0 = 2 ^ Zpos p * 2 ^ Zpos p.
Proof.
  replace (Zpos p~0) with (Zpos p + Zpos p) by lia. now rewrite Z.pow_add_r by lia.
Qed.

Lemma pow2_xI (p : positive) : 2 ^ Zpos p~1 = 2 * 2 ^ Zpos p * 2 ^ Zpos p.
Proof.
  replace (Zpos p~1) with (1 + (Zpos p + Zpos p)) by lia.
  rewrite !Z.pow_add_r by lia. change (2 ^ 1) with 2. ring.
Qed.

Lemma iter_shr_1_div (p : positive) : forall mrs,
  0 <= shr_m mrs ->
  0 <= shr_m (SpecFloat.iter_pos shr_1 p mrs)
  /\ shr_m (SpecFloat.iter_pos shr_1 p mrs) = shr_m mrs / 2 ^ Zpos p.
Proof.
  induction p as [p IH|p IH|]; intros mrs H; simpl SpecFloat.iter_pos.
  - pose proof (shr_1_nonneg mrs H) as H1.
    destruct (IH _ H1) as [H2 E2]. destruct (IH _ H2) as [H3 E3].
    split; [assumption|]. rewrite E3, E2, shr_1_div by assumption.
    assert (0 < 2 ^ Zpos p) by (apply Z.pow_pos_nonneg; lia).
    rewrite pow2_xI, !Z.div_div by lia. f_equal. ring.
  - destruct (IH _ H) as [H2 E2]. destruct (IH _ H2) as [H3 E3].
    split; [assumption|]. rewrite E3, E2.
    assert (0 < 2 ^ Zpos p) by (apply Z.pow_pos_nonneg; lia).
    rewrite pow2_xO, !Z.div_div by lia. f_equal.
  - split; [now apply shr_1_nonneg|]. rewrite shr_1_div by assumption. reflexivity.
Qed.

Lemma iter_xO (m d : positive) : Zpos (Pos.iter xO m d) = Zpos m * 2 ^ Zpos d.
Proof.
  revert m. induction d as [|d IH] using Pos.peano_ind; intros m.
  - simpl. lia.
  - rewrite Pos.iter_succ, Pos2Z.inj_xO, IH, Pos2Z.inj_succ, Z.pow_succ_r by lia. ring.
Qed.

Lemma shl_align_value (m : positive) (e e' : Z) :
  e' <= e -> Zpos (fst (shl_align m e e')) = Zpos m * 2 ^ (e - e').
Proof.
  intros H. unfold shl_align. destruct (e' - e) as [|d|d] eqn:E; simpl fst.
  - replace (e - e') with 0 by lia. simpl. lia.
  - lia.
  - rewrite iter_xO. f_equal. f_equal. lia.
Qed.

Section SignOfDifference.

Variables prec emax : Z.
Hypothesis prec_pos : 0 < prec.

Abbreviation emin := (SpecFloat.emin prec emax).
Abbreviation fexp := (SpecFloat.fexp prec emax).

(** Rounding never takes a non-zero mantissa to zero when the exponent is
    at least the least one, so a rounded number keeps the sign of the exact
    one. *)
Lemma shr_fexp_pos (m e : Z) (l : location) :
  0 < m -> emin <= e ->
  0 < shr_m (fst (shr_fexp prec emax m e l)) /\ emin <= snd (shr_fexp prec emax m e l).
Proof.
  intros Hm He. unfold shr_fexp, shr.
  assert (H0 : shr_m (shr_record_of_loc m l) = m) by (destruct l as [|[]]; reflexivity).
  destruct m as [|mp|mp]; try lia. simpl Zdigits2.
  pose proof (digits2_pos_bounds mp) as [Hlow _].
  set (d := Zpos (digits2_pos mp)) in *.
  unfold SpecFloat.fexp.
  destruct (Z.max (d + e - prec) emin - e) as [|n|n] eqn:En; simpl fst; simpl snd;
    try (rewrite H0; lia).
  assert (Hn : Zpos n = d - prec) by lia.
  destruct (iter_shr_1_div n (shr_record_of_loc (Zpos mp) l)) as [_ E]; [rewrite H0; lia|].
  rewrite E, H0. split; [|lia].
  apply Z.div_str_pos. split; [apply Z.pow_pos_nonneg; lia|].
  transitivity (2 ^ (d - 1)); [|assumption].
  apply Z.pow_le_mono_r; lia.
Qed.

Lemma round_nearest_even_pos (m : Z) (l : location) : 0 < m -> 0 < round_nearest_even m l.
Proof.
  intros H. destruct l as [|[]]; simpl; try lia. destruct (Z.even m); lia.
Qed.

Lemma binary_round_aux_sign (s : bool) (m e : Z) (l : location) :
  0 < m -> emin <= e ->
  match binary_round_aux prec emax s m e l with
  | S754_finite s' _ _ | S754_infinity s' => s' = s
  | _ => False
  end.
Proof.
  intros Hm He. unfold binary_round_aux.
  destruct (shr_fexp_pos m e l Hm He) as [H1 H1e].
  destruct (shr_fexp prec emax m e l) as [mrs' e']. simpl in H1, H1e.
  pose proof (round_nearest_even_pos _ (loc_of_shr_record mrs') H1) as H2.
  destruct (shr_fexp_pos _ e' loc_Exact H2 H1e) as [H3 _].
  destruct (shr_fexp prec emax _ e' loc_Exact) as [mrs'' e'']. simpl in H3.
  destruct (shr_m mrs'') as [|p|p]; try lia.
  now destruct (e'' <=? emax - prec).
Qed.

Lemma binary_normalize_sign (m e : Z) :
  emin <= e -> m <> 0 ->
  match binary_normalize prec emax m e false with
  | S754_finite s' _ _ | S754_infinity s' => s' = (m <? 0)
  | _ => False
  end.
Proof.
  intros He Hm. destruct m as [|p|p]; [lia| |]; simpl binary_normalize;
    unfold binary_round;
    destruct (shl_align p e (fexp (Zpos (digits2_pos p) + e))) as [mz ez] eqn:E;
    (assert (Hez : emin <= ez);
     [ unfold shl_align in E;
       destruct (fexp (Zpos (digits2_pos p) + e) - e) eqn:E2; injection E as <- <-;
       unfold SpecFloat.fexp in *; lia
     | apply binary_round_aux_sign; [lia|assumption] ]).
Qed.

Lemma bounded_facts (m : positive) (e : Z) :
  bounded prec emax m e = true ->
  emin <= e /\ Zpos m < 2 ^ prec
  /\ (emin < e -> 2 ^ (prec - 1) <= Zpos m).
Proof.
  unfold bounded, canonical_mantissa, SpecFloat.fexp.
  intros [H%Z.eqb_eq _]%andb_true_iff.
  pose proof (digits2_pos_bounds m) as [Hlow Hhigh].
  set (d := Zpos (digits2_pos m)) in *.
  split; [lia|]. split.
  - eapply Z.lt_le_trans; [exact Hhigh|]. apply Z.pow_le_mono_r; lia.
  - intros He. replace (prec - 1) with (d - 1) by lia. exact Hlow.
Qed.

(** The aligned mantissas of two valid positive doubles compare as the
    doubles do. *)
Lemma aligned_compare (mx my : positive) (ex ey : Z) :
  bounded prec emax mx ex = true -> bounded prec emax my ey = true ->
  let ez := Z.min ex ey in
  (Zpos (fst (shl_align mx ex ez)) ?= Zpos (fst (shl_align my ey ez)))
  = match ex ?= ey with
    | Lt => Lt
    | Gt => Gt
    | Eq => Pos.compare_cont Eq mx my
    end.
Proof.
  intros (Hex & Hxh & Hxl)%bounded_facts (Hey & Hyh & Hyl)%bounded_facts ez. subst ez.
  rewrite !shl_align_value by lia.
  destruct (Z.compare_spec ex ey) as [->|Hlt|Hgt].
  - rewrite Z.min_id, Z.sub_diag, !Z.mul_1_r. reflexivity.
  - rewrite Z.min_l, Z.sub_diag, Z.mul_1_r by lia. apply Z.compare_lt_iff.
    specialize (Hyl ltac:(lia)).
    assert (H2 : 2 ^ 1 <= 2 ^ (ey - ex)) by (apply Z.pow_le_mono_r; lia).
    assert (Hp : 2 ^ prec = 2 ^ (prec - 1) * 2).
    { replace prec with (prec - 1 + 1) at 1 by lia. now rewrite Z.pow_add_r by lia. }
    change (2 ^ 1) with 2 in H2. nia.
  - rewrite Z.min_r, Z.sub_diag, Z.mul_1_r by lia. apply Z.compare_gt_iff.
    specialize (Hxl ltac:(lia)).
    assert (H2 : 2 ^ 1 <= 2 ^ (ex - ey)) by (apply Z.pow_le_mono_r; lia).
    assert (Hp : 2 ^ prec = 2 ^ (prec - 1) * 2).
    { replace prec with (prec - 1 + 1) at 1 by lia. now rewrite Z.pow_add_r by lia. }
    change (2 ^ 1) with 2 in H2. nia.
Qed.

(** The sign of a difference is the comparison of its operands. *)
Lemma SFsub_sign (x y : spec_float) :
  SpecFloat.valid_binary prec emax x = true -> SpecFloat.valid_binary prec emax y = true ->
  x <> S754_nan -> y <> S754_nan ->
  SFltb (S754_zero false) (SFsub prec emax y x) = SFltb x y.
Proof.
  intros Vx Vy Nx Ny.
  destruct x as [sx|sx| |sx mx ex], y as [sy|sy| |sy my ey];
    try contradiction; try (split_signs; reflexivity).
  simpl in Vx, Vy. unfold SFsub.
  pose proof (aligned_compare mx my ex ey Vx Vy) as Hc. cbv zeta in Hc.
  destruct (bounded_facts _ _ Vx) as (Hex & _). destruct (bounded_facts _ _ Vy) as (Hey & _).
  set (ez := Z.min ey ex) in *. rewrite (Z.min_comm ex ey) in Hc. fold ez in Hc.
  set (X := Zpos (fst (shl_align mx ex ez))) in *.
  set (Y := Zpos (fst (shl_align my ey ez))) in *.
  assert (HX : 0 < X) by (unfold X; lia). assert (HY : 0 < Y) by (unfold Y; lia).
  set (D := cond_Zopp sy Y - cond_Zopp sx X).
  assert (Hez : emin <= ez) by (unfold ez; lia).
  destruct (Z.eq_dec D 0) as [HD|HD].
  - rewrite HD. simpl binary_normalize.
    unfold D in HD. unfold SFltb, SFcompare.
    destruct sx, sy; cbn [cond_Zopp] in HD; try lia;
      assert (E : (X ?= Y) = Eq) by (apply Z.compare_eq_iff; lia);
      rewrite Hc in E; destruct (ex ?= ey); try discriminate; now rewrite E.
  - pose proof (binary_normalize_sign D ez Hez HD) as Hs.
    destruct (binary_normalize prec emax D ez false) as [s|s| |s m e]; try contradiction;
      subst s; unfold SFltb; simpl SFcompare;
      unfold D in *; destruct sx, sy; cbn [cond_Zopp] in *;
      destruct (Z.ltb_spec (Y - X) 0), (Z.ltb_spec (- Y - - X) 0),
        (Z.ltb_spec (Y - - X) 0), (Z.ltb_spec (- Y - X) 0); try lia; try reflexivity;
      try (assert (E : (X ?= Y) = Lt) by (apply Z.compare_lt_iff; lia));
      try (assert (E : (X ?= Y) = Gt) by (apply Z.compare_gt_iff; lia));
      rewrite Hc in E; destruct (ex ?= ey); try discriminate; try reflexivity;
      rewrite E; reflexivity.
Qed.

End SignOfDifference.

End SpecFloatFacts.

Section FloatFacts.

Lemma nonneg_isNumber (x : float) : nonneg x -> isNumber x.
Proof. unfold nonneg, isNumber. now destruct (Prim2SF x). Qed.

Lemma ofNat_nonneg (n : nat) : nonneg (JsNumber.ofNat n).
Proof.
  unfold nonneg, JsNumber.ofNat. rewrite of_uint63_spec.
  apply binary_normalize_nonneg. apply Uint63.to_Z_bounded.
Qed.

Lemma mul_nonneg (x c : float) (m : positive) (e : Z) :
  Prim2SF c = S754_finite false m e -> nonneg x -> nonneg (x * c)%float.
Proof.
  unfold nonneg. intros Hc Hx. rewrite mul_spec, Hc. now apply SFmul_nonneg.
Qed.

Lemma add_nonneg (x y : float) : nonneg x -> nonneg y -> nonneg (x + y)%float.
Proof.
  unfold nonneg. intros Hx Hy. rewrite add_spec. now apply SFadd_nonneg.
Qed.

Lemma ltb_isNumber (a b : float) :
  PrimFloat.ltb a b = true -> isNumber a /\ isNumber b.
Proof.
  rewrite ltb_spec. unfold SFltb, isNumber.
  destruct (SFcompare (Prim2SF a) (Prim2SF b)) as [c|] eqn:E; [|easy].
  intros _. now apply (SFcompare_number _ _ c).
Qed.

Lemma ltb_leb (a b : float) : PrimFloat.ltb a b = true -> PrimFloat.leb a b = true.
Proof.
  rewrite ltb_spec, leb_spec. unfold SFltb, SFleb.
  now destruct (SFcompare (Prim2SF a) (Prim2SF b)) as [[]|].
Qed.

(** On numbers the order is total. *)
Lemma not_ltb_leb (a b : float) :
  isNumber a -> isNumber b ->
  PrimFloat.ltb a b = false -> PrimFloat.leb b a = true.
Proof.
  unfold isNumber. intros Ha Hb. rewrite ltb_spec, leb_spec. unfold SFltb, SFleb.
  rewrite (SFcompare_antisym (Prim2SF a) (Prim2SF b)).
  destruct (SFcompare_some _ _ Ha Hb) as [c ->]. now destruct c.
Qed.

(** A difference of numbers is positive exactly when the first is the
    greater. *)
Lemma gt_sub (x y : float) :
  isNumber x -> isNumber y ->
  JsNumber.gt (PrimFloat.sub y x) 0 = JsNumber.gt y x.
Proof.
  unfold isNumber, JsNumber.gt. intros Hx Hy. rewrite !ltb_spec, sub_spec.
  change (Prim2SF 0) with (S754_zero false).
  apply SFsub_sign; auto using Prim2SF_valid. reflexivity.
Qed.

Lemma leb_trans (a b c : float) :
  PrimFloat.leb a b = true -> PrimFloat.leb b c = true -> PrimFloat.leb a c = true.
Proof. rewrite !leb_spec. apply SFleb_trans. Qed.

End FloatFacts.

(** ** Sorting *)

Section Sorting.

Context {A : Type} (after : A -> A -> bool).

Lemma insertSorted_In (x y : A) (l : list A) :
  In x (insertSorted after y l) <-> x = y \/ In x l.
Proof.
  induction l as [|z l IH]; simpl; [intuition|].
  destruct (after y z); simpl; rewrite ?IH; intuition.
Qed.

Lemma stableSort_In (x : A) (l : list A) : In x (stableSort after l) <-> In x l.
Proof.
  induction l as [|y l IH]; simpl; [easy|].
  rewrite insertSorted_In, IH. intuition.
Qed.

Lemma insertSorted_length (x : A) (l : list A) :
  length (insertSorted after x l) = S (length l).
Proof.
  induction l as [|z l IH]; simpl; [easy|].
  destruct (after x z); simpl; now rewrite ?IH.
Qed.

Lemma stableSort_length (l : list A) : length (stableSort after l) = length l.
Proof.
  induction l as [|y l IH]; simpl; [easy|]. now rewrite insertSorted_length, IH.
Qed.

(** The sort puts a list in the order [R] when, on the members [P] of the
    list, the comparator agrees with [R]. *)
Context (R : A -> A -> Prop) (P : A -> Prop).
Hypothesis after_true : forall x y, P x -> P y -> after x y = true -> R y x.
Hypothesis after_false : forall x y, P x -> P y -> after x y = false -> R x y.

Lemma insertSorted_Sorted (x : A) (l : list A) :
  P x -> Forall P l -> Sorted R l -> Sorted R (insertSorted after x l).
Proof.
  intros Hx HP HS. induction l as [|y l IH]; simpl.
  - repeat constructor.
  - inversion HP as [|? ? Hy HP']; subst.
    inversion HS as [|? ? HS' Hhd]; subst.
    destruct (after x y) eqn:E.
    + constructor; [now apply IH|].
      destruct l as [|z l]; simpl.
      * constructor. now apply after_true.
      * destruct (after x z); constructor;
          [now inversion Hhd | now apply after_true].
    + constructor; [assumption|]. constructor. now apply after_false.
Qed.

Lemma stableSort_Sorted (l : list A) : Forall P l -> Sorted R (stableSort after l).
Proof.
  induction 1 as [|x l Hx HP IH]; simpl; [constructor|].
  apply insertSorted_Sorted; [assumption| |assumption].
  apply List.Forall_forall. intros y Hy. apply (proj1 (stableSort_In y l)) in Hy.
  rewrite List.Forall_forall in HP. now apply HP.
Qed.

End Sorting.

Lemma firstn_In {A} (x : A) (n : nat) (l : list A) : In x (firstn n l) -> In x l.
Proof.
  revert l; induction n as [|n IH]; intros [|y l]; simpl; try easy.
  intros [->|H]; auto.
Qed.


Lemma descending_trans : Relations_1.Transitive descending.
Proof.
  intros a b c Hab Hbc. unfold descending in *. eapply leb_trans; eauto.
Qed.

(** Sorting by relevance ranks any list of results whose relevances are
    numbers. *)
Lemma byRelevance_sorted (l : list AdvancedSearchResult) :
  Forall (fun r => isNumber (relevance r)) l ->
  StronglySorted descending (stableSort byRelevance l).
Proof.
  intros H. apply Sorted_StronglySorted; [exact descending_trans|].
  apply (stableSort_Sorted byRelevance descending (fun r => isNumber (relevance r)));
    [| |exact H]; unfold byRelevance, descending; intros x y Hx Hy;
    rewrite gt_sub by assumption; unfold JsNumber.gt.
  - apply ltb_leb.
  - now apply not_ltb_leb.
Qed.


(** ** The scorer: who is in the ranking *)

Lemma searchPerson_In (e : Engine) (ql : string) (i : nat) (p : PersonInfo)
    (r : AdvancedSearchResult) :
  In r (searchPerson e ql i p) ->
  person r = p
  /\ relevance r = fst (scorePerson e ql i p)
  /\ matchedChunks r = snd (scorePerson e ql i p)
  /\ JsNumber.gt (relevance r) 0 = true
  /\ explanation r = generateExplanation ql p (matchedChunks r) (relevance r)
  /\ matchType r = determineMatchType ql p (relevance r).
Proof.
  unfold searchPerson. destruct (scorePerson e ql i p) as [rel matched].
  destruct (JsNumber.gt rel 0) eqn:E; simpl; [|easy].
  intros [<-|[]]. simpl. repeat split; auto.
Qed.

Lemma searchPersonsFrom_In (e : Engine) (ql : string) (ps : list PersonInfo) (k : nat)
    (r : AdvancedSearchResult) :
  In r (searchPersonsFrom e ql k ps) <->
  exists i p, nth_error ps i = Some p /\ In r (searchPerson e ql (k + i) p).
Proof.
  revert k; induction ps as [|p ps IH]; intros k; cbn [searchPersonsFrom].
  - split; [easy|]. now intros ([|i] & q & H & _).
  - rewrite in_app_iff, IH. split.
    + intros [H|(i & q & Hi & H)].
      * exists 0%nat, p. now rewrite Nat.add_0_r.
      * exists (S i), q. now rewrite Nat.add_succ_r.
    + intros ([|i] & q & Hi & H).
      * left. injection Hi as ->. now rewrite Nat.add_0_r in H.
      * right. exists i, q. now rewrite Nat.add_succ_r in H.
Qed.

Lemma performSearch_In (e : Engine) (q : string) (r : AdvancedSearchResult) :
  In r (performSearch e q) ->
  exists i p, nth_error (persons e) i = Some p
              /\ In r (searchPerson e (toLowerCase q) i p).
Proof.
  unfold performSearch. intros H%firstn_In%stableSort_In.
  now apply (searchPersonsFrom_In e (toLowerCase q) (persons e) 0) in H.
Qed.

Lemma performSearch_isNumber (e : Engine) (ql : string) :
  Forall (fun r => isNumber (relevance r)) (searchPersonsFrom e ql 0 (persons e)).
Proof.
  apply List.Forall_forall. intros r (i & p & _ & H)%searchPersonsFrom_In.
  apply searchPerson_In in H as (_ & _ & _ & H & _).
  now apply ltb_isNumber in H.
Qed.


(** ** Top performers *)


(** ** The orchestrator: what [search] can return *)

Lemma includesSome_false (q k : string) (keywords : list string) :
  includesSome q keywords = false -> In k keywords -> includes q k = false.
Proof.
  intros H Hin. destruct (includes q k) eqn:E; [|reflexivity].
  now rewrite (includesSome_intro q k keywords Hin E) in H.
Qed.

Lemma analytical_no_exact (q : string) :
  analyzeQueryType q = analytical ->
  includesSome (toLowerCase q) exactKeywords = false.
Proof.
  unfold analyzeQueryType.
  destruct (includesSome (toLowerCase q) exactKeywords); [easy|reflexivity].
Qed.

Lemma entrySet_nonempty {V} (entries : list (string * V)) (key : string) (v : V) :
  entrySet entries key v <> [].
Proof.
  destruct entries as [|[k w] rest]; simpl; [easy|]. now destruct (String.eqb k key).
Qed.

Lemma analyzeDepartments_counts (e : Engine) :
  persons e <> [] ->
  exists c counts, deptCounts (analyzeDepartments e) = c :: counts.
Proof.
  unfold analyzeDepartments.
  set (step := fun '(counts, skillsOf) p => _).
  assert (Hstep : forall acc p, fst (step acc p) <> []).
  { intros [counts skillsOf] p. unfold step.
    destruct (entryGet counts (department p)) as [[|n]|]; simpl; apply entrySet_nonempty. }
  assert (Hfold : forall ps acc, fst acc <> [] -> fst (fold_left step ps acc) <> []).
  { induction ps as [|p ps IH]; intros acc Hacc; simpl; [assumption|]. apply IH, Hstep. }
  destruct (persons e) as [|p ps] eqn:Eps; [easy|]. intros _. cbn [fold_left].
  specialize (Hfold ps (step ([], []) p) (Hstep _ _)).
  destruct (fold_left step ps (step ([], []) p)) as [[|c counts] skillsOf];
    [easy|]. simpl. eauto.
Qed.

Lemma formatDepartmentAnalysis_returns (e : Engine) (ql : string) :
  persons e <> [] ->
  exists text, formatDepartmentAnalysis (analyzeDepartments e) ql = Return text.
Proof.
  intros (c & counts & Hc)%analyzeDepartments_counts.
  unfold formatDepartmentAnalysis. rewrite Hc.
  destruct (includes ql "優秀"); [|eauto].
  destruct (stableSort byCount (c :: counts)) as [|[dept n] rest] eqn:E; [|eauto].
  apply (f_equal (@length _)) in E. now rewrite stableSort_length in E.
Qed.


Lemma search_returns nts (e : Engine) (q : string) :
  persons e <> [] -> exists out, search nts e q = Return out.
Proof.
  intros He. unfold search. destruct (detectAggregationQuery e q); [eauto|].
  destruct (analyzeQueryType q) eqn:Et; eauto.
  apply analytical_no_exact in Et.
  unfold handleAnalyticalQuery.
  rewrite (includesSome_false _ "スキル" _ Et), (includesSome_false _ "技術" _ Et),
    (includesSome_false _ "経験" _ Et), (includesSome_false _ "年数" _ Et);
    try (cbv [exactKeywords In]; auto 40).
  destruct (formatDepartmentAnalysis_returns e (toLowerCase q) He) as [text ->].
  simpl. repeat match goal with
                | |- context [if ?b then _ else _] => destruct b
                end; eauto.
Qed.



(** ** The scorer: the relevance of a record *)

Lemma scoreChunks_fst (ql : string) (cs : list Chunk) :
  fst (scoreChunks ql cs) = bestCosine ql cs.
Proof.
  unfold scoreChunks, bestCosine, cosineScores.
  set (step := fun '(maxRelevance, matched) (c : Chunk) => _).
  assert (H : forall l m (acc : list Chunk),
             fst (fold_left step l (m, acc))
             = fold_left JsNumber.Math_max
                 (List.filter (fun rel => JsNumber.gt rel 0.05)
                    (map (fun c => calculateCosineSimilarity ql (toLowerCase (content c))) l))
                 m).
  { induction l as [|c l IH]; intros m acc; simpl; [reflexivity|].
    destruct (JsNumber.gt _ 0.05); simpl; apply IH. }
  apply H.
Qed.

Lemma checkPartialMatch_values (ql : string) (p : PersonInfo) :
  checkPartialMatch ql p = 0%float \/ checkPartialMatch ql p = 0.8%float.
Proof.
  unfold checkPartialMatch.
  set (step := fun (maxScore : float) (field : string) => _).
  assert (Hstep : forall m f, (m = 0 \/ m = 0.8)%float ->
                              (step m f = 0 \/ step m f = 0.8)%float).
  { intros m f Hm. unfold step. destruct (_ || _); [|assumption].
    right. now destruct Hm as [-> | ->]. }
  assert (Hfold : forall l m, (m = 0 \/ m = 0.8)%float ->
                              (fold_left step l m = 0 \/ fold_left step l m = 0.8)%float).
  { induction l as [|f l IH]; intros m Hm; simpl; auto. }
  apply Hfold, Hfold, Hstep. now left.
Qed.

Lemma checkExactMatch_values (ql : string) (p : PersonInfo) :
  checkExactMatch ql p = 1%float \/ checkExactMatch ql p = 0.8%float
  \/ checkExactMatch ql p = 0%float.
Proof.
  unfold checkExactMatch.
  repeat match goal with
         | |- context [if includes ?a ?b then _ else _] => destruct (includes a b); auto
         | |- context [if existsb ?f ?l then _ else _] => destruct (existsb f l); auto
         end.
  destruct (checkPartialMatch_values ql p) as [-> | ->]; auto.
Qed.

(** C1, amended.  The relevance of a returned record is the exact-or-partial
    value (1, 0.8 or 0) when that is positive, and only otherwise the greatest
    similarity above 0.05 over the chunks of the record; for a conversational
    query it is then the maximum, not the sum, of that and the conversational
    sum.  A returned record has a positive relevance. *)
Theorem performSearch_relevance (e : Engine) (ps : list PersonInfo) (q : string)
    (r : AdvancedSearchResult) :
  In r (performSearch (initialize e ps) q) ->
  exists i p,
    nth_error ps i = Some p /\ person r = p
    /\ let ql := toLowerCase q in
       let exactOrPartial := checkExactMatch ql p in
       let lexical :=
         if JsNumber.gt exactOrPartial 0 then exactOrPartial
         else bestCosine ql (personChunks i p) in
       (exactOrPartial = 1%float \/ exactOrPartial = 0.8%float \/ exactOrPartial = 0%float)
       /\ relevance r =
          (if isConversationalQuery ql
           then JsNumber.Math_max lexical (calculateConversationalScore ql p)
           else lexical)
       /\ JsNumber.gt (relevance r) 0 = true.
Proof.
  intros (i & p & Hi & H)%performSearch_In. exists i, p.
  apply searchPerson_In in H as (Hp & Hrel & _ & Hpos & _).
  cbn [persons initialize] in Hi. repeat split; try assumption.
  - apply checkExactMatch_values.
  - rewrite Hrel. unfold scorePerson.
    rewrite (chunksOfPerson_initialize e ps i p Hi), <- scoreChunks_fst.
    destruct (JsNumber.gt (checkExactMatch (toLowerCase q) p) 0).
    + now destruct (isConversationalQuery _).
    + destruct (scoreChunks (toLowerCase q) (personChunks i p)).
      now destruct (isConversationalQuery _).
Qed.

Lemma performSearch_relevance_witness :
  In tanakaResult (performSearch (initialize newEngine [tanaka]) "react")
  /\ exists i p,
       nth_error [tanaka] i = Some p /\ person tanakaResult = p
       /\ relevance tanakaResult = checkExactMatch "react" p.
Proof.
  assert (H : In tanakaResult (performSearch (initialize newEngine [tanaka]) "react")).
  { vm_compute. now left. }
  split; [exact H|].
  destruct (performSearch_relevance newEngine [tanaka] "react" tanakaResult H)
    as (i & p & Hi & Hp & _).
  exists i, p. split; [exact Hi|]. split; [exact Hp|].
  rewrite <- Hp. vm_compute. reflexivity.
Defined.

(** The record [tanaka] has a skill that contains the query, so its
    relevance is 0.8, though its basic chunk is similar to the query at
    more than 0.94: the relevance is not the maximum of the four steps. *)
Lemma performSearch_not_maximum :
  map (fun r => (name (person r), relevance r))
      (performSearch (initialize newEngine [tanaka]) "react")
  = [("田中", 0.8%float)]
  /\ checkExactMatch "react" tanaka = 0.8%float
  /\ bestCosine "react" (personChunks 0 tanaka) = 0.94868329805051377%float
  /\ maximumOfSteps "react" 0 tanaka = 0.94868329805051377%float.
Proof. vm_compute. repeat split. Qed.


(** ** The scorer: exact matches *)

Lemma isNumber_is_nan (x : float) : isNumber x -> PrimFloat.is_nan x = false.
Proof.
  unfold isNumber, PrimFloat.is_nan. intros H.
  rewrite FloatAxioms.eqb_spec. unfold SFeqb.
  destruct (SFcompare_some _ _ H H) as [c Hc].
  pose proof (SFcompare_antisym (Prim2SF x) (Prim2SF x)) as Ha.
  rewrite Hc in Ha. simpl in Ha. rewrite Hc. now destruct c.
Qed.

Lemma calculateConversationalScore_nonneg (ql : string) (p : PersonInfo) :
  nonneg (calculateConversationalScore ql p).
Proof.
  unfold calculateConversationalScore.
  repeat match goal with
         | |- context [if ?b then _ else _] => destruct b
         end; vm_compute; reflexivity.
Qed.

(** [Math.max(1, c)] is [c] or 1, and at least 1, when [c] is a number. *)
Lemma Math_max_1 (c : float) :
  isNumber c ->
  PrimFloat.leb 1 (JsNumber.Math_max 1 c) = true
  /\ (PrimFloat.ltb 1 c = false -> JsNumber.Math_max 1 c = 1%float).
Proof.
  intros Hc. unfold JsNumber.Math_max.
  rewrite (isNumber_is_nan c Hc). simpl.
  destruct (PrimFloat.ltb 1 c) eqn:E.
  - split; [now apply ltb_leb|easy].
  - split; [|intros _]; now destruct (PrimFloat.ltb c 1).
Qed.







(** ** Blank queries *)

Section Blank.

Ltac each_whitespace H :=
  cbv [whitespace In] in H;
  repeat (destruct H as [<-|H]; [|]); [..|contradiction].



Lemma trimStart_space (w s : string) :
  In w whitespace -> trimStart (w +:+ s) = trimStart s.
Proof. intros H. each_whitespace H; vm_compute; reflexivity. Qed.

(** The guard of the caller, [query.trim() === ''], holds of these queries. *)
Lemma trim_blank (q : string) : whitespaceOnly q -> trim q = "".
Proof.
  intros H. unfold trim.
  enough (trimStart q = "") as -> by reflexivity.
  induction H as [|w s Hw _ IH]; [reflexivity|]. now rewrite trimStart_space.
Qed.

Lemma allBytes_app (f : ascii -> bool) (s t : string) :
  allBytes f (s +:+ t) = allBytes f s && allBytes f t.
Proof.
  induction s as [|c s IH]; simpl; [reflexivity|]. now rewrite IH, andb_assoc.
Qed.

Lemma whitespaceOnly_bytes (q : string) :
  whitespaceOnly q -> allBytes blankByte q = true.
Proof.
  induction 1 as [|w s Hw _ IH]; [reflexivity|].
  rewrite allBytes_app, IH, andb_true_r.
  assert (Hall : forallb (allBytes blankByte) whitespace = true) by reflexivity.
  rewrite forallb_forall in Hall. now apply Hall.
Qed.











End Blank.


(** ** The scorer: records that are not pushed *)











(** ** Blank queries in [search] *)








(** ** Queries that share no token with the chunks *)











(** ** The cosine similarity *)






(** The similarity is 0 when a text has no token. *)
Lemma calculateCosineSimilarity_empty (a b : string) :
  splitWords a = [] \/ splitWords b = [] ->
  calculateCosineSimilarity a b = 0%float.
Proof.
  unfold calculateCosineSimilarity. intros [-> | ->]; [reflexivity|].
  now rewrite orb_true_r.
Qed.

Lemma calculateCosineSimilarity_empty_witness :
  calculateCosineSimilarity "、。 " "python react aws" = 0%float.
Proof. apply calculateCosineSimilarity_empty. left. reflexivity. Defined.

Section CauchySchwarz.




End CauchySchwarz.


(** C8.  The similarity of a text of three distinct words to itself is
    1.0000000000000002, above the bound 1 of the claim and of the comment of
    the function: the product of the two square roots of 3 is rounded to
    2.9999999999999996. *)
Theorem calculateCosineSimilarity_above_one :
  calculateCosineSimilarity "python react aws" "python react aws"
  = 1.0000000000000002%float
  /\ PrimFloat.mul (PrimFloat.sqrt 3) (PrimFloat.sqrt 3) = 2.9999999999999996%float
  /\ JsNumber.gt (calculateCosineSimilarity "python react aws" "python react aws") 1 = true.
Proof. vm_compute. repeat split. Qed.


(** * Further properties *)

(** ** The orchestrator: what an output looks like *)

Lemma findTopPerformers_length (e : Engine) :
  length (findTopPerformers e) = Nat.min 3 (length (persons e)).
Proof.
  unfold findTopPerformers.
  now rewrite List.length_firstn, stableSort_length, List.length_map.
Qed.

(** A query that is not an exact search holds none of the exact-search
    keywords, so none of スキル, 技術, 経験 and 年数. *)
Lemma not_exact_keywords (q : string) :
  analyzeQueryType q <> exact_search ->
  includes (toLowerCase q) "スキル" = false /\ includes (toLowerCase q) "技術" = false
  /\ includes (toLowerCase q) "経験" = false /\ includes (toLowerCase q) "年数" = false.
Proof.
  intros H.
  assert (Et : includesSome (toLowerCase q) exactKeywords = false).
  { unfold analyzeQueryType in H.
    destruct (includesSome (toLowerCase q) exactKeywords); [easy|reflexivity]. }
  repeat split; apply (includesSome_false _ _ _ Et); cbv [exactKeywords In]; auto 40.
Qed.

Lemma formatDepartmentAnalysis_empty (e : Engine) (ql : string) :
  persons e = [] ->
  formatDepartmentAnalysis (analyzeDepartments e) ql
  = if includes ql "優秀" then Throw typeError
    else Return ("部署別の分析結果：" +:+ LF +:+ LF).
Proof.
  intros He. unfold formatDepartmentAnalysis, analyzeDepartments. rewrite He. simpl.
  now destruct (includes ql "優秀").
Qed.

(** What the analytical handler does once the dead tests are removed. *)
Lemma handleAnalyticalQuery_analytical nts (e : Engine) (q : string) :
  analyzeQueryType q = analytical ->
  handleAnalyticalQuery nts e q =
  let ql := toLowerCase q in
  if includes ql "部署" && (includes ql "何人" || includes ql "優秀") then
    statisticsResult (OfDepartments (analyzeDepartments e))
      (formatDepartmentAnalysis (analyzeDepartments e) ql)
  else if includes ql "優秀" then
    Return {| results := findTopPerformers e; aggregation := None;
              queryType := analytical; shouldUseGemini := false |}
  else
    Return {| results := []; aggregation := None;
              queryType := analytical; shouldUseGemini := true |}.
Proof.
  intros Et.
  destruct (not_exact_keywords q) as (H1 & H2 & H3 & H4); [congruence|].
  unfold handleAnalyticalQuery. cbv zeta. now rewrite H1, H2, H3, H4.
Qed.

Lemma handleGeneralQuestion_general (e : Engine) (q : string) :
  analyzeQueryType q = general_question ->
  aggregation (handleGeneralQuestion e q) = None
  \/ handleGeneralQuestion e q
     = listResult (getUniqueDepartments e)
         ("当社には以下の部署があります：" +:+ LF +:+ join LF (getUniqueDepartments e))
         (DepartmentList (getUniqueDepartments e)).
Proof.
  intros Et.
  destruct (not_exact_keywords q) as (H1 & H2 & _); [congruence|].
  unfold handleGeneralQuestion. cbv zeta. rewrite H1, H2. cbn [orb].
  repeat match goal with
         | |- context [if ?b then _ else _] => destruct b
         end; simpl; auto.
Qed.

(** An output that neither escalates nor aggregates has results, unless
    the store is empty. *)
Lemma search_answers nts (e : Engine) (q : string) (out : SearchOutput) :
  search nts e q = Return out ->
  shouldUseGemini out = false -> aggregation out = None -> persons e <> [] ->
  results out <> [].
Proof.
  unfold search. destruct (detectAggregationQuery e q); [now intros [= <-]|].
  destruct (analyzeQueryType q) eqn:Et.
  - intros [= <-]. simpl. destruct (performSearch e q); simpl; easy.
  - intros [= <-]. simpl. destruct (performSearch e q); simpl; easy.
  - rewrite handleAnalyticalQuery_analytical by assumption. cbv zeta.
    unfold statisticsResult.
    repeat match goal with
           | |- context [if ?b then _ else _] => destruct b
           | |- context [match ?f with Return _ => _ | Throw _ => _ end] => destruct f
           end; intros [= <-]; simpl; try easy.
    intros _ _ He Htop. apply (f_equal (@length _)) in Htop.
    rewrite findTopPerformers_length in Htop. destruct (persons e); simpl in *; easy.
  - intros [= <-].
    unfold handleGeneralQuestion, listResult, searchForGemini.
    repeat match goal with
           | |- context [if ?b then _ else _] => destruct b
           end; simpl; easy.
Qed.

(** X4.  Whatever [search] returns, its query type is the verdict of the
    classifier; an aggregation comes with no results and no escalation; an
    output that neither escalates nor aggregates has results, unless the store
    is empty; and results are handed to Gemini for general questions only. *)
Theorem search_output nts (e : Engine) (q : string) (out : SearchOutput) :
  search nts e q = Return out ->
  queryType out = analyzeQueryType q
  /\ (aggregation out <> None -> results out = [] /\ shouldUseGemini out = false)
  /\ (shouldUseGemini out = false -> aggregation out = None -> persons e <> [] ->
      results out <> [])
  /\ (shouldUseGemini out = true -> results out <> [] ->
      queryType out = general_question).
Proof.
  intros H. split; [|split; [|split; [now apply (search_answers nts e q)|]]];
    revert H; unfold search; (destruct (detectAggregationQuery e q); [now intros [= <-]|]);
    destruct (analyzeQueryType q) eqn:Et;
    try (intros [= <-]; simpl; try easy; destruct (performSearch e q); simpl; easy);
    try (rewrite handleAnalyticalQuery_analytical by assumption; cbv zeta;
         unfold statisticsResult;
         repeat match goal with
                | |- context [if ?b then _ else _] => destruct b
                | |- context [match ?f with Return _ => _ | Throw _ => _ end] => destruct f
                end; intros [= <-]; simpl; easy);
    intros [= <-]; unfold handleGeneralQuestion, listResult, searchForGemini;
    repeat match goal with
           | |- context [if ?b then _ else _] => destruct b
           end; simpl; easy.
Qed.

Lemma search_output_witness :
  exists out,
    search (fun _ => "") kaihatsuStore "優秀な人は誰" = Return out
    /\ queryType out = analytical
    /\ (shouldUseGemini out = false -> aggregation out = None -> results out <> []).
Proof.
  eexists. split; [vm_compute; reflexivity|].
  destruct (search_output (fun _ => "") kaihatsuStore "優秀な人は誰" _ eq_refl)
    as (Ht & _ & Hr & _).
  split; [exact Ht|]. intros Hg Ha. apply Hr; [exact Hg|exact Ha|]. vm_compute. discriminate.
Defined.

Lemma detectAggregationQuery_type (e : Engine) (q : string) (a : AggregationResult) :
  detectAggregationQuery e q = Some a -> type a = count.
Proof.
  unfold detectAggregationQuery. cbv zeta.
  set (headcount := if includes (toLowerCase q) "何人" || _ then _ else _).
  assert (Hh : forall r, headcount = Some r -> type r = count).
  { intros r. unfold headcount.
    repeat match goal with
           | |- context [if ?b then _ else _] => destruct b
           end; try easy; now intros [= <-]. }
  destruct headcount as [r|]; [intros [= <-]; now apply Hh|].
  destruct (_ && _); [|easy].
  destruct (List.find _ skillKeywords); simpl; [now intros [= <-]|easy].
Qed.

(** X5.  The aggregation of an output of [search] is a count found by
    [detectAggregationQuery], the statistics of the departments or the list
    of the departments.  The statistics of skills and of experience and the
    list of skills are never returned: their tests ask for スキル, 技術, 経験
    or 年数, which make the query an exact search. *)
Theorem search_aggregation_kinds nts (e : Engine) (q : string)
    (out : SearchOutput) (a : AggregationResult) :
  search nts e q = Return out -> aggregation out = Some a ->
  (type a = count /\ detectAggregationQuery e q = Some a)
  \/ (type a = statistics /\ analyzeQueryType q = analytical
      /\ value a = VObject (OfDepartments (analyzeDepartments e))
      /\ details a = Some (StatsDetails (OfDepartments (analyzeDepartments e)))
      /\ formatDepartmentAnalysis (analyzeDepartments e) (toLowerCase q)
         = Return (description a))
  \/ (type a = list_type /\ analyzeQueryType q = general_question
      /\ value a = VList (getUniqueDepartments e)
      /\ details a = Some (DepartmentList (getUniqueDepartments e))
      /\ description a
         = "当社には以下の部署があります：" +:+ LF +:+ join LF (getUniqueDepartments e)).
Proof.
  unfold search. destruct (detectAggregationQuery e q) as [r|] eqn:Hd.
  { intros [= <-] [= <-]. left. split; [|reflexivity].
    now apply (detectAggregationQuery_type e q). }
  destruct (analyzeQueryType q) eqn:Et.
  - now intros [= <-].
  - now intros [= <-].
  - rewrite handleAnalyticalQuery_analytical by assumption. cbv zeta.
    unfold statisticsResult.
    destruct (includes (toLowerCase q) "部署" && _).
    + destruct (formatDepartmentAnalysis _ _) as [text|err]; [|easy].
      intros [= <-] [= <-]. right. left. simpl. auto.
    + destruct (includes (toLowerCase q) "優秀"); now intros [= <-].
  - intros [= <-] Ha.
    destruct (handleGeneralQuestion_general e q Et) as [H|H]; [congruence|].
    rewrite H in Ha. injection Ha as <-. right. right. simpl. auto.
Qed.

(** The list of departments, as [search] returns it. *)
Lemma search_aggregation_kinds_witness :
  search (fun _ => "") kaihatsuStore "部署は何がある"
  = Return (listResult ["開発部"; "デザイン部"]
              ("当社には以下の部署があります：" +:+ LF +:+ "開発部" +:+ LF +:+ "デザイン部")
              (DepartmentList ["開発部"; "デザイン部"]))
  /\ VList ["開発部"; "デザイン部"] = VList (getUniqueDepartments kaihatsuStore).
Proof.
  assert (H : search (fun _ => "") kaihatsuStore "部署は何がある"
              = Return (listResult ["開発部"; "デザイン部"]
                          ("当社には以下の部署があります：" +:+ LF +:+ "開発部" +:+ LF +:+ "デザイン部")
                          (DepartmentList ["開発部"; "デザイン部"])))
    by (vm_compute; reflexivity).
  split; [exact H|].
  destruct (search_aggregation_kinds _ _ _ _ _ H eq_refl)
    as [[Ht _]|[[Ht _]|(_ & _ & Hv & _)]]; [discriminate Ht|discriminate Ht|exact Hv].
Defined.


(** ** Ranking: the best come first *)

Section Ranking.

Context {A : Type} (after : A -> A -> bool).

Lemma insertSorted_Permutation (x : A) (l : list A) :
  Permutation (x :: l) (insertSorted after x l).
Proof.
  induction l as [|y l IH]; simpl; [reflexivity|].
  destruct (after x y); [|reflexivity].
  rewrite perm_swap. now constructor.
Qed.

Lemma stableSort_Permutation (l : list A) : Permutation l (stableSort after l).
Proof.
  induction l as [|x l IH]; simpl; [constructor|].
  rewrite <- insertSorted_Permutation. now constructor.
Qed.

End Ranking.

Lemma StronglySorted_firstn_skipn {A} (R : A -> A -> Prop) (n : nat) (l : list A) :
  StronglySorted R l ->
  forall x y, In x (firstn n l) -> In y (skipn n l) -> R x y.
Proof.
  intros H. revert n. induction H as [|z l H IH HF]; intros [|n] x y; simpl; try easy.
  intros [<-|Hx] Hy.
  - rewrite List.Forall_forall in HF. apply HF.
    rewrite <- (firstn_skipn n l). apply in_or_app. now right.
  - now apply (IH n).
Qed.

(** The first [n] of a list sorted by relevance, and what is left. *)
Lemma firstn_best (n : nat) (l : list AdvancedSearchResult) :
  Forall (fun r => isNumber (relevance r)) l ->
  Permutation l (firstn n (stableSort byRelevance l) ++ skipn n (stableSort byRelevance l))
  /\ forall r r', In r (firstn n (stableSort byRelevance l)) ->
                  In r' (skipn n (stableSort byRelevance l)) -> descending r r'.
Proof.
  intros H. split.
  - rewrite firstn_skipn. apply stableSort_Permutation.
  - apply StronglySorted_firstn_skipn. now apply byRelevance_sorted.
Qed.

(** X6.  The ranking keeps the best: the scorer returns five of the pushed
    results (all of them if there are fewer), and no result it leaves out has
    a greater relevance than one it returns. *)
Theorem performSearch_best (e : Engine) (q : string) :
  exists rest,
    Permutation (searchPersonsFrom e (toLowerCase q) 0 (persons e))
                (performSearch e q ++ rest)
    /\ length (performSearch e q)
       = Nat.min 5 (length (searchPersonsFrom e (toLowerCase q) 0 (persons e)))
    /\ forall r r', In r (performSearch e q) -> In r' rest ->
                    PrimFloat.leb (relevance r') (relevance r) = true.
Proof.
  destruct (firstn_best 5 _ (performSearch_isNumber e (toLowerCase q))) as [Hp Hb].
  eexists. split; [exact Hp|]. split; [|exact Hb].
  unfold performSearch. now rewrite List.length_firstn, stableSort_length.
Qed.

(** X7.  [findTopPerformers] returns three persons of the store (all of them
    if there are fewer), each with its total score, no chunk and the match
    type [similar]; no person left out has a greater total score than one
    returned. *)
Theorem findTopPerformers_best (e : Engine) :
  length (findTopPerformers e) = Nat.min 3 (length (persons e))
  /\ Forall (fun r => relevance r = totalScore (person r)
                      /\ matchedChunks r = [] /\ matchType r = similar)
            (findTopPerformers e)
  /\ exists rest,
       Permutation (persons e) (map person (findTopPerformers e) ++ rest)
       /\ forall r p, In r (findTopPerformers e) -> In p rest ->
                      PrimFloat.leb (totalScore p) (relevance r) = true.
Proof.
  unfold findTopPerformers.
  set (score := fun p => {| person := p; relevance := _; matchedChunks := [];
                            explanation := _; matchType := similar |}).
  set (scored := map score (persons e)).
  assert (Hnum : Forall (fun r => isNumber (relevance r)) scored).
  { apply List.Forall_forall. intros r (p & <- & _)%in_map_iff. simpl.
    apply nonneg_isNumber.
    repeat apply add_nonneg;
      (eapply mul_nonneg; [vm_compute; reflexivity | apply ofNat_nonneg]). }
  assert (Hall : Forall (fun r => relevance r = totalScore (person r)
                                  /\ matchedChunks r = [] /\ matchType r = similar) scored).
  { apply List.Forall_forall. intros r (p & <- & _)%in_map_iff. now simpl. }
  assert (Hsorted : Forall (fun r => relevance r = totalScore (person r)
                                  /\ matchedChunks r = [] /\ matchType r = similar)
                      (stableSort byRelevance scored)).
  { rewrite List.Forall_forall in *. intros r Hr%stableSort_In. now apply Hall. }
  destruct (firstn_best 3 _ Hnum) as [Hp Hb].
  split; [|split].
  - unfold scored. now rewrite List.length_firstn, stableSort_length, List.length_map.
  - rewrite List.Forall_forall in *. intros r Hr%firstn_In. now apply Hsorted.
  - exists (map person (skipn 3 (stableSort byRelevance scored))). split.
    + rewrite <- List.map_app, <- Hp. unfold scored. rewrite List.map_map. simpl.
      now rewrite List.map_id.
    + intros r p Hr (r' & <- & Hr')%in_map_iff.
      rewrite List.Forall_forall in Hsorted.
      destruct (Hsorted r') as [<- _].
      { rewrite <- (firstn_skipn 3 (stableSort byRelevance scored)).
        apply in_or_app. now right. }
      now apply (Hb r r').
Qed.

(** ** The scorer: the chunks and the match type of a result *)

Lemma scoreChunks_snd (ql : string) (cs : list Chunk) :
  snd (scoreChunks ql cs) = similarChunks ql cs.
Proof.
  unfold scoreChunks, similarChunks.
  set (step := fun '(maxRelevance, matched) c => _).
  set (keep := fun c => JsNumber.gt _ 0.05).
  assert (H : forall l m acc, snd (fold_left step l (m, acc)) = acc ++ List.filter keep l).
  { induction l as [|c l IH]; intros m acc; cbn [fold_left List.filter];
      [now rewrite app_nil_r|].
    assert (Hs : exists m', step (m, acc) c = (m', if keep c then acc ++ [c] else acc)).
    { unfold step, keep. destruct (JsNumber.gt _ 0.05); eauto. }
    destruct Hs as [m' ->]. rewrite IH.
    destruct (keep c); [|reflexivity]. now rewrite <- app_assoc. }
  apply (H cs 0%float []).
Qed.

(** X8.  After [initialize], the matched chunks of a result are chunks of
    the person of the result: all of them after an exact or partial match,
    and otherwise those whose similarity to the query exceeds 0.05. *)
Theorem performSearch_matchedChunks (e : Engine) (ps : list PersonInfo) (q : string)
    (r : AdvancedSearchResult) :
  In r (performSearch (initialize e ps) q) ->
  exists i,
    nth_error ps i = Some (person r)
    /\ matchedChunks r
       = (if JsNumber.gt (checkExactMatch (toLowerCase q) (person r)) 0
          then personChunks i (person r)
          else similarChunks (toLowerCase q) (personChunks i (person r)))
    /\ Forall (fun c => In c (personChunks i (person r))
                        /\ personId c = personIdOf i /\ carries c (person r))
              (matchedChunks r).
Proof.
  intros (i & p & Hi & Hr)%performSearch_In. simpl in Hi.
  apply searchPerson_In in Hr as (Hp & _ & Hm & _). subst p.
  assert (Hm' : matchedChunks r
                = if JsNumber.gt (checkExactMatch (toLowerCase q) (person r)) 0
                  then personChunks i (person r)
                  else similarChunks (toLowerCase q) (personChunks i (person r))).
  { rewrite Hm. unfold scorePerson.
    rewrite (chunksOfPerson_initialize e ps i (person r) Hi).
    destruct (JsNumber.gt (checkExactMatch _ _) 0); [reflexivity|].
    rewrite <- scoreChunks_snd. now destruct (scoreChunks _ _). }
  exists i. split; [exact Hi|]. split; [exact Hm'|].
  rewrite Hm'. pose proof (personChunks_spec i (person r)) as Hspec.
  rewrite List.Forall_forall in *. intros c Hc.
  assert (Hin : In c (personChunks i (person r))).
  { destruct (JsNumber.gt _ 0); [exact Hc|]. unfold similarChunks in Hc.
    now apply filter_In in Hc. }
  split; [exact Hin|]. now apply Hspec.
Qed.

Lemma performSearch_matchedChunks_witness :
  In tanakaResult (performSearch (initialize newEngine [tanaka]) "react")
  /\ exists i, nth_error [tanaka] i = Some (person tanakaResult)
               /\ matchedChunks tanakaResult = personChunks i tanaka.
Proof.
  assert (H : In tanakaResult (performSearch (initialize newEngine [tanaka]) "react"))
    by (vm_compute; left; reflexivity).
  split; [exact H|].
  destruct (performSearch_matchedChunks newEngine [tanaka] "react" tanakaResult H)
    as (i & Hi & Hm & _).
  exists i. split; [exact Hi|]. rewrite Hm. reflexivity.
Defined.

Lemma SFltb_leb_trans (x y z : spec_float) :
  SFltb x y = true -> SFleb y z = true -> SFltb x z = true.
Proof.
  unfold SFleb, SFltb.
  destruct x as [sx|sx| |sx mx ex], y as [sy|sy| |sy my ey], z as [sz|sz| |sz mz ez];
    split_signs; simpl; try easy;
    destruct (Z.compare_spec ex ey), (Z.compare_spec ey ez), (Z.compare_spec ex ez);
    simpl; try easy; try lia; subst;
    rewrite ?Pos.compare_cont_spec; simpl;
    destruct (Pos.compare_spec mx my), (Pos.compare_spec my mz), (Pos.compare_spec mx mz);
    simpl; try easy; try lia.
Qed.

Lemma ltb_leb_trans (a b c : float) :
  PrimFloat.ltb a b = true -> PrimFloat.leb b c = true -> PrimFloat.ltb a c = true.
Proof. rewrite !ltb_spec, leb_spec. apply SFltb_leb_trans. Qed.

(** When the query contains the name, the department, a skill or a
    qualification of the person, the exact step gives 1. *)
Lemma checkExactMatch_contained (ql : string) (p : PersonInfo) :
  includes ql (toLowerCase (name p))
  || includes ql (toLowerCase (department p))
  || existsb (fun skill => includes ql (toLowerCase skill)) (skills p)
  || existsb (fun qual => includes ql (toLowerCase qual)) (qualifications p) = true ->
  checkExactMatch ql p = 1%float.
Proof.
  unfold checkExactMatch.
  destruct (includes ql (toLowerCase (department p))); [easy|].
  destruct (existsb _ (skills p)); [easy|].
  destruct (existsb _ (qualifications p)); [easy|].
  destruct (includes ql (toLowerCase (name p))); easy.
Qed.

Lemma scorePerson_exact (e : Engine) (ql : string) (i : nat) (p : PersonInfo) :
  checkExactMatch ql p = 1%float ->
  PrimFloat.leb 1 (fst (scorePerson e ql i p)) = true.
Proof.
  intros H. unfold scorePerson. rewrite H.
  change (JsNumber.gt 1 0) with true. cbv iota.
  destruct (isConversationalQuery ql); simpl; [|reflexivity].
  apply Math_max_1, nonneg_isNumber, calculateConversationalScore_nonneg.
Qed.

(** X9.  The match type of a result of the scorer is decided by its relevance
    alone: [exact] from 1 on, [similar] above 0.6, [category] otherwise; the
    tests of [determineMatchType] on the fields never decide.  An exact match
    is explained as 非常に高い関連性. *)
Theorem performSearch_matchType (e : Engine) (q : string) (r : AdvancedSearchResult) :
  In r (performSearch e q) ->
  matchType r = matchTypeOf (relevance r)
  /\ (matchType r = exact -> explanation r = "非常に高い関連性")
  /\ (matchType r = category ->
      explanation r = "中程度の関連性" \/ explanation r = "低い関連性").
Proof.
  intros (i & p & Hi & Hr)%performSearch_In.
  apply searchPerson_In in Hr as (Hp & Hrel & _ & _ & Hex & Ht).
  assert (Hm : matchType r = matchTypeOf (relevance r)).
  { rewrite Ht. unfold determineMatchType, matchTypeOf.
    destruct (JsNumber.ge (relevance r) 1) eqn:Hge; [reflexivity|].
    destruct (includes (toLowerCase q) (toLowerCase (name p))
              || includes (toLowerCase q) (toLowerCase (department p))
              || existsb (fun skill => includes (toLowerCase q) (toLowerCase skill)) (skills p)
              || existsb (fun qual => includes (toLowerCase q) (toLowerCase qual))
                   (qualifications p)) eqn:Hc.
    - apply checkExactMatch_contained in Hc.
      apply (scorePerson_exact e _ i) in Hc. rewrite <- Hrel in Hc.
      unfold JsNumber.ge in Hge. congruence.
    - apply orb_false_iff in Hc as [Hc ->]. apply orb_false_iff in Hc as [Hc ->].
      apply orb_false_iff in Hc as [-> ->]. reflexivity. }
  split; [exact Hm|]. rewrite Hm, Hex. unfold matchTypeOf, generateExplanation, JsNumber.ge, JsNumber.gt.
  split.
  - destruct (PrimFloat.leb 1 (relevance r)) eqn:Hge.
    + intros _. now rewrite (ltb_leb_trans 0.8 1 (relevance r) eq_refl Hge).
    + now destruct (PrimFloat.ltb 0.6 (relevance r)).
  - destruct (PrimFloat.leb 1 (relevance r)); [easy|].
    destruct (PrimFloat.ltb 0.6 (relevance r)) eqn:H6; [easy|]. intros _.
    destruct (PrimFloat.ltb 0.8 (relevance r)) eqn:H8.
    + pose proof (ltb_leb_trans 0.6 0.8 (relevance r) eq_refl (ltb_leb _ _ H8)). congruence.
    + destruct (PrimFloat.ltb 0.4 (relevance r)); auto.
Qed.

Lemma performSearch_matchType_witness :
  In tanakaResult (performSearch (initialize newEngine [tanaka]) "react")
  /\ matchType tanakaResult = similar
  /\ matchTypeOf 0.8 = similar.
Proof.
  assert (H : In tanakaResult (performSearch (initialize newEngine [tanaka]) "react"))
    by (vm_compute; left; reflexivity).
  split; [exact H|]. split; [reflexivity|].
  destruct (performSearch_matchType _ _ _ H) as [Hm _]. symmetry. exact Hm.
Defined.


(** ** The chunker: identifiers *)

Lemma append_nil_l (s : string) : "" +:+ s = s.
Proof. reflexivity. Qed.

Lemma append_cons (c : ascii) (s t : string) : String c s +:+ t = String c (s +:+ t).
Proof. reflexivity. Qed.

Lemma append_inj_l (s a b : string) : s +:+ a = s +:+ b -> a = b.
Proof.
  induction s as [|c s IH]; rewrite ?append_nil_l, ?append_cons; [easy|].
  intros [= H]. auto.
Qed.

Lemma string_of_uint_digits (d : Decimal.uint) :
  allBytes isDigit (NilEmpty.string_of_uint d) = true.
Proof. induction d; simpl; auto. Qed.

(** A number is read off the front of a string up to the first byte that is
    not a digit. *)
Lemma digits_prefix (d1 d2 t1 t2 : string) :
  allBytes isDigit d1 = true -> allBytes isDigit d2 = true ->
  startsWith t1 "_" = true -> startsWith t2 "_" = true ->
  d1 +:+ t1 = d2 +:+ t2 -> d1 = d2 /\ t1 = t2.
Proof.
  revert d2. induction d1 as [|c d1 IH]; intros [|c' d2];
    rewrite ?append_nil_l, ?append_cons; cbn [allBytes].
  - auto.
  - intros _ [Hc _]%andb_true_iff H1 _ ->. cbn [startsWith] in H1.
    apply andb_true_iff in H1 as [<-%Ascii.eqb_eq _]. discriminate Hc.
  - intros [Hc _]%andb_true_iff _ _ H2 <-. cbn [startsWith] in H2.
    apply andb_true_iff in H2 as [<-%Ascii.eqb_eq _]. discriminate Hc.
  - intros [_ H1]%andb_true_iff [_ H2]%andb_true_iff Ht1 Ht2 [= -> H].
    destruct (IH d2 H1 H2 Ht1 Ht2 H) as [-> ->]. auto.
Qed.

Lemma chunkSuffix_startsWith (t : ChunkType) : startsWith (chunkSuffix t) "_" = true.
Proof. now destruct t. Qed.

(** The id of a chunk tells the person and the type. *)
Lemma chunkId_inj (i j : nat) (t t' : ChunkType) :
  personIdOf i +:+ chunkSuffix t = personIdOf j +:+ chunkSuffix t' -> i = j /\ t = t'.
Proof.
  unfold personIdOf. intros H. simpl in H. injection H as H.
  apply digits_prefix in H as [Hd Ht];
    try apply string_of_uint_digits; try apply chunkSuffix_startsWith.
  split; [now apply ofNat_inj|]. destruct t, t'; simpl in Ht; congruence.
Qed.

Lemma personChunks_ids (i : nat) (p : PersonInfo) :
  Forall (fun c => id c = personIdOf i +:+ chunkSuffix (chunkType c)) (personChunks i p)
  /\ List.NoDup (map chunkType (personChunks i p))
  /\ (1 <= length (personChunks i p) <= 4)%nat.
Proof.
  unfold personChunks.
  destruct (0 <? length (skills p))%nat, (negb (String.eqb (experience p) "")),
    (0 <? length (qualifications p))%nat; cbn [app map length chunkType id];
    (split; [repeat constructor|split; [|lia]]);
    repeat (constructor; [cbn [In]; intuition discriminate|]); constructor.
Qed.

Lemma createChunksFrom_ids (ps : list PersonInfo) (k : nat) :
  Forall (fun c => exists i, (k <= i)%nat /\ personId c = personIdOf i
                    /\ id c = personIdOf i +:+ chunkSuffix (chunkType c))
         (createChunksFrom k ps).
Proof.
  revert k. induction ps as [|p ps IH]; intros k; cbn [createChunksFrom]; [constructor|].
  apply Forall_app. split.
  - destruct (personChunks_ids k p) as [Hid _].
    pose proof (personChunks_spec k p) as Hs.
    rewrite List.Forall_forall in *. intros c Hc. exists k.
    split; [lia|]. split; [now apply Hs|now apply Hid].
  - specialize (IH (S k)). rewrite List.Forall_forall in *.
    intros c Hc. destruct (IH c Hc) as (i & Hi & H). exists i. split; [lia|exact H].
Qed.

Lemma createChunksFrom_NoDup (ps : list PersonInfo) (k : nat) :
  List.NoDup (map id (createChunksFrom k ps)).
Proof.
  revert k. induction ps as [|p ps IH]; intros k; cbn [createChunksFrom]; [constructor|].
  rewrite List.map_app. apply List.NoDup_app; [| apply IH |].
  - destruct (personChunks_ids k p) as (Hid & Hnd & _).
    rewrite (List.map_ext_in id (fun c => personIdOf k +:+ chunkSuffix (chunkType c)))
      by (rewrite List.Forall_forall in Hid; exact Hid).
    rewrite <- (List.map_map chunkType (fun t => personIdOf k +:+ chunkSuffix t)).
    apply Finite.Injective_map_NoDup; [|exact Hnd].
    intros t t' H. now apply chunkId_inj in H.
  - intros x (c & <- & Hc)%in_map_iff (c' & Heq & Hc')%in_map_iff.
    destruct (personChunks_ids k p) as (Hid & _).
    rewrite List.Forall_forall in Hid. rewrite (Hid c Hc) in Heq.
    pose proof (createChunksFrom_ids ps (S k)) as Hids.
    rewrite List.Forall_forall in Hids.
    destruct (Hids c' Hc') as (i & Hi & _ & Hc'id). rewrite Hc'id in Heq.
    apply chunkId_inj in Heq as [Heq _]. lia.
Qed.

Lemma createChunksFrom_length (ps : list PersonInfo) (k : nat) :
  (length ps <= length (createChunksFrom k ps) <= 4 * length ps)%nat.
Proof.
  revert k. induction ps as [|p ps IH]; intros k; cbn [createChunksFrom]; [simpl; lia|].
  rewrite length_app. destruct (personChunks_ids k p) as (_ & _ & H).
  specialize (IH (S k)). cbn [length]. lia.
Qed.

(** X10.  After [initialize] no two chunks have the same id; the id of a
    chunk is the id of its person followed by the name of its type; and the
    store has at least one and at most four chunks per person. *)
Theorem initialize_ids (e : Engine) (ps : list PersonInfo) :
  List.NoDup (map id (chunks (initialize e ps)))
  /\ Forall (fun c => exists i, (i < length ps)%nat /\ personId c = personIdOf i
                       /\ id c = personId c +:+ chunkSuffix (chunkType c))
            (chunks (initialize e ps))
  /\ (length ps <= length (chunks (initialize e ps)) <= 4 * length ps)%nat.
Proof.
  simpl. unfold createChunks. split; [apply createChunksFrom_NoDup|].
  split; [|apply createChunksFrom_length].
  apply List.Forall_forall. intros c Hc.
  destruct (createChunksFrom_spec ps 0 c Hc) as (i & p & Hi & Hp & _).
  pose proof (createChunksFrom_ids ps 0) as Hids. rewrite List.Forall_forall in Hids.
  destruct (Hids c Hc) as (j & _ & Hj & Hid).
  exists i. split; [|split; [exact Hp|]].
  - apply nth_error_Some. congruence.
  - now rewrite Hj.
Qed.


(** ** Dictionaries *)

Section Entries.

Context {V : Type}.

Lemma entryGet_entrySet (entries : list (string * V)) (key key' : string) (v : V) :
  entryGet (entrySet entries key v) key'
  = if String.eqb key key' then Some v else entryGet entries key'.
Proof.
  induction entries as [|[k w] rest IH]; simpl.
  - reflexivity.
  - destruct (String.eqb k key) eqn:E; simpl.
    + apply String.eqb_eq in E as ->. now destruct (String.eqb key key').
    + rewrite IH. destruct (String.eqb k key') eqn:E'; [|reflexivity].
      apply String.eqb_eq in E' as ->. now rewrite String.eqb_sym, E.
Qed.

Lemma entryGet_In (entries : list (string * V)) (key : string) (v : V) :
  entryGet entries key = Some v -> In (key, v) entries.
Proof.
  induction entries as [|[k w] rest IH]; simpl; [easy|].
  destruct (String.eqb k key) eqn:E; [|auto].
  apply String.eqb_eq in E as ->. intros [= ->]. now left.
Qed.

Lemma In_entryGet (entries : list (string * V)) (key : string) (v : V) :
  List.NoDup (map fst entries) -> In (key, v) entries -> entryGet entries key = Some v.
Proof.
  induction entries as [|[k w] rest IH]; simpl; [easy|].
  intros Hnd [[= -> ->]|Hin]; [now rewrite String.eqb_refl|].
  inversion Hnd as [|? ? Hk Hnd']; subst.
  destruct (String.eqb k key) eqn:E; [|auto].
  apply String.eqb_eq in E as ->. exfalso. apply Hk.
  apply in_map_iff. now exists (key, v).
Qed.

Lemma entrySet_keys (entries : list (string * V)) (key : string) (v : V) :
  map fst (entrySet entries key v)
  = match entryGet entries key with
    | Some _ => map fst entries
    | None => map fst entries ++ [key]
    end.
Proof.
  induction entries as [|[k w] rest IH]; simpl; [reflexivity|].
  destruct (String.eqb k key) eqn:E; simpl; [reflexivity|].
  rewrite IH. now destruct (entryGet rest key).
Qed.

Lemma entryGet_None (entries : list (string * V)) (key : string) :
  entryGet entries key = None <-> ~ In key (map fst entries).
Proof.
  induction entries as [|[k w] rest IH]; simpl; [easy|].
  destruct (String.eqb k key) eqn:E.
  - apply String.eqb_eq in E as ->. split; [easy|]. intros H. exfalso. auto.
  - apply String.eqb_neq in E. rewrite IH. intuition.
Qed.

Lemma entrySet_NoDup (entries : list (string * V)) (key : string) (v : V) :
  List.NoDup (map fst entries) -> List.NoDup (map fst (entrySet entries key v)).
Proof.
  intros H. rewrite entrySet_keys. destruct (entryGet entries key) eqn:E; [exact H|].
  apply entryGet_None in E. apply List.NoDup_app; [exact H|repeat constructor; easy|].
  intros a Ha [<-|[]]. contradiction.
Qed.

End Entries.

Lemma entrySet_sum (entries : list (string * nat)) (key : string) (n : nat) :
  list_sum (map snd (entrySet entries key n)) + default 0%nat (entryGet entries key)
  = list_sum (map snd entries) + n.
Proof.
  induction entries as [|[k w] rest IH]; simpl; [lia|].
  destruct (String.eqb k key); simpl; lia.
Qed.

(** ** The statistics of the departments *)

Lemma analyzeDepartments_step (ps : list PersonInfo) (p : PersonInfo) acc :
  tallied ps acc -> tallied (ps ++ [p]) (countDepartment acc p).
Proof.
  destruct acc as [counts skillsOf]. unfold tallied, headcount.
  intros (Hc & Hs & Hnd & Hsum). cbn [fst snd] in *.
  assert (Hamong : forall d, staff (ps ++ [p]) d
                             = staff ps d ++ if String.eqb (department p) d then [p] else []).
  { intros d. unfold staff. rewrite List.filter_app. simpl.
    now destruct (String.eqb (department p) d). }
  unfold countDepartment.
  set (dept := department p).
  pose proof (Hc dept) as Hcd. pose proof (Hs dept) as Hsd.
  destruct (length (staff ps dept)) as [|n] eqn:En; cbn [Nat.eqb] in Hcd, Hsd.
  - cbv beta iota zeta. rewrite Hcd. cbv beta iota zeta. repeat split; cbn [fst snd].
    + intros d. rewrite !entryGet_entrySet, Hamong, length_app. fold dept.
      destruct (String.eqb dept d) eqn:E.
      * apply String.eqb_eq in E as <-. now rewrite String.eqb_refl, En.
      * rewrite Hc. simpl. now rewrite ?Nat.add_0_r.
    + intros d. rewrite !entryGet_entrySet, Hamong, length_app. fold dept.
      destruct (String.eqb dept d) eqn:E.
      * apply String.eqb_eq in E as <-. rewrite String.eqb_refl, En. simpl.
        apply length_zero_iff_nil in En. rewrite En. simpl. now rewrite app_nil_r.
      * rewrite Hs. simpl. now rewrite ?Nat.add_0_r, ?app_nil_r.
    + now apply entrySet_NoDup, entrySet_NoDup.
    + pose proof (entrySet_sum (entrySet counts dept 0%nat) dept
                    (default 0%nat (entryGet (entrySet counts dept 0%nat) dept) + 1)) as H1.
      pose proof (entrySet_sum counts dept 0%nat) as H2.
      rewrite entryGet_entrySet, String.eqb_refl in H1. rewrite Hcd in H2.
      simpl in H1, H2. rewrite entryGet_entrySet, String.eqb_refl, length_app. simpl. lia.
  - cbv beta iota zeta. rewrite Hcd. cbv beta iota zeta. repeat split; cbn [fst snd].
    + intros d. rewrite !entryGet_entrySet, Hamong, length_app, Hcd. fold dept.
      destruct (String.eqb dept d) eqn:E.
      * apply String.eqb_eq in E as <-. rewrite En. simpl.
        destruct (n + 1)%nat eqn:E1; [lia|]. f_equal; lia.
      * rewrite Hc. simpl. now rewrite ?Nat.add_0_r.
    + intros d. rewrite !entryGet_entrySet, Hamong, length_app, Hsd. fold dept.
      destruct (String.eqb dept d) eqn:E.
      * apply String.eqb_eq in E as <-. rewrite En. simpl.
        destruct (n + 1)%nat eqn:E1; [lia|].
        rewrite flat_map_app. simpl. now rewrite app_nil_r.
      * rewrite Hs. simpl. now rewrite ?Nat.add_0_r, ?app_nil_r.
    + now apply entrySet_NoDup.
    + pose proof (entrySet_sum counts dept (default 0%nat (Some (S n)) + 1)) as H1.
      rewrite Hcd in H1. rewrite Hcd, length_app. simpl in H1 |- *. lia.
Qed.

Lemma analyzeDepartments_fold (ps pre : list PersonInfo) acc :
  tallied pre acc -> tallied (pre ++ ps) (fold_left countDepartment ps acc).
Proof.
  revert pre acc. induction ps as [|p ps IH]; intros pre acc H; simpl.
  - now rewrite app_nil_r.
  - replace (pre ++ p :: ps) with ((pre ++ [p]) ++ ps) by now rewrite <- app_assoc.
    apply IH. now apply analyzeDepartments_step.
Qed.

Lemma analyzeDepartments_fold_left (e : Engine) :
  analyzeDepartments e
  = {| deptCounts := fst (fold_left countDepartment (persons e) ([], []));
       deptSkills := snd (fold_left countDepartment (persons e) ([], []));
       deptTotal := length (persons e) |}.
Proof.
  unfold analyzeDepartments.
  change (fold_left _ (persons e) ([], []))
    with (fold_left countDepartment (persons e) ([], [])).
  now destruct (fold_left countDepartment (persons e) ([], [])).
Qed.

Lemma analyzeDepartments_tallied (e : Engine) :
  tallied (persons e) (deptCounts (analyzeDepartments e), deptSkills (analyzeDepartments e)).
Proof.
  rewrite analyzeDepartments_fold_left. cbn [deptCounts deptSkills].
  rewrite <- surjective_pairing.
  apply (analyzeDepartments_fold (persons e) [] ([], [])).
  repeat split; try easy. constructor.
Qed.

(** X11.  On a store whose departments are plain keys, [analyzeDepartments]
    gives every department that has a person its head count and the skills of
    its persons in store order, nothing for any other key, each department
    once, and counts that add up to the total, the size of the store. *)
Theorem analyzeDepartments_spec (e : Engine) :
  plainDepartments e ->
  (forall d, entryGet (deptCounts (analyzeDepartments e)) d
             = if (headcount (persons e) d =? 0)%nat then None
               else Some (headcount (persons e) d))
  /\ (forall d, entryGet (deptSkills (analyzeDepartments e)) d
                = if (headcount (persons e) d =? 0)%nat then None
                  else Some (flat_map skills (staff (persons e) d)))
  /\ List.NoDup (map fst (deptCounts (analyzeDepartments e)))
  /\ list_sum (map snd (deptCounts (analyzeDepartments e))) = length (persons e)
  /\ deptTotal (analyzeDepartments e) = length (persons e).
Proof.
  intros _. destruct (analyzeDepartments_tallied e) as (Hc & Hs & Hnd & Hsum).
  repeat split; try assumption. now rewrite analyzeDepartments_fold_left.
Qed.

Lemma analyzeDepartments_spec_witness :
  plainDepartments kaihatsuStore
  /\ entryGet (deptCounts (analyzeDepartments kaihatsuStore)) "開発部" = Some 2%nat
  /\ entryGet (deptCounts (analyzeDepartments kaihatsuStore)) "営業部" = None.
Proof.
  assert (H : plainDepartments kaihatsuStore) by (repeat constructor).
  split; [exact H|].
  destruct (analyzeDepartments_spec kaihatsuStore H) as (Hc & _).
  split; rewrite Hc; reflexivity.
Defined.

(** ** Lists without repetition *)

(** The first occurrences of the members of a list. *)
Lemma filter_filter {A} (f g : A -> bool) (l : list A) :
  List.filter f (List.filter g l) = List.filter (fun x => f x && g x) l.
Proof.
  induction l as [|x l IH]; simpl; [reflexivity|].
  destruct (g x); simpl; rewrite ?andb_true_r, ?andb_false_r;
    [destruct (f x)|]; now rewrite IH.
Qed.

Lemma unique_from (l seen : list string) :
  fold_left (fun seen x => if existsb (String.eqb x) seen then seen else seen ++ [x]) l seen
  = seen ++ List.filter (fun y => negb (existsb (String.eqb y) seen)) (unique l).
Proof.
  unfold unique. revert seen.
  induction l as [|x l IH]; intros seen; cbn [fold_left].
  - simpl. now rewrite app_nil_r.
  - cbn [existsb app]. rewrite (IH [x]). cbn [List.filter app].
    rewrite filter_filter.
    destruct (existsb (String.eqb x) seen) eqn:Ex; cbn [negb].
    + rewrite (IH seen). f_equal. apply List.filter_ext. intros y.
      cbn [existsb]. rewrite orb_false_r.
      destruct (String.eqb y x) eqn:E; [|now rewrite andb_true_r].
      apply String.eqb_eq in E as ->. now rewrite Ex.
    + rewrite (IH (seen ++ [x])), <- app_assoc. cbn [app]. f_equal. f_equal.
      apply List.filter_ext. intros y. rewrite existsb_app. cbn [existsb].
      rewrite !orb_false_r, negb_orb. reflexivity.
Qed.

Lemma unique_cons (x : string) (l : list string) :
  unique (x :: l) = x :: List.filter (fun y => negb (String.eqb y x)) (unique l).
Proof.
  unfold unique at 1. cbn [fold_left existsb app]. rewrite unique_from.
  cbn [app]. f_equal. apply List.filter_ext. intros y. simpl. now rewrite orb_false_r.
Qed.

Lemma unique_In (l : list string) (x : string) : In x (unique l) <-> In x l.
Proof.
  induction l as [|y l IH]; [easy|]. rewrite unique_cons. simpl.
  rewrite filter_In, IH, negb_true_iff, String.eqb_neq.
  destruct (String.eqb_spec y x); intuition congruence.
Qed.

Lemma unique_NoDup (l : list string) : List.NoDup (unique l).
Proof.
  induction l as [|y l IH]; [constructor|]. rewrite unique_cons. constructor.
  - rewrite filter_In, String.eqb_refl. now intros [_ [=]].
  - now apply List.NoDup_filter.
Qed.

Lemma unique_id (l : list string) : List.NoDup l -> unique l = l.
Proof.
  induction 1 as [|x l Hx Hnd IH]; [reflexivity|]. rewrite unique_cons, IH. f_equal.
  apply filter_all, List.Forall_forall. intros y Hy.
  apply negb_true_iff, String.eqb_neq. congruence.
Qed.

(** X12.  [getUniqueDepartments] and [getUniqueSkills] list each department
    and each skill of the store exactly once, and leave a list that has no
    repetition as it is. *)
Theorem getUnique_spec (e : Engine) :
  (List.NoDup (getUniqueDepartments e)
   /\ (forall d, In d (getUniqueDepartments e) <-> exists p, In p (persons e) /\ department p = d)
   /\ (List.NoDup (map department (persons e)) ->
       getUniqueDepartments e = map department (persons e)))
  /\ (List.NoDup (getUniqueSkills e)
      /\ (forall s, In s (getUniqueSkills e) <-> exists p, In p (persons e) /\ In s (skills p))
      /\ (List.NoDup (flat_map skills (persons e)) ->
          getUniqueSkills e = flat_map skills (persons e))).
Proof.
  unfold getUniqueDepartments, getUniqueSkills. split; split; try apply unique_NoDup.
  - split; [|apply unique_id]. intros d. rewrite unique_In, in_map_iff.
    split; intros (p & H1 & H2); eauto.
  - split; [|apply unique_id]. intros s. rewrite unique_In, in_flat_map. reflexivity.
Qed.

(** ** The largest department *)

Lemma stableSort_byCount_head (l rest : list (string * nat)) (d : string) (n : nat) :
  stableSort byCount l = (d, n) :: rest ->
  In (d, n) l /\ forall d' n', In (d', n') l -> (n' <= n)%nat.
Proof.
  intros H.
  assert (Hs : StronglySorted (fun a b : string * nat => (snd b <= snd a)%nat)
                 (stableSort byCount l)).
  { apply Sorted_StronglySorted; [intros a b c; simpl; lia|].
    apply (stableSort_Sorted byCount _ (fun _ => True)).
    - intros x y _ _. unfold byCount. intros ?%Nat.ltb_lt. lia.
    - intros x y _ _. unfold byCount. intros ?%Nat.ltb_ge. lia.
    - now apply List.Forall_forall. }
  split.
  - apply (stableSort_In byCount). rewrite H. now left.
  - intros d' n' Hin%(stableSort_In byCount). rewrite H in Hs, Hin.
    inversion Hs as [|? ? _ Hall]; subst. destruct Hin as [[= -> ->]|Hin]; [lia|].
    rewrite List.Forall_forall in Hall. apply (Hall _ Hin).
Qed.

(** X13.  For a query with 優秀 on a store that is not empty,
    [formatDepartmentAnalysis] ends the listing of the departments with a
    sentence that names a department of the store and its head count, and
    no department has a greater head count. *)
Theorem formatDepartmentAnalysis_top (e : Engine) (ql : string) :
  plainDepartments e -> persons e <> [] -> includes ql "優秀" = true ->
  exists listing d,
    formatDepartmentAnalysis (analyzeDepartments e) "" = Return listing
    /\ formatDepartmentAnalysis (analyzeDepartments e) ql
       = Return (listing +:+ "最も人数が多い部署は" +:+ d +:+ "（"
                 +:+ JsString.ofNat (headcount (persons e) d) +:+ "人）です。")
    /\ (exists p, In p (persons e) /\ department p = d)
    /\ forall d', (headcount (persons e) d' <= headcount (persons e) d)%nat.
Proof.
  intros Hplain He Hq.
  destruct (analyzeDepartments_tallied e) as (Hc & _ & Hnd & _). cbn [fst snd] in Hc, Hnd.
  destruct (analyzeDepartments_counts e He) as (c & counts & Hcs).
  unfold formatDepartmentAnalysis. rewrite Hq.
  change (includes "" "優秀") with false. cbv iota.
  destruct (stableSort byCount (deptCounts (analyzeDepartments e))) as [|[d n] rest] eqn:E.
  { apply (f_equal (@length _)) in E. now rewrite stableSort_length, Hcs in E. }
  apply stableSort_byCount_head in E as [Hin Hmax].
  apply In_entryGet in Hin; [|exact Hnd]. rewrite Hc in Hin.
  destruct (headcount (persons e) d) as [|m] eqn:Em; [discriminate Hin|].
  injection Hin as <-.
  eexists. exists d. split; [reflexivity|]. rewrite Em. split; [reflexivity|]. split.
  - unfold headcount, staff in Em.
    destruct (List.filter _ (persons e)) as [|p ps] eqn:Ef; [discriminate Em|].
    assert (Hp : In p (List.filter (fun p => String.eqb (department p) d) (persons e)))
      by (rewrite Ef; now left).
    apply filter_In in Hp as [Hp Hd%String.eqb_eq]. eauto.
  - intros d'. destruct (headcount (persons e) d') as [|m'] eqn:Em'; [lia|].
    apply (Hmax d'). apply entryGet_In. now rewrite Hc, Em'.
Qed.

Lemma formatDepartmentAnalysis_top_witness :
  plainDepartments kaihatsuStore /\ persons kaihatsuStore <> []
  /\ includes "優秀な部署" "優秀" = true
  /\ exists listing d,
       formatDepartmentAnalysis (analyzeDepartments kaihatsuStore) "優秀な部署"
       = Return (listing +:+ "最も人数が多い部署は" +:+ d +:+ "（"
                 +:+ JsString.ofNat (headcount (persons kaihatsuStore) d) +:+ "人）です。")
       /\ forall d', (headcount (persons kaihatsuStore) d'
                      <= headcount (persons kaihatsuStore) d)%nat.
Proof.
  assert (H : plainDepartments kaihatsuStore) by (repeat constructor).
  assert (He : persons kaihatsuStore <> []) by discriminate.
  split; [exact H|]. split; [exact He|]. split; [reflexivity|].
  destruct (formatDepartmentAnalysis_top kaihatsuStore "優秀な部署" H He eq_refl)
    as (listing & d & _ & Hf & _ & Hmax).
  exists listing, d. split; [exact Hf|exact Hmax].
Defined.


(** ** The orchestrator: when it throws *)

(** X14.  On a store whose departments are plain keys, [search] throws in one
    case only: the store is empty and an analytical query with 部署 and 優秀,
    which no head-count pattern answers, asks [formatDepartmentAnalysis] for
    the largest of no departments. *)
Theorem search_throws nts (e : Engine) (q : string) :
  plainDepartments e ->
  ((exists err, search nts e q = Throw err) <->
   persons e = [] /\ detectAggregationQuery e q = None
   /\ analyzeQueryType q = analytical
   /\ includes (toLowerCase q) "部署" = true /\ includes (toLowerCase q) "優秀" = true).
Proof.
  intros _. split.
  - intros [err H].
    destruct (persons e) as [|p ps] eqn:He.
    2:{ destruct (search_returns nts e q) as [out Hout]; [now rewrite He|congruence]. }
    revert H. unfold search. destruct (detectAggregationQuery e q); [easy|].
    destruct (analyzeQueryType q) eqn:Et; try easy.
    rewrite handleAnalyticalQuery_analytical by assumption. cbv zeta.
    rewrite formatDepartmentAnalysis_empty by assumption. unfold statisticsResult.
    destruct (includes (toLowerCase q) "部署"), (includes (toLowerCase q) "優秀");
      simpl; try easy; destruct (includes (toLowerCase q) "何人"); simpl; easy.
  - intros (He & Hd & Et & H1 & H2). exists typeError.
    unfold search. rewrite Hd, Et, handleAnalyticalQuery_analytical by assumption.
    cbv zeta. rewrite formatDepartmentAnalysis_empty, H1, H2 by assumption.
    now rewrite orb_true_r.
Qed.

Lemma search_throws_witness :
  plainDepartments newEngine
  /\ search (fun _ => "") newEngine "部署ごとの優秀さ" = Throw typeError
  /\ exists err, search (fun _ => "") newEngine "部署ごとの優秀さ" = Throw err.
Proof.
  assert (H : plainDepartments newEngine) by constructor.
  split; [exact H|]. split; [vm_compute; reflexivity|].
  apply (proj2 (search_throws (fun _ => "") newEngine "部署ごとの優秀さ" H)).
  vm_compute. repeat split.
Defined.


(** ** White space at the ends of a string *)

Lemma startsWith_inv (s w : string) :
  startsWith s w = true -> exists rest, s = w +:+ rest.
Proof.
  revert s. induction w as [|a w IH]; intros s; [now exists s|].
  destruct s as [|b s]; cbn [startsWith]; [easy|].
  intros [->%Ascii.eqb_eq H]%andb_true_iff. destruct (IH s H) as [rest ->]. now exists rest.
Qed.

Lemma whitespace_length (w : string) : In w whitespace -> (0 < String.length w)%nat.
Proof.
  intros H.
  assert (Hall : forallb (fun w => (0 <? String.length w)%nat) whitespace = true)
    by (vm_compute; reflexivity).
  rewrite forallb_forall in Hall. now apply Nat.ltb_lt, Hall.
Qed.

(** A string starts with a white space character, or [trimStart] leaves it
    as it is. *)
Lemma trimStart_cases (s : string) :
  (exists w rest, In w whitespace /\ s = w +:+ rest) \/ trimStart s = s.
Proof.
  destruct s as [|c s]; [now right|].
  unfold trimStart. cbn [trimStartFrom]. unfold matchAny.
  destruct (List.find _ whitespace) as [w|] eqn:E; [|now right].
  apply find_some in E as [Hw Hs]. apply startsWith_inv in Hs as [rest ->]. left. eauto.
Qed.

Lemma append_length (s t : string) :
  String.length (s +:+ t) = (String.length s + String.length t)%nat.
Proof. induction s as [|c s IH]; [reflexivity|]. rewrite append_cons. simpl. now rewrite IH. Qed.

Lemma append_assoc (s t u : string) : (s +:+ t) +:+ u = s +:+ (t +:+ u).
Proof.
  induction s as [|c s IH]; [reflexivity|]. rewrite !append_cons. now rewrite IH.
Qed.

Lemma append_nil_r (s : string) : s +:+ "" = s.
Proof. induction s as [|c s IH]; [reflexivity|]. rewrite append_cons. now rewrite IH. Qed.

Lemma whitespaceOnly_app (s t : string) :
  whitespaceOnly s -> whitespaceOnly t -> whitespaceOnly (s +:+ t).
Proof.
  induction 1 as [|w s Hw _ IH]; intros Ht; [exact Ht|].
  rewrite append_assoc. constructor; auto.
Qed.

(** [trimStart] removes white space, and white space only. *)
Lemma trimStart_split (s : string) :
  exists pre, s = pre +:+ trimStart s /\ whitespaceOnly pre.
Proof.
  remember (String.length s) as n eqn:Hn. revert s Hn.
  induction n as [n IH] using lt_wf_ind. intros s ->.
  destruct (trimStart_cases s) as [(w & rest & Hw & ->)|Hs].
  - rewrite trimStart_space by assumption.
    destruct (IH (String.length rest)) with (s := rest) as (pre & Hpre & Hb); [|reflexivity|].
    { rewrite append_length. pose proof (whitespace_length w Hw). lia. }
    exists (w +:+ pre). split; [|now constructor].
    now rewrite append_assoc, <- Hpre.
  - exists "". rewrite Hs. split; [reflexivity|constructor].
Qed.

Lemma trimStart_blank (s : string) : trimStart s = "" <-> whitespaceOnly s.
Proof.
  split.
  - intros H. destruct (trimStart_split s) as (pre & Hs & Hb).
    rewrite H, append_nil_r in Hs. now subst.
  - induction 1 as [|w s Hw _ IH]; [reflexivity|]. now rewrite trimStart_space.
Qed.

Lemma trimStart_length (s : string) : (String.length (trimStart s) <= String.length s)%nat.
Proof.
  destruct (trimStart_split s) as (pre & Hs & _).
  rewrite Hs at 2. rewrite append_length. lia.
Qed.

Lemma trimStart_idem (s : string) : trimStart (trimStart s) = trimStart s.
Proof.
  remember (String.length s) as n eqn:Hn. revert s Hn.
  induction n as [n IH] using lt_wf_ind. intros s ->.
  destruct (trimStart_cases s) as [(w & rest & Hw & ->)|Hs].
  - rewrite trimStart_space by assumption.
    apply (IH (String.length rest)); [|reflexivity].
    rewrite append_length. pose proof (whitespace_length w Hw). lia.
  - now rewrite Hs.
Qed.

Lemma trimEnd_cons (c : ascii) (s : string) :
  trimEnd (String c s)
  = if String.eqb (trimStart (String c s)) "" then "" else String c (trimEnd s).
Proof. reflexivity. Qed.

(** [trimEnd] removes white space, and white space only. *)
Lemma trimEnd_split (s : string) :
  exists post, s = trimEnd s +:+ post /\ whitespaceOnly post.
Proof.
  induction s as [|c s IH]; [exists ""; split; [reflexivity|constructor]|].
  rewrite trimEnd_cons. destruct (String.eqb_spec (trimStart (String c s)) "") as [E|E].
  - exists (String c s). split; [reflexivity|]. now apply trimStart_blank.
  - destruct IH as (post & Hs & Hb). exists post. split; [|exact Hb].
    rewrite append_cons. now rewrite <- Hs.
Qed.

Lemma trimEnd_idem (s : string) : trimEnd (trimEnd s) = trimEnd s.
Proof.
  induction s as [|c s IH]; [reflexivity|].
  rewrite trimEnd_cons. destruct (String.eqb_spec (trimStart (String c s)) "") as [E|E];
    [reflexivity|].
  rewrite trimEnd_cons, IH.
  destruct (String.eqb_spec (trimStart (String c (trimEnd s))) "") as [E'|E']; [|reflexivity].
  exfalso. apply E, trimStart_blank.
  destruct (trimEnd_split s) as (post & Hs & Hb).
  rewrite Hs, <- append_cons. apply whitespaceOnly_app; [|exact Hb].
  now apply trimStart_blank.
Qed.

Lemma trimEnd_blank (s : string) : trimEnd s = "" -> s = "" \/ trimStart s = "".
Proof.
  destruct s as [|c s]; [now left|]. rewrite trimEnd_cons.
  destruct (String.eqb_spec (trimStart (String c s)) ""); [now right|easy].
Qed.

(** The start of a string that [trimStart] leaves alone is left alone. *)
Lemma trimStart_trimEnd (s : string) : trimStart s = s -> trimStart (trimEnd s) = trimEnd s.
Proof.
  intros Hs. destruct (trimStart_cases (trimEnd s)) as [(w & rest & Hw & Hu)|H]; [|exact H].
  exfalso. destruct (trimEnd_split s) as (post & Hpost & _).
  rewrite Hu, append_assoc in Hpost.
  pose proof (trimStart_length (rest +:+ post)) as Hlen.
  rewrite <- (trimStart_space w _ Hw), <- Hpost, Hs in Hlen.
  rewrite Hpost, append_length in Hlen at 1.
  pose proof (whitespace_length w Hw). lia.
Qed.

Lemma trim_idem (s : string) : trim (trim s) = trim s.
Proof.
  unfold trim. rewrite (trimStart_trimEnd (trimStart s)) by apply trimStart_idem.
  apply trimEnd_idem.
Qed.

(** [trim] gives the empty string on white space only. *)
Lemma trim_blank_iff (s : string) : trim s = "" <-> whitespaceOnly s.
Proof.
  split; [|apply trim_blank].
  unfold trim. intros [H|H]%trimEnd_blank; [|rewrite trimStart_idem in H];
    now apply trimStart_blank.
Qed.

(** What [trim] leaves is a part of the string, between white space. *)
Lemma trim_split (s : string) :
  exists pre post, s = pre +:+ trim s +:+ post /\ whitespaceOnly pre /\ whitespaceOnly post.
Proof.
  destruct (trimStart_split s) as (pre & Hs & Hpre).
  destruct (trimEnd_split (trimStart s)) as (post & Ht & Hpost).
  exists pre, post. unfold trim. now rewrite <- Ht, <- Hs.
Qed.

Lemma trim_space (s : string) : trim (" " +:+ s) = trim s.
Proof.
  unfold trim. rewrite (trimStart_space " " s); [reflexivity|].
  cbv [whitespace In]. auto 10.
Qed.

(** ** The CSV reader: lists of items *)

Lemma splitComma_nonempty (s : string) : splitComma s <> [].
Proof. destruct s as [|c s]; simpl; [easy|]. now destruct (Ascii.eqb c ","). Qed.

Lemma splitComma_noComma (s : string) : noComma s = true -> splitComma s = [s].
Proof.
  unfold noComma. induction s as [|c s IH]; [reflexivity|]. cbn [allBytes splitComma].
  intros [Hc Hs]%andb_true_iff. apply negb_true_iff in Hc. now rewrite Hc, IH.
Qed.

Lemma splitComma_app (s t : string) :
  noComma s = true -> splitComma (s +:+ "," +:+ t) = s :: splitComma t.
Proof.
  unfold noComma. induction s as [|c s IH]; [reflexivity|].
  rewrite append_cons. cbn [allBytes splitComma].
  intros [Hc Hs]%andb_true_iff. apply negb_true_iff in Hc. now rewrite Hc, IH.
Qed.

Lemma splitComma_Forall (s : string) : Forall (fun w => noComma w = true) (splitComma s).
Proof.
  induction s as [|c s IH]; [now repeat constructor|]. cbn [splitComma].
  destruct (Ascii.eqb c ",") eqn:E; [now constructor|].
  destruct (splitComma s) as [|w ws]; simpl.
  - repeat constructor. unfold noComma. simpl. now rewrite E.
  - inversion IH as [|? ? Hw Hws]; subst. constructor; [|exact Hws].
    unfold noComma in *. simpl. now rewrite E.
Qed.

(** [s.split(',').join(',')] is [s]. *)
Lemma join_splitComma (s : string) : join "," (splitComma s) = s.
Proof.
  unfold join. induction s as [|c s IH]; [reflexivity|]. cbn [splitComma].
  pose proof (splitComma_nonempty s) as Hne.
  destruct (splitComma s) as [|w ws]; [easy|].
  destruct (Ascii.eqb_spec c ",") as [->|_].
  - change (String.concat "," ("" :: w :: ws))
      with ("" +:+ "," +:+ String.concat "," (w :: ws)).
    now rewrite IH.
  - cbn [hd tl]. destruct ws as [|w' ws].
    + change (String c w = String c s). f_equal. exact IH.
    + change (String c (w +:+ "," +:+ String.concat "," (w' :: ws)) = String c s).
      f_equal. exact IH.
Qed.

Lemma whitespaceOnly_noComma (s : string) : whitespaceOnly s -> noComma s = true.
Proof.
  intros H%whitespaceOnly_bytes. unfold noComma. revert H.
  induction s as [|c s IH]; [reflexivity|]. cbn [allBytes].
  intros [Hc Hs]%andb_true_iff. rewrite IH by assumption. rewrite andb_true_r.
  destruct (Ascii.eqb_spec c ",") as [->|_]; [discriminate Hc|reflexivity].
Qed.

(** The two guards of [parseSkills] change nothing. *)
Lemma parseSkills_unguarded (s : string) :
  parseSkills s
  = List.filter (fun skill => (0 <? String.length skill)%nat) (map trim (splitComma s)).
Proof.
  unfold parseSkills.
  destruct (String.eqb_spec s "") as [->|_]; [reflexivity|].
  destruct (String.eqb_spec (trim s) "") as [E|_]; [|reflexivity]. cbn [orb].
  rewrite splitComma_noComma by now apply whitespaceOnly_noComma, trim_blank_iff.
  simpl. now rewrite E.
Qed.

Lemma parseQualifications_parseSkills (s : string) : parseQualifications s = parseSkills s.
Proof. reflexivity. Qed.

Lemma noComma_app (s t : string) : noComma (s +:+ t) = noComma s && noComma t.
Proof. apply allBytes_app. Qed.

Lemma parseSkills_Forall (s : string) : Forall cleanItem (parseSkills s).
Proof.
  rewrite parseSkills_unguarded.
  apply List.Forall_forall. intros x [Hx Hlen]%filter_In.
  apply in_map_iff in Hx as (y & <- & Hy).
  pose proof (splitComma_Forall s) as Hall. rewrite List.Forall_forall in Hall.
  specialize (Hall y Hy). split; [|split].
  - intros E. now rewrite E in Hlen.
  - apply trim_idem.
  - destruct (trim_split y) as (pre & post & Hy' & _). rewrite Hy' in Hall.
    rewrite !noComma_app in Hall.
    now apply andb_true_iff in Hall as [_ [H _]%andb_true_iff].
Qed.

(** X15.  The items that [parseSkills] returns are never empty, have no white
    space at either end and hold no comma; [parseQualifications] is the same
    function; a cell of white space gives no item; and there are never more
    items than pieces between commas. *)
Theorem parseSkills_clean (s : string) :
  Forall cleanItem (parseSkills s)
  /\ parseQualifications s = parseSkills s
  /\ (whitespaceOnly s -> parseSkills s = [])
  /\ (length (parseSkills s) <= length (splitComma s))%nat.
Proof.
  split; [apply parseSkills_Forall|].
  split; [reflexivity|]; rewrite parseSkills_unguarded; split.
  - intros H. rewrite splitComma_noComma by now apply whitespaceOnly_noComma.
    simpl. now rewrite (trim_blank s H).
  - etransitivity; [apply List.filter_length_le|]. now rewrite List.length_map.
Qed.

Lemma join_cons (sep x y : string) (l : list string) :
  join sep (x :: y :: l) = x +:+ sep +:+ join sep (y :: l).
Proof. reflexivity. Qed.

Lemma splitComma_join (l : list string) :
  l <> [] -> Forall (fun x => noComma x = true) l ->
  splitComma (join ", " l) = hd "" l :: map (String.append " ") (tl l).
Proof.
  induction l as [|x l IH]; [easy|]. intros _ Hall.
  inversion Hall as [|? ? Hx Hl]; subst. destruct l as [|y l].
  - simpl. now apply splitComma_noComma.
  - rewrite join_cons.
    change (x +:+ ", " +:+ join ", " (y :: l))
      with (x +:+ "," +:+ (" " +:+ join ", " (y :: l))).
    rewrite splitComma_app by assumption. cbn [hd tl map]. f_equal.
    change (" " +:+ join ", " (y :: l)) with (String " " (join ", " (y :: l))).
    cbn [splitComma]. change (Ascii.eqb " " ",") with false. cbv iota.
    rewrite IH by easy. reflexivity.
Qed.

(** X16.  [parseSkills] reads back what [join(', ')] writes: a list of items
    that are not empty, have no white space at either end and hold no comma
    is recovered from its rendering in a chunk or in a result. *)
Theorem parseSkills_join (l : list string) :
  Forall cleanItem l -> parseSkills (join ", " l) = l.
Proof.
  intros Hall. rewrite parseSkills_unguarded. destruct l as [|x l]; [reflexivity|].
  assert (Hc : Forall (fun x => noComma x = true) (x :: l)).
  { eapply List.Forall_impl; [|exact Hall]. now intros y (_ & _ & Hy). }
  rewrite splitComma_join by easy. cbn [hd tl map].
  rewrite List.map_map.
  rewrite (List.map_ext_in (fun y => trim (" " +:+ y)) (fun y => y)).
  2:{ intros y Hy. rewrite trim_space. rewrite List.Forall_forall in Hall.
      apply (Hall y). now right. }
  rewrite List.map_id. inversion Hall as [|? ? (Hx1 & Hx2 & _) Hl]; subst.
  rewrite Hx2. apply filter_all. rewrite List.Forall_forall in *.
  intros y Hy. destruct (Hall y Hy) as (Hy1 & _). destruct y; [easy|reflexivity].
Qed.

Lemma parseSkills_join_witness :
  Forall cleanItem ["Python"; "React Native"; "AWS"]
  /\ parseSkills "Python, React Native, AWS" = ["Python"; "React Native"; "AWS"].
Proof.
  assert (H : Forall cleanItem ["Python"; "React Native"; "AWS"]).
  { repeat constructor; try discriminate. }
  split; [exact H|]. exact (parseSkills_join _ H).
Defined.

(** ** The CSV reader: years of experience *)

Lemma matchDigits_skip (pre s : string) :
  noDigit pre = true -> matchDigits (pre +:+ s) = matchDigits s.
Proof.
  unfold noDigit. induction pre as [|c pre IH]; [reflexivity|].
  rewrite append_cons. cbn [allBytes matchDigits].
  intros [Hc Hp]%andb_true_iff. apply negb_true_iff in Hc. rewrite Hc. auto.
Qed.

Lemma matchDigits_none (s : string) : noDigit s = true -> matchDigits s = None.
Proof.
  intros H. rewrite <- (append_nil_r s). now rewrite matchDigits_skip.
Qed.

Lemma takeDigits_app (digits suf : string) :
  allBytes isDigit digits = true -> noDigitFirst suf = true ->
  takeDigits (digits +:+ suf) = digits.
Proof.
  intros Hd Hs. induction digits as [|c digits IH].
  - rewrite append_nil_l. destruct suf as [|c suf]; [reflexivity|].
    simpl in *. apply negb_true_iff in Hs. now rewrite Hs.
  - rewrite append_cons. cbn [allBytes takeDigits] in *.
    apply andb_true_iff in Hd as [Hc Hd]. now rewrite Hc, IH.
Qed.

Lemma matchDigits_digits (digits suf : string) :
  digits <> "" -> allBytes isDigit digits = true -> noDigitFirst suf = true ->
  matchDigits (digits +:+ suf) = Some digits.
Proof.
  intros Hne Hd Hs. pose proof (takeDigits_app digits suf Hd Hs) as Ht.
  destruct digits as [|c digits]; [easy|].
  rewrite append_cons in *. cbn [matchDigits]. cbn [allBytes] in Hd.
  apply andb_true_iff in Hd as [Hc _]. now rewrite Hc, Ht.
Qed.

Lemma parseIntFrom_string_of_uint (d : Decimal.uint) (acc : nat) :
  parseIntFrom (NilEmpty.string_of_uint d) acc = Nat.of_uint_acc d acc.
Proof.
  revert acc. induction d as [|d IH|d IH|d IH|d IH|d IH|d IH|d IH|d IH|d IH|d IH];
    intros acc; cbn [NilEmpty.string_of_uint parseIntFrom Nat.of_uint_acc];
    [reflexivity|..]; rewrite IH, Nat.tail_mul_spec; f_equal;
    match goal with
    | |- context [digitValue ?c] =>
        let v := eval vm_compute in (digitValue c) in change (digitValue c) with v
    end; lia.
Qed.

(** Reading a number that was written in decimal gives the number. *)
Lemma parseInt_ofNat (n : nat) : parseInt (JsString.ofNat n) = n.
Proof.
  unfold parseInt, JsString.ofNat. rewrite parseIntFrom_string_of_uint.
  apply Unsigned.of_to.
Qed.

Lemma ofNat_nonempty (n : nat) : JsString.ofNat n <> "".
Proof.
  intros H. pose proof (parseInt_ofNat n) as Hn. rewrite H in Hn.
  change (parseInt "") with 0%nat in Hn. subst n. discriminate H.
Qed.

Lemma blankByte_noDigit (c : ascii) : blankByte c = true -> isDigit c = false.
Proof.
  destruct c as [[] [] [] [] [] [] [] []]; vm_compute; congruence.
Qed.

Lemma whitespaceOnly_noDigit (s : string) : whitespaceOnly s -> noDigit s = true.
Proof.
  intros H%whitespaceOnly_bytes. unfold noDigit. revert H.
  induction s as [|c s IH]; [reflexivity|]. cbn [allBytes].
  intros [Hc Hs]%andb_true_iff. now rewrite (blankByte_noDigit c Hc), IH.
Qed.

(** The two guards of [parseYearsOfExperience] change nothing. *)
Lemma parseYearsOfExperience_unguarded (s : string) :
  parseYearsOfExperience s
  = match matchDigits s with Some digits => parseInt digits | None => 0%nat end.
Proof.
  unfold parseYearsOfExperience.
  destruct (String.eqb_spec s "") as [->|_]; [reflexivity|].
  destruct (String.eqb_spec (trim s) "") as [E|_]; [|reflexivity]. cbn [orb].
  now rewrite matchDigits_none by now apply whitespaceOnly_noDigit, trim_blank_iff.
Qed.

(** X17.  [parseYearsOfExperience] reads the first number in the cell: after
    text without a digit, a decimal number below 2^53 gives that number,
    whatever follows it from the first byte that is not a digit; and a cell
    without a digit gives 0. *)
Theorem parseYearsOfExperience_number :
  (forall pre suf n,
      noDigit pre = true -> noDigitFirst suf = true -> (Z.of_nat n < 2 ^ 53)%Z ->
      parseYearsOfExperience (pre +:+ JsString.ofNat n +:+ suf) = n)
  /\ (forall s, noDigit s = true -> parseYearsOfExperience s = 0%nat).
Proof.
  split.
  - intros pre suf n Hpre Hsuf _. rewrite parseYearsOfExperience_unguarded.
    rewrite matchDigits_skip by assumption.
    rewrite matchDigits_digits; [apply parseInt_ofNat|apply ofNat_nonempty| |assumption].
    apply string_of_uint_digits.
  - intros s Hs. rewrite parseYearsOfExperience_unguarded. now rewrite matchDigits_none.
Qed.

(** ** The CSV reader: rows *)

(** X18.  [parsePersonData] returns at most one person per row; every person
    comes from a row whose 氏名 and 部署 are present and not empty, has them
    trimmed as its name and department, and has clean skills and
    qualifications.  The [complete] callback of [readCSVFile] succeeds
    exactly when the parser reports no error and at least one row, and then
    counts the persons, not the rows. *)
Theorem parsePersonData_spec (errors : list string) (rows : list Row) :
  (length (parsePersonData rows) <= length rows)%nat
  /\ Forall (fun p =>
               trim (name p) = name p /\ trim (department p) = department p
               /\ Forall cleanItem (skills p) /\ Forall cleanItem (qualifications p)
               /\ exists row n d,
                    In row rows /\ row !! "氏名" = Some n /\ n <> ""
                    /\ row !! "部署" = Some d /\ d <> ""
                    /\ name p = trim n /\ department p = trim d)
            (parsePersonData rows)
  /\ (success (complete errors rows) = true <-> errors = [] /\ rows <> [])
  /\ (success (complete errors rows) = true ->
      data (complete errors rows) = Some (parsePersonData rows)
      /\ rowCount (complete errors rows) = Some (length (parsePersonData rows))
      /\ error (complete errors rows) = None)
  /\ (success (complete errors rows) = false ->
      data (complete errors rows) = None /\ rowCount (complete errors rows) = None
      /\ error (complete errors rows) <> None).
Proof.
  split; [|split].
  - unfold parsePersonData. induction rows as [|row rows IH]; [easy|]. cbn [flat_map].
    rewrite length_app. unfold parseRow at 1. destruct (_ || _); simpl; lia.
  - apply List.Forall_forall. intros p (row & Hrow & Hp)%in_flat_map.
    unfold parseRow in Hp.
    destruct (row !! "氏名") as [n|] eqn:En; [|easy].
    destruct (row !! "部署") as [d|] eqn:Ed; [|now rewrite orb_true_r in Hp].
    cbn [missing] in Hp.
    destruct (String.eqb_spec n "") as [|Hn]; [easy|].
    destruct (String.eqb_spec d "") as [|Hd]; [easy|].
    destruct Hp as [<-|[]]. cbn [name department skills qualifications default from_option].
    split; [apply trim_idem|]. split; [apply trim_idem|].
    split; [apply parseSkills_Forall|]. split; [apply parseSkills_Forall|].
    exists row, n, d. auto 10.
  - unfold complete. destruct errors as [|message errors]; [|simpl; intuition congruence].
    destruct rows as [|row rows]; simpl; intuition congruence.
Qed.


(** ** The callers: is Gemini there *)

(** X19.  [isGeminiAvailable] and [getGeminiStatus] agree, and Gemini is
    available exactly when a key is set that is not the placeholder.  Then
    [getGeminiAPI] returns and [generateResponse] gives the trimmed answer
    of the model, or the error text if the model fails; otherwise
    [getGeminiAPI] throws and [generateResponse] gives the error text without
    asking the model. *)
Theorem isGeminiAvailable_status (apiKey : option string)
    (generateContent : string -> string -> outcome string) (prompt : string) :
  isGeminiAvailable apiKey = isAvailable (getGeminiStatus apiKey)
  /\ isAvailable (getGeminiStatus apiKey)
     = hasApiKey (getGeminiStatus apiKey) && isConfigured (getGeminiStatus apiKey)
  /\ (isGeminiAvailable apiKey = true ->
      exists key, apiKey = Some key /\ getGeminiAPI apiKey = Return key
                  /\ generateResponse apiKey generateContent prompt
                     = match generateContent key prompt with
                       | Return text => trim text
                       | Throw _ => responseError
                       end)
  /\ (isGeminiAvailable apiKey = false ->
      (exists err, getGeminiAPI apiKey = Throw err)
      /\ generateResponse apiKey generateContent prompt = responseError).
Proof.
  unfold generateResponse, getGeminiAPI, getGeminiStatus, isGeminiAvailable.
  destruct apiKey as [key|]; simpl.
  - destruct (String.eqb key ""), (String.eqb key placeholderKey); simpl;
      (split; [reflexivity|split; [reflexivity|split]]); intros H; try discriminate H;
      try (split; [eexists|]; reflexivity).
    exists key. repeat split.
  - simpl. split; [reflexivity|split; [reflexivity|split]]; intros H; [discriminate H|].
    split; [eexists|]; reflexivity.
Qed.

(** ** The callers: searching *)

Lemma blank_guard (q : string) :
  String.eqb q "" || String.eqb (trim q) "" = true <-> whitespaceOnly q.
Proof.
  rewrite orb_true_iff, !String.eqb_eq, trim_blank_iff. split; [|auto].
  intros [->|H]; [constructor|exact H].
Qed.

Lemma search_initialized nts (e : Engine) (ps : list PersonInfo) (q : string) :
  ps <> [] -> exists out, search nts (initialize e ps) q = Return out.
Proof. intros H. now apply search_returns. Qed.

(** X20.  [searchPersonsWithGemini] on a store with plain departments:
    without persons it answers that none are registered, and on a blank
    query that no query was entered, leaving the engine as it was; otherwise
    it initializes the engine with the persons, [search] returns, and the
    answer is Gemini's when the output escalates and the formatted output
    otherwise, which then holds an aggregation or a result.  The text for a
    failed search is never the answer. *)
Theorem searchPersonsWithGemini_spec (apiKey : option string)
    (generateContent : string -> string -> outcome string) (nts : float -> string)
    (e : Engine) (q : string) (ps : list PersonInfo) :
  plainDepartments (initialize e ps) ->
  (ps = [] -> searchPersonsWithGemini apiKey generateContent nts e q ps = (noPersons, e))
  /\ (ps <> [] -> whitespaceOnly q ->
      searchPersonsWithGemini apiKey generateContent nts e q ps = (noQuery, e))
  /\ (ps <> [] -> ~ whitespaceOnly q ->
      exists out,
        search nts (initialize e ps) q = Return out
        /\ searchPersonsWithGemini apiKey generateContent nts e q ps
           = (if shouldUseGemini out
              then generateIntelligentResponse apiKey generateContent nts q ps
                     (queryTypeName (analyzeQueryType q))
              else formatResults (results out) (aggregation out),
              initialize e ps)
        /\ (shouldUseGemini out = false ->
            aggregation out <> None \/ results out <> [])).
Proof.
  intros _. unfold searchPersonsWithGemini, initializeSearchEngine. split; [|split].
  - now intros ->.
  - intros Hps Hq%blank_guard. rewrite Hq. now destruct ps.
  - intros Hps Hq. destruct ps as [|p ps]; [easy|]. cbn [length Nat.eqb].
    destruct (String.eqb q "" || String.eqb (trim q) "") eqn:Eg.
    { exfalso. now apply Hq, blank_guard. }
    destruct (search_initialized nts e (p :: ps) q Hps) as [out Hout].
    exists out. split; [exact Hout|]. rewrite Hout.
    assert (Ht : queryType out = analyzeQueryType q).
    { revert Hout. unfold search.
      destruct (detectAggregationQuery _ q); [now intros [= <-]|].
      destruct (analyzeQueryType q) eqn:Et; try (now intros [= <-]).
      - rewrite handleAnalyticalQuery_analytical by assumption. cbv zeta.
        unfold statisticsResult.
        repeat match goal with
               | |- context [if ?b then _ else _] => destruct b
               | |- context [match ?f with Return _ => _ | Throw _ => _ end] => destruct f
               end; now intros [= <-].
      - intros [= <-]. unfold handleGeneralQuestion, listResult, searchForGemini.
        repeat match goal with
               | |- context [if ?b then _ else _] => destruct b
               end; reflexivity. }
    rewrite Ht. split; [now destruct (shouldUseGemini out)|].
    intros Hg. destruct (aggregation out) eqn:Ea; [now left|right].
    now apply (search_answers nts (initialize e (p :: ps)) q out).
Qed.

Lemma searchPersonsWithGemini_spec_witness :
  plainDepartments kaihatsuStore
  /\ searchPersonsWithGemini None (fun _ _ => Throw "") (fun _ => "") newEngine
       "   " (persons kaihatsuStore) = (noQuery, newEngine)
  /\ searchPersonsWithGemini None (fun _ _ => Throw "") (fun _ => "") newEngine
       "開発部は何人いますか？" (persons kaihatsuStore)
     = ("開発部に所属している人は2人です。", kaihatsuStore).
Proof.
  assert (H : plainDepartments kaihatsuStore) by (repeat constructor).
  split; [exact H|].
  destruct (searchPersonsWithGemini_spec None (fun _ _ => Throw "") (fun _ => "")
              newEngine "   " (persons kaihatsuStore) H) as (_ & Hblank & _).
  split.
  - apply Hblank; [discriminate|].
    apply (blank_space " " "  "); [cbv [whitespace In]; auto 10|].
    apply (blank_space " " " "); [cbv [whitespace In]; auto 10|].
    apply (blank_space " " ""); [cbv [whitespace In]; auto 10|constructor].
  - vm_compute. reflexivity.
Defined.


(** ** Occurrences *)

Lemma startsWith_app (sub rest : string) : startsWith (sub +:+ rest) sub = true.
Proof.
  induction sub as [|c sub IH]; [reflexivity|]. rewrite append_cons. cbn [startsWith].
  now rewrite Ascii.eqb_refl, IH.
Qed.

(** [s.includes(sub)] says that [sub] stands somewhere in [s]. *)
Lemma includes_iff (s sub : string) :
  includes s sub = true <-> exists a b, s = a +:+ sub +:+ b.
Proof.
  split.
  - induction s as [|c s IH]; cbn [includes].
    + rewrite orb_false_r. intros [rest ->]%startsWith_inv. now exists "", rest.
    + intros [[rest ->]%startsWith_inv|H]%orb_true_iff; [now exists "", rest|].
      destruct (IH H) as (a & b & ->). now exists (String c a), b.
  - intros (a & b & ->). induction a as [|c a IH].
    + rewrite append_nil_l. destruct (sub +:+ b) eqn:E; cbn [includes];
        rewrite <- E, startsWith_app; reflexivity.
    + rewrite append_cons. cbn [includes]. now rewrite IH, orb_true_r.
Qed.

Lemma includes_here (sub rest : string) : includes (sub +:+ rest) sub = true.
Proof. apply includes_iff. now exists "", rest. Qed.

Lemma includes_refl (s : string) : includes s s = true.
Proof. apply includes_iff. exists "", "". now rewrite append_nil_r. Qed.

Lemma includes_skip (a s sub : string) :
  includes s sub = true -> includes (a +:+ s) sub = true.
Proof.
  intros (x & y & ->)%includes_iff. apply includes_iff.
  exists (a +:+ x), y. now rewrite append_assoc.
Qed.

Lemma includes_app_l (s b sub : string) :
  includes s sub = true -> includes (s +:+ b) sub = true.
Proof.
  intros (x & y & ->)%includes_iff. apply includes_iff.
  exists x, (y +:+ b). now rewrite !append_assoc.
Qed.

Lemma includes_trans (s t u : string) :
  includes s t = true -> includes t u = true -> includes s u = true.
Proof.
  intros (a & b & ->)%includes_iff H. now apply includes_skip, includes_app_l.
Qed.

(** Walks down a chain of appends to the piece that is looked for. *)
Ltac find_piece :=
  repeat first [ apply includes_refl | apply includes_here | apply includes_skip ].

(** A member of a joined list stands in the result. *)
Lemma join_In {A} (f : A -> string) (sep : string) (l : list A) (x : A) :
  In x l -> exists a b, join sep (map f l) = a +:+ f x +:+ b.
Proof.
  unfold join. induction l as [|y l IH]; [easy|]. intros [->|Hx].
  - destruct l as [|z l]; cbn [map String.concat].
    + exists "", "". now rewrite append_nil_r.
    + now exists "", (sep +:+ String.concat sep (f z :: map f l)).
  - destruct (IH Hx) as (a & b & Hab). destruct l as [|z l]; [easy|].
    cbn [map String.concat] in *. rewrite Hab.
    exists (f y +:+ sep +:+ a), b. now rewrite !append_assoc.
Qed.

(** ** The rendering of results *)

Lemma formatResultsFrom_nth (rs : list AdvancedSearchResult) (k i : nat)
    (r : AdvancedSearchResult) :
  nth_error rs i = Some r -> In (k + i, r) (combine (seq k (length rs)) rs).
Proof.
  revert k i. induction rs as [|r' rs IH]; intros k [|i]; simpl; try easy.
  - intros [= ->]. left. f_equal. lia.
  - intros H. right. replace (k + S i)%nat with (S k + i)%nat by lia. now apply IH.
Qed.

Lemma formatResultsFrom_map (rs : list AdvancedSearchResult) (k : nat) :
  formatResultsFrom k rs
  = map (fun ir => formatResult (fst ir) (snd ir)) (combine (seq k (length rs)) rs).
Proof.
  revert k. induction rs as [|r rs IH]; intros k; simpl; [reflexivity|]. now rewrite IH.
Qed.

(** X21.  [formatResults] shows every result: the block of the result at
    index [i] stands in the text, starts with its rank [i + 1] and the name
    of the person, and holds the explanation.  The text of a list that is
    not empty is never the text for no results. *)
Theorem formatResults_lists (rs : list AdvancedSearchResult) (i : nat)
    (r : AdvancedSearchResult) :
  nth_error rs i = Some r ->
  includes (formatResults rs None) (formatResult i r) = true
  /\ startsWith (formatResult i r) (resultHeading i r) = true
  /\ includes (formatResult i r) (explanation r) = true
  /\ formatResults rs None <> noResults.
Proof.
  intros Hi.
  assert (Hne : rs <> []) by (destruct rs; [now destruct i|easy]).
  assert (Hfmt : formatResults rs None = join (LF +:+ LF) (formatResultsFrom 0 rs)).
  { unfold formatResults. now destruct rs. }
  assert (Hblock : includes (formatResults rs None) (formatResult i r) = true).
  { rewrite Hfmt, formatResultsFrom_map. apply includes_iff.
    apply (join_In (fun ir => formatResult (fst ir) (snd ir)) _ _ (i, r)).
    now apply (formatResultsFrom_nth rs 0 i r). }
  split; [exact Hblock|]. split; [|split].
  - enough (exists rest, formatResult i r = resultHeading i r +:+ rest) as [rest ->]
      by apply startsWith_app.
    eexists. unfold formatResult, resultHeading. rewrite !append_assoc. reflexivity.
  - unfold formatResult. find_piece.
  - intros E. rewrite E in Hblock. revert Hblock. unfold formatResult.
    intros (a & b & Hab)%includes_iff.
    assert (Hlf : includes noResults LF = true).
    { rewrite Hab. apply includes_skip, includes_app_l. find_piece. }
    vm_compute in Hlf. discriminate Hlf.
Qed.

Lemma formatResults_lists_witness :
  nth_error [tanakaResult] 0 = Some tanakaResult
  /\ includes (formatResults [tanakaResult] None) (formatResult 0 tanakaResult) = true.
Proof.
  split; [reflexivity|]. now apply (formatResults_lists [tanakaResult] 0 tanakaResult).
Defined.

(** ** What is sent to Gemini *)

Lemma personBlock_record (p : PersonInfo) :
  exists rest, personBlock p = personRecord p +:+ rest.
Proof. eexists. unfold personBlock, personRecord. rewrite !append_assoc. reflexivity. Qed.

(** [trimEnd] keeps everything up to a byte that is not of white space. *)
Lemma trimEnd_keeps (a b : string) (c : ascii) :
  blankByte c = false -> exists b', trimEnd (a +:+ String c b) = a +:+ String c b'.
Proof.
  intros Hc.
  assert (Hnb : forall a', trimStart (a' +:+ String c b) <> "").
  { intros a' H%trimStart_blank%whitespaceOnly_bytes.
    rewrite allBytes_app in H. cbn [allBytes] in H. rewrite Hc in H.
    now rewrite andb_false_r in H. }
  induction a as [|x a IH].
  - rewrite !append_nil_l, trimEnd_cons.
    destruct (String.eqb_spec (trimStart (String c b)) "") as [E|_]; [|eauto].
    now apply (Hnb "") in E.
  - rewrite !append_cons, trimEnd_cons.
    destruct (String.eqb_spec (trimStart (String x (a +:+ String c b))) "") as [E|_].
    + now apply (Hnb (String x a)) in E.
    + destruct IH as [b' ->]. eauto.
Qed.

Lemma trimStart_summary (rest : string) :
  trimStart (LF +:+ "【組織概要】" +:+ rest) = "【組織概要】" +:+ rest.
Proof. vm_compute. reflexivity. Qed.

Lemma trimEnd_includes (s sub : string) (c : ascii) :
  blankByte c = false ->
  includes s (sub +:+ String c "") = true ->
  includes (trimEnd s) (sub +:+ String c "") = true.
Proof.
  intros Hc (a & b & ->)%includes_iff.
  replace (a +:+ (sub +:+ String c "") +:+ b) with ((a +:+ sub) +:+ String c b)
    by now rewrite !append_assoc.
  destruct (trimEnd_keeps (a +:+ sub) b c Hc) as [b' ->].
  apply includes_iff. exists a, b'. now rewrite !append_assoc.
Qed.

Lemma join_personBlock (ps : list PersonInfo) (p : PersonInfo) (sep : string) :
  In p ps -> includes (join sep (map personBlock ps)) (personRecord p) = true.
Proof.
  intros Hp. destruct (join_In personBlock sep ps p Hp) as (a & b & ->).
  destruct (personBlock_record p) as [rest ->].
  apply includes_skip, includes_app_l, includes_here.
Qed.

Lemma personRecord_end (p : PersonInfo) :
  exists head, personRecord p = head +:+ String ")" "".
Proof.
  eexists. unfold personRecord. change "年)" with ("年" +:+ String ")" "").
  rewrite <- !append_assoc. reflexivity.
Qed.

(** The summary holds the record of every person. *)
Lemma createPersonSummary_includes (nts : float -> string) (ps : list PersonInfo)
    (p : PersonInfo) :
  In p ps -> includes (createPersonSummary nts ps) (personRecord p) = true.
Proof.
  intros Hp. unfold createPersonSummary. cbv zeta.
  unfold trim. rewrite trimStart_summary.
  destruct (personRecord_end p) as [head Hhead].
  pose proof (join_personBlock ps p (LF +:+ LF) Hp) as Hj.
  rewrite Hhead in *. apply trimEnd_includes; [reflexivity|].
  repeat match goal with
         | |- includes (?a +:+ _) _ = true =>
             lazymatch a with
             | join _ (map personBlock _) => fail
             | _ => apply includes_skip
             end
         end.
  now apply includes_app_l.
Qed.

Lemma generatePromptByType_includes (q summary t : string) :
  includes (generatePromptByType q summary t) q = true
  /\ includes (generatePromptByType q summary t) summary = true.
Proof.
  unfold generatePromptByType.
  repeat match goal with
         | |- context [if ?b then _ else _] => destruct b
         end; split; find_piece.
Qed.

(** X22.  The prompt of [generateIntelligentResponse] holds the query and,
    whatever the search found, the record of every person that was passed in:
    name, department, skills, qualifications and experience.  When Gemini is
    available this prompt is what the model is asked. *)
Theorem generateIntelligentResponse_prompt (apiKey : option string)
    (generateContent : string -> string -> outcome string) (nts : float -> string)
    (q : string) (ps : list PersonInfo) (t : string) :
  includes (generatePromptByType q (createPersonSummary nts ps) t) q = true
  /\ (forall p, In p ps ->
        includes (generatePromptByType q (createPersonSummary nts ps) t)
                 (personRecord p) = true)
  /\ (forall key, apiKey = Some key -> isGeminiAvailable apiKey = true ->
        generateIntelligentResponse apiKey generateContent nts q ps t
        = match generateContent key
                  (generatePromptByType q (createPersonSummary nts ps) t) with
          | Return text => trim text
          | Throw _ => responseError
          end).
Proof.
  destruct (generatePromptByType_includes q (createPersonSummary nts ps) t) as [Hq Hs].
  split; [exact Hq|]. split.
  - intros p Hp. eapply includes_trans; [exact Hs|].
    now apply createPersonSummary_includes.
  - intros key -> Hk. unfold generateIntelligentResponse, generateResponse. cbv zeta.
    rewrite Hk. unfold getGeminiAPI. simpl in *.
    destruct (String.eqb key ""), (String.eqb key placeholderKey); try discriminate Hk.
    reflexivity.
Qed.

(** ** The callers: chatting *)








(** ** The scorer: a field that is empty *)



(** ** The classifier and the scorer on conversational words *)

(** X25.  The conversational words of the classifier and of the scorer
    differ on one word.  A query that contains a conversational word of
    [analyzeQueryType] other than お勧め is conversational for the scorer
    too; お勧め is missing from the list of [isConversationalQuery], so the
    query お勧めの人 is classified as a general question, is not
    conversational for the scorer, and is answered with no result and a
    request to ask Gemini. *)
Theorem conversational_keywords (q : string) :
  (forall k, In k conversationalKeywords -> k <> "お勧め" ->
             includes q k = true -> isConversationalQuery q = true)
  /\ analyzeQueryType "お勧めの人" = general_question
  /\ isConversationalQuery (toLowerCase "お勧めの人") = false
  /\ forall e, handleGeneralQuestion e "お勧めの人"
               = {| results := []; aggregation := None;
                    queryType := general_question; shouldUseGemini := true |}.
Proof.
  split; [|split; [|split]]; try (vm_compute; reflexivity).
  intros k Hk Hne Hq. unfold isConversationalQuery.
  assert (Hsub : exists k', In k' conversationalQueryKeywords /\ includes k k' = true).
  { cbv [conversationalKeywords In] in Hk.
    repeat (destruct Hk as [<-|Hk];
            [ first
                [ now contradiction Hne
                | eexists; split; [|apply includes_refl];
                  cbv [conversationalQueryKeywords In]; now auto 40
                | exists "詳しい"; split;
                  [cbv [conversationalQueryKeywords In]; now auto 40
                  |vm_compute; reflexivity] ]
            | ]).
    contradiction. }
  destruct Hsub as (k' & Hk' & Hkk').
  apply (includesSome_intro q k' _ Hk'). now apply (includes_trans q k k').
Qed.

(** ** Ranking: results of equal relevance *)

Section Stable.

Context {A : Type} (after : A -> A -> bool) (same : A -> bool).

(** No member of the class [same] has to come after another one. *)
Hypothesis same_not_after :
  forall x y, same x = true -> same y = true -> after x y = false.

Lemma insertSorted_same (x : A) (l : list A) :
  List.filter same (insertSorted after x l) = List.filter same (x :: l).
Proof.
  induction l as [|y l IH]; [reflexivity|]. cbn [insertSorted].
  destruct (after x y) eqn:E; [|reflexivity].
  cbn [List.filter] in *. rewrite IH.
  destruct (same x) eqn:Ex, (same y) eqn:Ey; try reflexivity.
  now rewrite (same_not_after x y Ex Ey) in E.
Qed.

(** A stable sort keeps the members of the class in their order. *)
Lemma stableSort_same (l : list A) :
  List.filter same (stableSort after l) = List.filter same l.
Proof.
  induction l as [|x l IH]; [reflexivity|]. cbn [stableSort fold_right].
  rewrite insertSorted_same. cbn [List.filter]. fold (stableSort after l).
  now rewrite IH.
Qed.

End Stable.

Lemma filter_firstn {A} (f : A -> bool) (n : nat) (l : list A) :
  exists rest, List.filter f l = List.filter f (firstn n l) ++ rest.
Proof.
  exists (List.filter f (skipn n l)).
  now rewrite <- List.filter_app, firstn_skipn.
Qed.

Lemma SFcompare_eq (x y z : spec_float) :
  SFcompare x z = Some Eq -> SFcompare y z = Some Eq -> SFcompare x y = Some Eq.
Proof.
  destruct x as [sx|sx| |sx mx ex], y as [sy|sy| |sy my ey], z as [sz|sz| |sz mz ez];
    split_signs; simpl; try easy;
    destruct (Z.compare_spec ex ez), (Z.compare_spec ey ez), (Z.compare_spec ex ey);
    simpl; try easy; try lia; subst;
    rewrite ?Pos.compare_cont_spec; simpl;
    destruct (Pos.compare_spec mx mz), (Pos.compare_spec my mz), (Pos.compare_spec mx my);
    simpl; try easy; try lia.
Qed.

(** Two results of the same relevance: the comparator is not positive. *)
Lemma byRelevance_same (v : float) (x y : AdvancedSearchResult) :
  PrimFloat.eqb (relevance x) v = true -> PrimFloat.eqb (relevance y) v = true ->
  byRelevance x y = false.
Proof.
  rewrite !FloatAxioms.eqb_spec. unfold SFeqb. intros Hx Hy.
  destruct (SFcompare (Prim2SF (relevance x)) (Prim2SF v)) as [[]|] eqn:Ex; try easy.
  destruct (SFcompare (Prim2SF (relevance y)) (Prim2SF v)) as [[]|] eqn:Ey; try easy.
  pose proof (SFcompare_eq _ _ _ Ex Ey) as Hxy.
  destruct (SFcompare_number _ _ _ Hxy) as [Nx Ny].
  unfold byRelevance. rewrite gt_sub by assumption.
  unfold JsNumber.gt. rewrite ltb_spec. unfold SFltb. now rewrite Hxy.
Qed.

(** X26.  The ranking is stable: the returned results of one relevance are
    the first of the pushed results of that relevance, in the order of the
    store.  Among persons of equal relevance only the position in the store
    decides who is among the five. *)
Theorem performSearch_ties (e : Engine) (q : string) (v : float) :
  exists rest,
    withRelevance v (searchPersonsFrom e (toLowerCase q) 0 (persons e))
    = withRelevance v (performSearch e q) ++ rest.
Proof.
  unfold withRelevance, performSearch.
  destruct (filter_firstn (fun r => PrimFloat.eqb (relevance r) v) 5
              (stableSort byRelevance (searchPersonsFrom e (toLowerCase q) 0 (persons e))))
    as [rest Hrest].
  exists rest. rewrite <- Hrest. symmetry. apply stableSort_same.
  intros x y. apply byRelevance_same.
Qed.

(** ** Counting the holders of a skill *)

(** X27.  A query that contains スキル and 何人, none of the three
    department tokens, and a skill keyword is answered by a count without
    asking Gemini: the first keyword of [skillKeywords] that the query
    contains is taken (javascript before java), and the persons counted are those one of whose skills
    contains that keyword, in any case; the count is at most the size of the
    store. *)
Theorem search_skillcount nts (e : Engine) (q skill : string) :
  includes (toLowerCase q) "スキル" = true -> includes (toLowerCase q) "何人" = true ->
  includes (toLowerCase q) "開発部" = false ->
  includes (toLowerCase q) "インフラ" = false ->
  includes (toLowerCase q) "デザイン" = false ->
  List.find (fun s => includes (toLowerCase q) s) skillKeywords = Some skill ->
  search nts e q = skillAnswer e q skill
  /\ In skill skillKeywords /\ includes (toLowerCase q) skill = true
  /\ (countWhere (fun p => existsb (fun s => includes (toLowerCase s) skill) (skills p))
         (persons e) <= length (persons e))%nat.
Proof.
  intros H1 H2 H3 H4 H5 Hf.
  assert (Hd : detectAggregationQuery e q = Some (skillCount e skill)).
  { unfold detectAggregationQuery. cbv zeta. rewrite H1, H2, H3, H4, H5, Hf. reflexivity. }
  split; [rewrite (search_aggregation nts e q _ Hd); reflexivity|].
  apply find_some in Hf as [Hin Hq]. split; [exact Hin|]. split; [exact Hq|].
  apply List.filter_length_le.
Qed.

Lemma search_skillcount_witness :
  search (fun _ => "") (initialize newEngine [suzuki; tanaka])
    "Javaスキルを持つ人は何人" = skillAnswer (initialize newEngine [suzuki; tanaka])
                                     "Javaスキルを持つ人は何人" "java"
  /\ skillAnswer (initialize newEngine [pythonist "A"]) "JavaScriptとJavaのスキルは何人"
                 "javascript"
     = search (fun _ => "") (initialize newEngine [pythonist "A"])
         "JavaScriptとJavaのスキルは何人".
Proof.
  split.
  - apply (search_skillcount (fun _ => "") _ "Javaスキルを持つ人は何人" "java");
      vm_compute; reflexivity.
  - symmetry.
    apply (search_skillcount (fun _ => "") _ "JavaScriptとJavaのスキルは何人" "javascript");
      vm_compute; reflexivity.
Defined.

(** ** The statistics of the skills *)

Lemma unique_snoc (l : list string) (x : string) :
  unique (l ++ [x]) = if existsb (String.eqb x) (unique l) then unique l else unique l ++ [x].
Proof. unfold unique. now rewrite fold_left_app. Qed.

Lemma analyzeSkills_step (l : list (string * string)) (d s : string) acc :
  skillsTallied l acc -> skillsTallied (l ++ [(d, s)]) (countSkill d acc s).
Proof.
  destruct acc as [counts departments]. unfold skillsTallied, countWhere.
  intros (Hc & Hd & Hsum). cbn [fst snd] in *.
  assert (Hl : forall s', List.filter (fun ds => String.eqb (snd ds) s') (l ++ [(d, s)])
                          = List.filter (fun ds => String.eqb (snd ds) s') l
                            ++ if String.eqb s s' then [(d, s)] else []).
  { intros s'. rewrite List.filter_app. simpl. now destruct (String.eqb s s'). }
  unfold countSkill.
  pose proof (Hc s) as Hcs. pose proof (Hd s) as Hds. cbv zeta in Hcs.
  destruct (length (List.filter (fun ds => String.eqb (snd ds) s) l)) as [|n] eqn:En;
    cbn [Nat.eqb] in Hcs, Hds.
  - cbv beta iota zeta. rewrite Hcs. cbv beta iota zeta.
    rewrite !entryGet_entrySet, String.eqb_refl. cbv [default from_option Datatypes.id]. cbn [existsb app].
    apply length_zero_iff_nil in En.
    repeat split; cbn [fst snd].
    + intros s'. rewrite !entryGet_entrySet, Hl, length_app.
      destruct (String.eqb s s') eqn:E.
      * apply String.eqb_eq in E as <-. now rewrite En.
      * rewrite Hc. simpl. now rewrite ?Nat.add_0_r.
    + intros s'. rewrite !entryGet_entrySet, Hl, length_app.
      destruct (String.eqb s s') eqn:E.
      * apply String.eqb_eq in E as <-. now rewrite En.
      * rewrite Hd. simpl. now rewrite ?Nat.add_0_r, ?app_nil_r.
    + pose proof (entrySet_sum (entrySet counts s 0%nat) s (0 + 1)) as H1.
      pose proof (entrySet_sum counts s 0%nat) as H2.
      rewrite entryGet_entrySet, String.eqb_refl in H1. rewrite Hcs in H2.
      simpl in H1, H2. rewrite length_app. simpl. lia.
  - cbv beta iota zeta. rewrite Hcs. cbv beta iota zeta. rewrite Hcs, Hds.
    cbv [default from_option Datatypes.id].
    set (L := map fst (List.filter (fun ds => String.eqb (snd ds) s) l)) in *.
    assert (Hu : forall s', s = s' ->
               unique (map fst (List.filter (fun ds => String.eqb (snd ds) s') l ++ [(d, s)]))
               = if existsb (String.eqb d) (unique L) then unique L else unique L ++ [d]).
    { intros s' <-. rewrite map_app. apply unique_snoc. }
    repeat split; cbn [fst snd].
    + intros s'. rewrite !entryGet_entrySet, Hl, length_app.
      destruct (String.eqb s s') eqn:E.
      * apply String.eqb_eq in E as <-. rewrite En. simpl.
        destruct (n + 1)%nat eqn:E1; [lia|]. f_equal; lia.
      * rewrite Hc. simpl. now rewrite ?Nat.add_0_r.
    + intros s'. rewrite Hl, length_app.
      destruct (existsb (String.eqb d) (unique L)) eqn:Ex.
      * rewrite Hd. destruct (String.eqb s s') eqn:E.
        -- rewrite (Hu s') by now apply String.eqb_eq.
           apply String.eqb_eq in E as <-. rewrite En. simpl.
           now destruct (n + 1)%nat eqn:E1; [lia|].
        -- simpl. now rewrite ?Nat.add_0_r, ?app_nil_r.
      * rewrite entryGet_entrySet. destruct (String.eqb s s') eqn:E.
        -- rewrite (Hu s') by now apply String.eqb_eq.
           apply String.eqb_eq in E as <-. rewrite En. simpl.
           now destruct (n + 1)%nat eqn:E1; [lia|].
        -- rewrite Hd. simpl. now rewrite ?Nat.add_0_r, ?app_nil_r.
    + pose proof (entrySet_sum counts s (S n + 1)) as H1.
      rewrite Hcs in H1. rewrite length_app. simpl in H1 |- *. lia.
Qed.

Lemma analyzeSkills_person (pre : list (string * string)) (d : string)
    (ss : list string) acc :
  skillsTallied pre acc ->
  skillsTallied (pre ++ map (fun skill => (d, skill)) ss) (fold_left (countSkill d) ss acc).
Proof.
  revert pre acc. induction ss as [|s ss IH]; intros pre acc H; simpl.
  - now rewrite app_nil_r.
  - replace (pre ++ (d, s) :: map (fun skill => (d, skill)) ss)
      with ((pre ++ [(d, s)]) ++ map (fun skill => (d, skill)) ss)
      by now rewrite <- app_assoc.
    apply IH. now apply analyzeSkills_step.
Qed.

Lemma analyzeSkills_fold (ps : list PersonInfo) (pre : list (string * string)) acc :
  skillsTallied pre acc ->
  skillsTallied (pre ++ listed ps)
    (fold_left (fun acc p => fold_left (countSkill (department p)) (skills p) acc) ps acc).
Proof.
  revert pre acc. induction ps as [|p ps IH]; intros pre acc H; simpl.
  - now rewrite app_nil_r.
  - rewrite app_assoc. apply IH. now apply analyzeSkills_person.
Qed.

Lemma analyzeSkills_fold_left (e : Engine) :
  analyzeSkills e
  = let acc := fold_left (fun acc p => fold_left (countSkill (department p)) (skills p) acc)
                 (persons e) ([], []) in
    {| skillCounts := fst acc; skillDepartments := snd acc;
       skillTotal := length (persons e) |}.
Proof.
  unfold analyzeSkills.
  change (fold_left _ (persons e) ([], []))
    with (fold_left (fun acc p => fold_left (countSkill (department p)) (skills p) acc)
            (persons e) ([], [])).
  cbv zeta.
  now destruct (fold_left _ (persons e) ([], [])).
Qed.

Lemma analyzeSkills_tallied (e : Engine) :
  skillsTallied (listed (persons e))
    (skillCounts (analyzeSkills e), skillDepartments (analyzeSkills e)).
Proof.
  rewrite analyzeSkills_fold_left. cbv zeta. cbn [skillCounts skillDepartments].
  rewrite <- surjective_pairing.
  apply (analyzeSkills_fold (persons e) [] ([], [])).
  repeat split; try easy.
Qed.

Lemma listed_filter (ps : list PersonInfo) (s : string) :
  map snd (List.filter (fun ds => String.eqb (snd ds) s) (listed ps))
  = List.filter (String.eqb s) (flat_map skills ps).
Proof.
  induction ps as [|p ps IH]; [reflexivity|].
  unfold listed in *. cbn [flat_map]. rewrite !List.filter_app, map_app.
  f_equal; [|exact IH].
  induction (skills p) as [|x xs IHx]; [reflexivity|].
  simpl. rewrite (String.eqb_sym s x). destruct (String.eqb x s); simpl; now f_equal.
Qed.

Lemma listed_occurrences (ps : list PersonInfo) (s : string) :
  countWhere (fun ds => String.eqb (snd ds) s) (listed ps) = occurrences ps s.
Proof.
  unfold occurrences, countWhere. now rewrite <- listed_filter, length_map.
Qed.

Lemma listed_In (ps : list PersonInfo) (d s : string) :
  In (d, s) (listed ps) <-> exists p, In p ps /\ department p = d /\ In s (skills p).
Proof.
  unfold listed. rewrite in_flat_map. split.
  - intros (p & Hp & Hin). apply in_map_iff in Hin as (x & [= <- <-] & Hx). now exists p.
  - intros (p & Hp & <- & Hs). exists p. split; [exact Hp|]. now apply in_map.
Qed.

Lemma listed_length (ps : list PersonInfo) :
  length (listed ps) = length (flat_map skills ps).
Proof.
  induction ps as [|p ps IH]; [reflexivity|].
  unfold listed in *. cbn [flat_map]. now rewrite !length_app, length_map, IH.
Qed.

(** X28.  On a store whose skills are plain keys, [analyzeSkills] gives
    every skill the number of times it is listed in the store (a person who
    lists it twice counts twice) and nothing for a string that no one lists;
    the departments recorded for a skill are those of the persons who list
    it, each once; the counts add up to the number of listed skills, and the
    total is the size of the store. *)
Theorem analyzeSkills_spec (e : Engine) :
  plainSkills e ->
  (forall s, entryGet (skillCounts (analyzeSkills e)) s
             = if (occurrences (persons e) s =? 0)%nat then None
               else Some (occurrences (persons e) s))
  /\ (forall s, entryGet (skillDepartments (analyzeSkills e)) s = None
                <-> occurrences (persons e) s = 0%nat)
  /\ (forall s depts, entryGet (skillDepartments (analyzeSkills e)) s = Some depts ->
        List.NoDup depts
        /\ forall d, In d depts
                     <-> exists p, In p (persons e) /\ department p = d /\ In s (skills p))
  /\ list_sum (map snd (skillCounts (analyzeSkills e))) = length (flat_map skills (persons e))
  /\ skillTotal (analyzeSkills e) = length (persons e).
Proof.
  intros _. destruct (analyzeSkills_tallied e) as (Hc & Hd & Hsum). cbn [fst snd] in *.
  split; [|split; [|split; [|split]]].
  - intros s. rewrite Hc. cbv zeta. now rewrite listed_occurrences.
  - intros s. rewrite Hd, listed_occurrences.
    destruct (occurrences (persons e) s) eqn:E; simpl; split; intros; easy.
  - intros s depts. rewrite Hd.
    destruct (_ =? _)%nat; [easy|]. intros [= <-]. split; [apply unique_NoDup|].
    intros d. rewrite unique_In, in_map_iff, <- listed_In. split.
    + intros ([d' s'] & <- & Hin). apply filter_In in Hin as [Hin E].
      cbn [fst snd] in *. now apply String.eqb_eq in E as ->.
    + intros Hin. exists (d, s). split; [reflexivity|]. apply filter_In.
      split; [exact Hin|]. apply String.eqb_refl.
  - now rewrite Hsum, listed_length.
  - now rewrite analyzeSkills_fold_left.
Qed.

Lemma analyzeSkills_spec_witness :
  plainSkills gophers
  /\ entryGet (skillCounts (analyzeSkills gophers)) "Go" = Some 3%nat
  /\ entryGet (skillCounts (analyzeSkills gophers)) "Rust" = None
  /\ length (persons gophers) = 2%nat.
Proof.
  assert (H : plainSkills gophers) by (repeat constructor).
  split; [exact H|].
  destruct (analyzeSkills_spec gophers H) as (Hc & _).
  split; [|split]; [rewrite Hc; reflexivity..|reflexivity].
Defined.
